(** * Monitoring pipeline of [week-4/project/monitoring]: a shallow embedding

    The development follows the Python package module by module:
    [schemas.py], [evaluator.py], [parser.py], [sources.py], [db.py] and
    [runner.py].

    Conventions of the embedding.
    - A Python [str] is a [string]; every character stands for one code point
      below 256, so that [str.lower], [str.strip] and the [re] character
      classes are the ones Python applies to those code points.
    - A Python [int] is a [Z] (or a [nat] for a length or a counter).
    - A Python [float] obtained by dividing two lengths is the exact rational
      [Q].  An IEEE double is the correctly rounded quotient and rounding is
      monotone, so comparing it with [35] or with the literal [0.08] gives the
      answer of the exact comparison as long as the lengths stay below 2^48,
      which any text held in memory does.
    - Code that can raise returns a [Result]; [try]/[except] is a [match] on
      it. *)

From Stdlib Require Import ZArith QArith Ascii String List Bool Lia SpecFloat.
From stdpp Require Import base gmap strings list sorting.

Local Open Scope Z_scope.

(** ** Exceptions and the error monad *)

Inductive Exn : Set :=
  | JSONDecodeError
  | AttributeError
  | TypeError
  | KeyError
  | ValueError
  | ZeroDivisionError
  | FileNotFoundError
  | IsADirectoryError
  | NotADirectoryError
  | IndexError
  | IntegrityError
  | OperationalError.

Inductive Result (A : Type) : Type :=
  | Ok (a : A)
  | Raise (e : Exn).
Arguments Ok {A} a.
Arguments Raise {A} e.

#[global] Instance Result_ret : MRet Result := fun _ a => Ok a.
#[global] Instance Result_bind : MBind Result := fun _ _ f m =>
  match m with
  | Ok a => f a
  | Raise e => Raise e
  end.

Definition is_ok {A} (r : Result A) : bool :=
  match r with Ok _ => true | Raise _ => false end.

(** ** Python string primitives *)

Module Py.

(** [str.isspace] on one character, which is also the class [\s] of [re] for
    [str] patterns: TAB..CR, FS..US, space, NEL and NBSP. *)
Definition isspace (c : ascii) : bool :=
  let n := N_of_ascii c in
  ((9 <=? n) && (n <=? 13) || (28 <=? n) && (n <=? 32)
   || (n =? 133) || (n =? 160))%N.

(** [str.lower] on one character: A-Z and the Latin-1 capitals (all of
    0xC0..0xDE but the multiplication sign 0xD7) move up by 32. *)
Definition lower_char (c : ascii) : ascii :=
  let n := N_of_ascii c in
  if ((65 <=? n) && (n <=? 90)
      || (192 <=? n) && (n <=? 222) && negb (n =? 215))%N
  then ascii_of_N (n + 32) else c.

Fixpoint lower (s : string) : string :=
  match s with
  | EmptyString => EmptyString
  | String c s' => String (lower_char c) (lower s')
  end.

(** [s.startswith(p)] *)
Fixpoint startswith (p s : string) : bool :=
  match p, s with
  | EmptyString, _ => true
  | String a p', String b s' => if Ascii.eqb a b then startswith p' s' else false
  | String _ _, EmptyString => false
  end.

(** [sub in s] *)
Fixpoint contains (sub s : string) : bool :=
  startswith sub s ||
  match s with
  | EmptyString => false
  | String _ s' => contains sub s'
  end.

Fixpoint lstrip (s : string) : string :=
  match s with
  | String c s' => if isspace c then lstrip s' else s
  | EmptyString => EmptyString
  end.

Fixpoint rstrip (s : string) : string :=
  match s with
  | EmptyString => EmptyString
  | String c s' =>
      match rstrip s' with
      | EmptyString => if isspace c then EmptyString else String c EmptyString
      | r => String c r
      end
  end.

(** [s.strip()] *)
Definition strip (s : string) : string := rstrip (lstrip s).

Definition nonempty (s : string) : bool :=
  match s with EmptyString => false | String _ _ => true end.

(** The text of one newline, and of a blank line between two chunks. *)
Definition newline : string := String "010" EmptyString.
Definition blank_line : string := String "010" (String "010" EmptyString).

(** [sep.join(chunks)] *)
Fixpoint join (sep : string) (chunks : list string) : string :=
  match chunks with
  | [] => ""
  | [x] => x
  | x :: rest => x +:+ sep +:+ join sep rest
  end.

(** [o or ""] for an optional string *)
Definition or_empty (o : option string) : string :=
  match o with Some s => s | None => "" end.

(** The class [[A-Za-z0-9_]]. *)
Definition is_word (c : ascii) : bool :=
  let n := N_of_ascii c in
  ((65 <=? n) && (n <=? 90) || (97 <=? n) && (n <=? 122)
   || (48 <=? n) && (n <=? 57) || (n =? 95))%N.

(** The class [\d] below 256. *)
Definition is_digit (c : ascii) : bool :=
  let n := N_of_ascii c in ((48 <=? n) && (n <=? 57))%N.

(** The class [[.!?]]. *)
Definition is_stop (c : ascii) : bool :=
  let n := N_of_ascii c in ((n =? 46) || (n =? 33) || (n =? 63))%N.

(** [re.findall(r"[A-Za-z0-9_]+", s)]: the maximal runs of word characters,
    left to right.  [cur] is the run being read, in reverse. *)
Fixpoint findall_words_from (s : string) (cur : list ascii) : list string :=
  match s with
  | EmptyString =>
      match cur with [] => [] | _ => [string_of_list_ascii (rev cur)] end
  | String c s' =>
      if is_word c then findall_words_from s' (c :: cur)
      else match cur with
           | [] => findall_words_from s' []
           | _ => string_of_list_ascii (rev cur) :: findall_words_from s' []
           end
  end.

Definition findall_words (s : string) : list string := findall_words_from s [].

(** Length of the longest prefix of [s] made of characters in class [p]. *)
Fixpoint run (p : ascii -> bool) (s : string) : nat :=
  match s with
  | String c s' => if p c then S (run p s') else O
  | EmptyString => O
  end.

Fixpoint drop (n : nat) (s : string) : string :=
  match n, s with
  | O, _ => s
  | S n', String _ s' => drop n' s'
  | S _, EmptyString => EmptyString
  end.

(** A match of [[.!?]+\s+] at the start of [s]: its length.  Both loops are
    greedy, and giving a character back never helps: the character after a
    shorter run of stops is a stop, not a space. *)
Definition sentence_break (s : string) : option nat :=
  let stops := run is_stop s in
  let spaces := run isspace (drop stops s) in
  match stops, spaces with
  | S _, S _ => Some (stops + spaces)%nat
  | _, _ => None
  end.

(** [re.split(r"[.!?]+\s+", s)].  The scan tries a match at every position
    from the left; [skip] counts the characters of the current match still to
    pass, [cur] is the piece being read, in reverse. *)
Fixpoint split_sentences_from (s : string) (skip : nat) (cur : list ascii)
  : list string :=
  match s with
  | EmptyString => [string_of_list_ascii (rev cur)]
  | String c s' =>
      match skip with
      | S k => split_sentences_from s' k cur
      | O =>
          match sentence_break s with
          | Some n =>
              string_of_list_ascii (rev cur)
                :: split_sentences_from s' (Nat.pred n) []
          | None => split_sentences_from s' O (c :: cur)
          end
      end
  end.

Definition split_sentences (s : string) : list string :=
  split_sentences_from s O [].

(** A match of [\s*(?:[-*]|\d+\.)\s+] at the start of [s]. *)
Definition bullet_here (s : string) : bool :=
  let r := drop (run isspace s) s in
  let after_marker :=
    match r with
    | String c r' =>
        if (Ascii.eqb c "-" || Ascii.eqb c "*")%char then Some r'
        else
          match run is_digit r with
          | O => None
          | S _ as d =>
              match drop d r with
              | String "." r'' => Some r''
              | _ => None
              end
          end
    | EmptyString => None
    end in
  match after_marker with
  | Some (String c _) => isspace c
  | _ => false
  end.

(** A match of the same pattern just after some newline of [s]. *)
Fixpoint bullet_after_newline (s : string) : bool :=
  match s with
  | EmptyString => false
  | String c s' =>
      (Ascii.eqb c "010" && bullet_here s') || bullet_after_newline s'
  end.

(** [bool(re.search(r"(^|\n)\s*(?:[-*]|\d+\.)\s+", s))] *)
Definition search_bullet (s : string) : bool :=
  bullet_here s || bullet_after_newline s.

End Py.

(** ** Decoded JSON documents

    What [json.loads] returns: [None], [bool], [int], [float], [str], [list]
    and [dict].  A [dict] keeps its keys in insertion order and holds every
    key once; it is an association list read by [dict_get]. *)

#[warnings="-register-all"] Inductive json : Type :=
  | JNull
  | JBool (b : bool)
  | JInt (z : Z)
  | JFloat (f : spec_float)
  | JStr (s : string)
  | JList (l : list json)
  | JDict (d : list (string * json)).

Module Json.

(** [d.get(key)], [None] when the key is missing *)
Fixpoint dict_get (key : string) (d : list (string * json)) : option json :=
  match d with
  | [] => None
  | (k, v) :: d' => if String.eqb k key then Some v else dict_get key d'
  end.

(** [obj.get(key)]: only a [dict] has the method; a missing key gives
    [None], which is also what a stored [null] gives. *)
Definition get (key : string) (obj : json) : Result json :=
  match obj with
  | JDict d => Ok (default JNull (dict_get key d))
  | _ => Raise AttributeError
  end.

(** [obj.get(key, dflt)] *)
Definition get_default (key : string) (dflt : json) (obj : json) : Result json :=
  match obj with
  | JDict d => Ok (default dflt (dict_get key d))
  | _ => Raise AttributeError
  end.

(** [bool(v)] *)
Definition truthy (v : json) : bool :=
  match v with
  | JNull => false
  | JBool b => b
  | JInt z => negb (z =? 0)
  | JFloat (S754_zero _) => false
  | JFloat _ => true
  | JStr s => Py.nonempty s
  | JList [] => false
  | JList _ => true
  | JDict [] => false
  | JDict _ => true
  end.

(** [v or dflt] *)
Definition or_else (v dflt : json) : json := if truthy v then v else dflt.

Fixpoint chars (s : string) : list json :=
  match s with
  | EmptyString => []
  | String c s' => JStr (String c EmptyString) :: chars s'
  end.

(** What [for x in v] runs through: the items of a list, the keys of a
    dict, the characters of a string; anything else is not iterable. *)
Definition iter (v : json) : Result (list json) :=
  match v with
  | JList l => Ok l
  | JDict d => Ok (map (fun kv => JStr (fst kv)) d)
  | JStr s => Ok (chars s)
  | _ => Raise TypeError
  end.

(** [reversed(v)]: as [iter], backwards. *)
Definition reversed (v : json) : Result (list json) :=
  l ← iter v; Ok (rev l).

(** [isinstance(v, str)] with the string it holds *)
Definition as_str (v : json) : option string :=
  match v with JStr s => Some s | _ => None end.

(** [isinstance(v, int)] with the value [int(v)]; [bool] is a subclass of
    [int] in Python, [True] is [1] and [False] is [0]. *)
Definition as_int (v : json) : option Z :=
  match v with
  | JInt z => Some z
  | JBool b => Some (if b then 1 else 0)
  | _ => None
  end.

Definition is_null (v : json) : bool :=
  match v with JNull => true | _ => false end.

End Json.

(** ** schemas.py *)

Inductive CheckName : Set :=
  | instructions_follow
  | instructions_avoid
  | answer_clear
  | answer_match
  | answer_citations
  | completeness
  | tool_call_search.

(** [decimal.Decimal]: [coefficient * 10 ^ exponent]. *)
Record Decimal : Set := { coefficient : Z; exponent : Z }.

Record LLMLogRecord : Set := {
  filepath : string;
  agent_name : option string;
  provider : option string;
  model : option string;
  user_prompt : option string;
  instructions : option string;
  total_input_tokens : option Z;
  total_output_tokens : option Z;
  assistant_answer : option string;
  raw_json : option string;
  input_cost : option Decimal;
  output_cost : option Decimal;
  total_cost : option Decimal
}.

(** A formatted string literal, kept as its pieces: the text between the
    fields and the values the fields print.  [FFixed d q] is [{q:.df}]. *)
Inductive Piece : Set :=
  | Lit (s : string)
  | FInt (n : Z)
  | FBool (b : bool)
  | FFixed (digits : nat) (q : Q).

Record CheckResult : Set := {
  log_id : Z;
  check_name : CheckName;
  passed : option bool;
  score : option Q;
  details : option (list Piece)
}.

(** ** evaluator.py *)

Module Evaluator.

(** [_tokenize], evaluator.py:16-17 *)
Definition _tokenize (text : string) : list string :=
  Py.findall_words (Py.lower text).

(** [a / b] on two integers *)
Definition truediv (a b : Z) : Result Q :=
  if b =? 0 then Raise ZeroDivisionError else Ok (a # Z.to_pos b).

(** The body of the inner loop, evaluator.py:39-41: one part adds one to the
    counter when its [tool_name] is ["search"]. *)
Definition scan_part (part : json) (search_calls : nat) : Result nat :=
  name ← Json.get "tool_name" part;
  Ok (match name with
      | JStr s => if String.eqb s "search" then S search_calls else search_calls
      | _ => search_calls
      end).

(** A loop that updates a counter and may raise half way: the counter keeps
    what was added before the exception. *)
Fixpoint scan_parts (parts : list json) (search_calls : nat)
  : nat * option Exn :=
  match parts with
  | [] => (search_calls, None)
  | part :: rest =>
      match scan_part part search_calls with
      | Ok n => scan_parts rest n
      | Raise e => (search_calls, Some e)
      end
  end.

Fixpoint scan_messages (messages : list json) (search_calls : nat)
  : nat * option Exn :=
  match messages with
  | [] => (search_calls, None)
  | msg :: rest =>
      match (parts ← Json.get_default "parts" (JList []) msg;
             Json.iter (Json.or_else parts (JList []))) with
      | Ok parts =>
          match scan_parts parts search_calls with
          | (n, None) => scan_messages rest n
          | (n, Some e) => (n, Some e)
          end
      | Raise e => (search_calls, Some e)
      end
  end.

Section WithJson.

(** [json.loads] of the standard library. *)
Variable json_loads : string -> Result json.

(** [json.loads(raw_json or "{}")]; the text ["{}"] decodes to the empty
    dict. *)
Definition loads_or_empty (raw_json : option string) : Result json :=
  match raw_json with
  | None | Some EmptyString => Ok (JDict [])
  | Some raw => json_loads raw
  end.

(** evaluator.py:35-43: the [try] block with its [except Exception: pass]. *)
Definition count_search_calls (raw_json : option string) : nat :=
  match loads_or_empty raw_json with
  | Raise _ => O
  | Ok doc =>
      match (messages ← Json.get_default "messages" (JList []) doc;
             Json.iter messages) with
      | Raise _ => O
      | Ok messages => fst (scan_messages messages O)
      end
  end.

(** evaluator.py:81 *)
Definition sentences_of (answer : string) : list string :=
  if Py.nonempty (Py.strip answer) then Py.split_sentences (Py.strip answer)
  else [].

(** evaluator.py:95-98 *)
Definition token_set (text : string) : gset string :=
  list_to_set (_tokenize text).

Definition token_overlap (prompt answer : string) : nat :=
  size (token_set prompt ∩ token_set answer).

Definition token_union (prompt answer : string) : nat :=
  size (token_set prompt ∪ token_set answer).

(** [RuleBasedEvaluator.evaluate], evaluator.py:28-142 *)
Definition evaluate (log_id : Z) (record : LLMLogRecord)
  : Result (list CheckResult) :=
  let prompt := Py.or_empty (user_prompt record) in
  let answer := Py.or_empty (assistant_answer record) in
  let instructions := Py.or_empty (instructions record) in
  let search_calls := count_search_calls (raw_json record) in
  (* instructions_follow *)
  let requires_references := Py.contains "references" (Py.lower instructions) in
  let has_references :=
    Py.contains "references" (Py.lower answer)
    || Py.contains "http://" answer || Py.contains "https://" answer in
  let c_follow :=
    {| log_id := log_id;
       check_name := instructions_follow;
       passed := if requires_references then Some has_references else None;
       score := None;
       details := Some
         [Lit (if requires_references && has_references
               then "Instructions mention references; answer contains references."
               else if requires_references
               then "Instructions mention references; answer missing references."
               else "No explicit reference requirement detected.")] |} in
  (* instructions_avoid *)
  let requires_search_bounds :=
    Py.contains "at most 6" (Py.lower instructions)
    && Py.contains "at least 3" (Py.lower instructions) in
  let c_avoid :=
    {| log_id := log_id;
       check_name := instructions_avoid;
       passed := if requires_search_bounds
                 then Some ((3 <=? search_calls)%nat && (search_calls <=? 6)%nat)
                 else None;
       score := None;
       details := Some
         (if requires_search_bounds
          then [Lit "search_calls="; FInt (Z.of_nat search_calls);
                Lit " within [3,6]"]
          else [Lit "No explicit search bounds requirement detected."]) |} in
  (* answer_clear *)
  let sentences := sentences_of answer in
  let words := _tokenize answer in
  avg_sent_len ←
    match sentences with
    | [] => Ok 0%Q
    | _ :: _ =>
        truediv (Z.of_nat (length words))
                (Z.of_nat (Nat.max 1 (length sentences)))
    end;
  let passed_clear :=
    (40 <=? length words)%nat && Qle_bool avg_sent_len 35 in
  let c_clear :=
    {| log_id := log_id;
       check_name := answer_clear;
       passed := if Py.nonempty answer then Some passed_clear else None;
       score := None;
       details := Some
         [Lit "words="; FInt (Z.of_nat (length words));
          Lit ", sentences="; FInt (Z.of_nat (length sentences));
          Lit ", avg_sentence_len="; FFixed 1 avg_sent_len] |} in
  (* answer_match *)
  let overlap := token_overlap prompt answer in
  jaccard ←
    truediv (Z.of_nat overlap)
            (Z.of_nat (Nat.max 1 (token_union prompt answer)));
  let c_match :=
    {| log_id := log_id;
       check_name := answer_match;
       passed := if Py.nonempty answer && Py.nonempty prompt
                 then Some (Qle_bool (8 # 100) jaccard) else None;
       score := Some jaccard;
       details := Some
         [Lit "token_overlap="; FInt (Z.of_nat overlap);
          Lit ", jaccard="; FFixed 3 jaccard] |} in
  (* answer_citations *)
  let has_link := Py.contains "http://" answer || Py.contains "https://" answer in
  let c_citations :=
    {| log_id := log_id;
       check_name := answer_citations;
       passed := if Py.nonempty answer
                 then Some (has_link || Py.contains "references" (Py.lower answer))
                 else None;
       score := None;
       details := Some
         [Lit (if Py.nonempty answer
               then "Contains URLs or a references section"
               else "No answer text")] |} in
  (* completeness *)
  let has_bullets := Py.search_bullet answer in
  let passed_complete := (120 <=? length words)%nat || has_bullets in
  let c_complete :=
    {| log_id := log_id;
       check_name := completeness;
       passed := if Py.nonempty answer then Some passed_complete else None;
       score := None;
       details := Some
         [Lit "len(words)="; FInt (Z.of_nat (length words));
          Lit ", bullets="; FBool has_bullets] |} in
  (* tool_call_search *)
  let c_search :=
    {| log_id := log_id;
       check_name := tool_call_search;
       passed := Some (0 <? search_calls)%nat;
       score := None;
       details := Some [Lit "search_calls="; FInt (Z.of_nat search_calls)] |} in
  Ok [c_follow; c_avoid; c_clear; c_match; c_citations; c_complete; c_search].

End WithJson.

End Evaluator.

(** ** Effects: a state that survives an exception

    A statement sent to the store or a rename on disk has happened even when
    a later step raises, so an effectful computation returns the state it
    reached together with its result or its exception. *)

Definition Eff (S A : Type) : Type := S -> Result A * S.

Definition eff_ret {S A} (a : A) : Eff S A := fun s => (Ok a, s).

Definition eff_bind {S A B} (m : Eff S A) (f : A -> Eff S B) : Eff S B :=
  fun s =>
    match m s with
    | (Ok a, s') => f a s'
    | (Raise e, s') => (Raise e, s')
    end.

Notation "x <~ m ; k" := (eff_bind m (fun x => k))
  (at level 20, m at level 100, k at level 200, only parsing).

(** A computation that cannot change the state. *)
Definition pure_step {S A} (r : Result A) : Eff S A := fun s => (r, s).

(** ** The file system

    One watched directory at a time: a path is a directory and a name in it
    ([Path.parent], [Path.name]).  Names are not bounded in length. *)

Record Path : Set := { parent : string; name : string }.

#[global] Instance Path_eq_dec : EqDecision Path.
Proof. solve_decision. Defined.

Inductive Entry : Set :=
  | RegularFile (content : string)
  | Directory.

Inductive Node : Type :=
  | Dir (entries : gmap string Entry)
  | NotDir.

Abbreviation FS := (gmap string Node).

Module Fs.

Definition lookup (fs : FS) (p : Path) : option Entry :=
  match fs !! parent p with
  | Some (Dir entries) => entries !! name p
  | _ => None
  end.

(** [p.exists()] *)
Definition exists_ (fs : FS) (p : Path) : bool :=
  match lookup fs p with Some _ => true | None => false end.

(** [p.is_file()] *)
Definition is_file (fs : FS) (p : Path) : bool :=
  match lookup fs p with Some (RegularFile _) => true | _ => false end.

(** [str(p)] *)
Definition path_str (p : Path) : string := parent p +:+ "/" +:+ name p.

(** [p.open("r").read()] *)
Definition read_text (fs : FS) (p : Path) : Result string :=
  match lookup fs p with
  | Some (RegularFile content) => Ok content
  | Some Directory => Raise IsADirectoryError
  | None => Raise FileNotFoundError
  end.

Fixpoint has_slash (s : string) : bool :=
  match s with
  | EmptyString => false
  | String c s' => Ascii.eqb c "/" || has_slash s'
  end.

(** [p.with_name(new)]: the path must have a name, the new name must be
    one path component (Python 3.12: not empty, no separator, not "."). *)
Definition with_name (p : Path) (new : string) : Result Path :=
  if Py.nonempty (name p) && Py.nonempty new && negb (has_slash new)
     && negb (String.eqb new ".")
  then Ok {| parent := parent p; name := new |}
  else Raise ValueError.

(** [os.rename(src, dst)] for two paths of one directory, POSIX: a missing
    source raises; a file takes the place of a file; a directory and a file
    do not replace each other. *)
Definition rename (src dst : Path) : Eff FS unit := fun fs =>
  match fs !! parent src with
  | Some (Dir entries) =>
      match entries !! name src, entries !! name dst with
      | None, _ => (Raise FileNotFoundError, fs)
      | Some e, None
      | Some (RegularFile _ as e), Some (RegularFile _)
      | Some (Directory as e), Some Directory =>
          (Ok (), <[parent src := Dir (<[name dst := e]> (delete (name src) entries))]> fs)
      | Some (RegularFile _), Some Directory => (Raise IsADirectoryError, fs)
      | Some Directory, Some (RegularFile _) => (Raise NotADirectoryError, fs)
      end
  | _ => (Raise FileNotFoundError, fs)
  end.

End Fs.

(** ** parser.py *)

Module Parser.

(** A loop whose body may return from the function: the first item for which
    the body returns a value ends the loop; an exception ends it too. *)
Fixpoint first_return {A B} (body : A -> Result (option B)) (items : list A)
  : Result (option B) :=
  match items with
  | [] => Ok None
  | x :: rest =>
      r ← body x;
      match r with
      | Some b => Ok (Some b)
      | None => first_return body rest
      end
  end.

(** [msg.get("parts") or []], ready for a [for] loop *)
Definition parts_of (msg : json) : Result (list json) :=
  parts ← Json.get "parts" msg;
  Json.iter (Json.or_else parts (JList [])).

(** [doc.get("messages") or []] *)
Definition messages_of (doc : json) : Result json :=
  messages ← Json.get "messages" doc;
  Ok (Json.or_else messages (JList [])).

(** [v[0]] *)
Definition item0 (v : json) : Result json :=
  match v with
  | JList (x :: _) => Ok x
  | JList [] => Raise IndexError
  | JStr (String c _) => Ok (JStr (String c EmptyString))
  | JStr EmptyString => Raise IndexError
  | JDict _ => Raise KeyError
  | _ => Raise TypeError
  end.

Section WithPython.

(** [json.loads] of the standard library. *)
Variable json_loads : string -> Result json.
(** [str(v)] for a decoded value that is not a string. *)
Variable py_repr : json -> string.

(** [str(v)] *)
Definition py_str (v : json) : string :=
  match v with JStr s => s | _ => py_repr v end.

(** [_get_first_user_prompt], parser.py:10-24 *)
Definition _get_first_user_prompt (messages : json) : Result (option string) :=
  msgs ← Json.iter messages;
  tagged ← first_return (fun msg =>
    parts ← parts_of msg;
    first_return (fun p =>
      kind ← Json.get "part_kind" p;
      match kind with
      | JStr "user-prompt" =>
          content ← Json.get "content" p;
          Ok (if Json.truthy content then Some (py_str content) else None)
      | _ => Ok None
      end) parts) msgs;
  match tagged with
  | Some s => Ok (Some s)
  | None =>
      first_return (fun msg =>
        parts ← parts_of msg;
        first_return (fun p =>
          content ← Json.get "content" p;
          Ok (Json.as_str content)) parts) msgs
  end.

(** [_get_instructions], parser.py:27-44 *)
Definition _get_instructions (doc : json) : Result (option string) :=
  messages ← messages_of doc;
  from_first ←
    (if Json.truthy messages then
       first ← item0 messages;
       instr ← Json.get "instructions" first;
       Ok (if Json.truthy instr then Some (py_str instr) else None)
     else Ok None);
  match from_first with
  | Some s => Ok (Some s)
  | None =>
      sys ← Json.get "system_prompt" doc;
      Ok (match sys with
          | JList l => Some (Py.join Py.newline (omap Json.as_str l))
          | JStr s => Some s
          | _ => None
          end)
  end.

(** [_get_model], parser.py:47-57 *)
Definition _get_model (doc : json) : Result (option string) :=
  model ← Json.get "model" doc;
  if Json.truthy model then Ok (Some (py_str model))
  else
    messages ← messages_of doc;
    msgs ← Json.reversed messages;
    first_return (fun msg =>
      name ← Json.get "model_name" msg;
      Ok (if Json.truthy name then Some (py_str name) else None)) msgs.

(** [_get_total_usage], parser.py:60-65 *)
Definition _get_total_usage (doc : json) : Result (json * json) :=
  usage ← Json.get "usage" doc;
  let usage := Json.or_else usage (JDict []) in
  input_tokens ← Json.get "input_tokens" usage;
  output_tokens ← Json.get "output_tokens" usage;
  Ok (input_tokens, output_tokens).

(** The chunks one entry of [sections] appends, parser.py:79-85 *)
Definition section_chunks (s : json) : list string :=
  match s with
  | JDict d =>
      let heading := default JNull (Json.dict_get "heading" d) in
      let content := default JNull (Json.dict_get "content" d) in
      match Json.as_str heading with Some h => [h] | None => [] end
      ++ match Json.as_str content with Some c => [c] | None => [] end
  | _ => []
  end.

(** The chunks collected from [out], parser.py:72-85 *)
Definition output_chunks (out : list (string * json)) : list string :=
  let title := default JNull (Json.dict_get "title" out) in
  let sections := default JNull (Json.dict_get "sections" out) in
  match Json.as_str title with Some t => [t] | None => [] end
  ++ match sections with
     | JList l => concat (map section_chunks l)
     | _ => []
     end.

(** The fallback of [_extract_answer], parser.py:88-96 *)
Definition last_message_content (doc : json) : Result (option string) :=
  messages ← messages_of doc;
  msgs ← Json.reversed messages;
  first_return (fun msg =>
    parts ← parts_of msg;
    first_return (fun p =>
      c ← Json.get "content" p;
      Ok (Json.as_str c)) parts) msgs.

(** [_extract_answer], parser.py:68-96 *)
Definition _extract_answer (doc : json) : Result (option string) :=
  out ← Json.get "output" doc;
  match out with
  | JDict d =>
      match output_chunks d with
      | [] => last_message_content doc
      | chunks => Ok (Some (Py.join Py.blank_line chunks))
      end
  | _ => last_message_content doc
  end.

(** [parse_log_file] from [json.loads] on, parser.py:103-126; [path] is
    [str(p)] and [raw] the text read from the file. *)
Definition parse_document (path : string) (raw : string) : Result LLMLogRecord :=
  doc ← json_loads raw;
  messages ← messages_of doc;
  user_prompt ← _get_first_user_prompt messages;
  instructions ← _get_instructions doc;
  model ← _get_model doc;
  provider1 ← Json.get "provider" doc;
  provider ← (if Json.truthy provider1 then Ok provider1
              else Json.get "provider_name" doc);
  agent_name ← Json.get "agent_name" doc;
  usage ← _get_total_usage doc;
  answer ← _extract_answer doc;
  Ok {| filepath := path;
        agent_name := if Json.is_null agent_name then None
                      else Some (py_str agent_name);
        provider := if Json.is_null provider then None
                    else Some (py_str provider);
        model := model;
        user_prompt := user_prompt;
        instructions := instructions;
        total_input_tokens := Json.as_int (fst usage);
        total_output_tokens := Json.as_int (snd usage);
        assistant_answer := answer;
        raw_json := Some raw;
        input_cost := None;
        output_cost := None;
        total_cost := None |}.

(** [parse_log_file], parser.py:99-126 *)
Definition parse_log_file (fs : FS) (p : Path) : Result LLMLogRecord :=
  raw ← Fs.read_text fs p;
  parse_document (Fs.path_str p) raw.

End WithPython.

End Parser.

(** ** sources.py *)

Record LocalDirectorySource : Set := {
  directory : string;
  pattern : string;
  processed_prefix : string
}.

Module Sources.

(** [sorted(base.iterdir())]: the entries of the directory, by name. *)
Definition sorted_names (entries : gmap string Entry) : list string :=
  merge_sort String.le (map fst (map_to_list entries)).

Section WithFnmatch.

(** [fnmatch.fnmatch(name, pattern)] of the standard library. *)
Variable fnmatch : string -> string -> bool.

(** The listing [iter_files] takes when it starts, sources.py:27-30: nothing
    for a missing directory. *)
Definition listing (src : LocalDirectorySource) (fs : FS) : Result (list Path) :=
  match fs !! directory src with
  | None => Ok []
  | Some NotDir => Raise NotADirectoryError
  | Some (Dir entries) =>
      Ok (map (fun n => {| parent := directory src; name := n |})
              (sorted_names entries))
  end.

(** The tests an entry passes to be yielded, sources.py:31-32, made when the
    generator reaches the entry. *)
Definition eligible (src : LocalDirectorySource) (fs : FS) (entry : Path) : bool :=
  Fs.is_file fs entry
  && negb (Py.startswith (processed_prefix src) (name entry))
  && fnmatch (name entry) (pattern src).

(** [list(source.iter_files())]: the generator run to its end with nothing
    done in between, sources.py:26-33. *)
Definition iter_files (src : LocalDirectorySource) (fs : FS) : Result (list Path) :=
  entries ← listing src fs;
  Ok (filter (fun entry => eligible src fs entry = true) entries).

End WithFnmatch.

(** The [while target.exists()] loop, sources.py:38-39.  [fuel] bounds the
    number of turns; [None] when it runs out, which it does not when the
    fuel is the number of entries of the directory ([free_target_total]
    below). *)
Fixpoint free_target (fuel : nat) (fs : FS) (target : Path) : option (Result Path) :=
  if Fs.exists_ fs target then
    match fuel with
    | O => None
    | S fuel' =>
        match Fs.with_name target ("_" +:+ name target) with
        | Ok target' => free_target fuel' fs target'
        | Raise e => Some (Raise e)
        end
    end
  else Some (Ok target).

(** The number of entries next to [p]: every turn of the loop finds one
    more of them, under a longer name, so more turns than that are never
    needed. *)
Definition siblings (fs : FS) (p : Path) : nat :=
  match fs !! parent p with
  | Some (Dir entries) => size entries
  | _ => O
  end.

(** [mark_processed], sources.py:35-41.  The branch for fuel that has run
    out is never taken. *)
Definition mark_processed (src : LocalDirectorySource) (path : Path) : Eff FS Path :=
  fun fs =>
  match Fs.with_name path (processed_prefix src +:+ name path) with
  | Raise e => (Raise e, fs)
  | Ok target =>
      match free_target (siblings fs path) fs target with
      | None => (Raise OperationalError, fs)
      | Some (Raise e) => (Raise e, fs)
      | Some (Ok target) =>
          match Fs.rename path target fs with
          | (Ok _, fs') => (Ok target, fs')
          | (Raise e, fs') => (Raise e, fs')
          end
      end
  end.

End Sources.

(** ** db.py

    The two tables the ingestion writes.  Both drivers run in autocommit mode
    (db.py:38 [isolation_level=None], db.py:52 and 58 [autocommit = True]):
    every statement that succeeds is persisted at once.  The column
    [created_at] is filled by the backend and is left out. *)

(** A value bound to a placeholder of a statement. *)
Inductive SqlValue : Set :=
  | SqlNull
  | SqlInt (z : Z)
  | SqlBool (b : bool)
  | SqlReal (q : Q)
  | SqlText (s : string)
  | SqlNumeric (d : Decimal)
  | SqlFormatted (pieces : list Piece).

Record Row : Set := { row_id : Z; row_values : list SqlValue }.

Record Database : Set := {
  is_postgres : bool;
  llm_logs : list Row;
  eval_checks : list Row;
  (** the last id each table gave out ([AUTOINCREMENT], [SERIAL]) *)
  llm_logs_seq : Z;
  eval_checks_seq : Z;
  (** What the backend will do with the statements to come, one entry per
      statement: [true] when it refuses the statement (connection lost, disk
      full); once the list is used up every statement is accepted. *)
  faults : list bool
}.

Module Db.

Definition with_faults (db : Database) (f : list bool) : Database :=
  {| is_postgres := is_postgres db; llm_logs := llm_logs db;
     eval_checks := eval_checks db; llm_logs_seq := llm_logs_seq db;
     eval_checks_seq := eval_checks_seq db; faults := f |}.

Definition add_log (db : Database) (r : Row) : Database :=
  {| is_postgres := is_postgres db; llm_logs := llm_logs db ++ [r];
     eval_checks := eval_checks db; llm_logs_seq := row_id r;
     eval_checks_seq := eval_checks_seq db; faults := faults db |}.

Definition add_check (db : Database) (r : Row) : Database :=
  {| is_postgres := is_postgres db; llm_logs := llm_logs db;
     eval_checks := eval_checks db ++ [r]; llm_logs_seq := llm_logs_seq db;
     eval_checks_seq := row_id r; faults := faults db |}.

(** A statement reaches the backend, which accepts or refuses it. *)
Definition reach : Eff Database unit := fun db =>
  match faults db with
  | [] => (Ok (), db)
  | false :: rest => (Ok (), with_faults db rest)
  | true :: rest => (Raise OperationalError, with_faults db rest)
  end.

(** [INSERT INTO llm_logs (...) VALUES (...)]; the result is [lastrowid]. *)
Definition execute_insert_log (params : list SqlValue) : Eff Database Z :=
  _ <~ reach;
  fun db =>
    let r := {| row_id := llm_logs_seq db + 1; row_values := params |} in
    (Ok (row_id r), add_log db r).

Definition has_log (db : Database) (id : Z) : bool :=
  existsb (fun r => row_id r =? id) (llm_logs db).

(** [INSERT INTO eval_checks (...) VALUES (...)]: [log_id], the first
    parameter, is [NOT NULL] and references [llm_logs(id)]. *)
Definition execute_insert_check (params : list SqlValue) : Eff Database unit :=
  _ <~ reach;
  fun db =>
    match params with
    | SqlInt id :: _ =>
        if has_log db id
        then (Ok (), add_check db {| row_id := eval_checks_seq db + 1;
                                     row_values := params |})
        else (Raise IntegrityError, db)
    | _ => (Raise IntegrityError, db)
    end.

Definition opt_text (o : option string) : SqlValue :=
  match o with Some s => SqlText s | None => SqlNull end.

Definition opt_int (o : option Z) : SqlValue :=
  match o with Some z => SqlInt z | None => SqlNull end.

Definition CheckName_value (n : CheckName) : string :=
  match n with
  | instructions_follow => "instructions_follow"
  | instructions_avoid => "instructions_avoid"
  | answer_clear => "answer_clear"
  | answer_match => "answer_match"
  | answer_citations => "answer_citations"
  | completeness => "completeness"
  | tool_call_search => "tool_call_search"
  end.

(** The parameters of one row of [eval_checks], db.py:416-427 *)
Definition check_params (postgres : bool) (c : CheckResult) : list SqlValue :=
  [ SqlInt (log_id c);
    SqlText (CheckName_value (check_name c));
    match passed c with
    | None => SqlNull
    | Some b => if postgres then SqlBool b else SqlInt (if b then 1 else 0)
    end;
    match score c with Some q => SqlReal q | None => SqlNull end;
    match details c with Some d => SqlFormatted d | None => SqlNull end ].

(** The [for c in checks] loop, db.py:414-428 *)
Fixpoint insert_check_rows (checks : list CheckResult) : Eff Database unit :=
  match checks with
  | [] => eff_ret ()
  | c :: rest =>
      _ <~ (fun db => execute_insert_check (check_params (is_postgres db) c) db);
      insert_check_rows rest
  end.

(** [Database.insert_checks], db.py:404-428 *)
Definition insert_checks (checks : list CheckResult) : Eff Database unit :=
  match checks with
  | [] => eff_ret ()
  | _ :: _ => insert_check_rows checks
  end.

Section WithDecimal.

(** [str(d)] for a [Decimal]. *)
Variable decimal_str : Decimal -> string.

(** [_adapt_decimal], db.py:238-244 *)
Definition _adapt_decimal (postgres : bool) (val : option Decimal) : SqlValue :=
  match val with
  | None => SqlNull
  | Some d => if postgres then SqlNumeric d else SqlText (decimal_str d)
  end.

(** The parameters of one row of [llm_logs], db.py:246-260 *)
Definition log_params (postgres : bool) (rec : LLMLogRecord) : list SqlValue :=
  [ SqlText (filepath rec);
    opt_text (agent_name rec);
    opt_text (provider rec);
    opt_text (model rec);
    opt_text (user_prompt rec);
    opt_text (instructions rec);
    opt_int (total_input_tokens rec);
    opt_int (total_output_tokens rec);
    opt_text (assistant_answer rec);
    opt_text (raw_json rec);
    _adapt_decimal postgres (input_cost rec);
    _adapt_decimal postgres (output_cost rec);
    _adapt_decimal postgres (total_cost rec) ].

(** [Database.insert_log], db.py:226-268; PostgreSQL asks for the new id in
    a second statement. *)
Definition insert_log (rec : LLMLogRecord) : Eff Database Z :=
  new_id <~ (fun db => execute_insert_log (log_params (is_postgres db) rec) db);
  fun db =>
    if is_postgres db
    then (_ <~ reach; fun db' => (Ok (llm_logs_seq db'), db')) db
    else (Ok new_id, db).

End WithDecimal.

End Db.

(** ** runner.py *)

(** Modelled from the spec: [config.py] is not among the sources; the record
    holds the settings [runner.py] reads from [get_settings()] (section 6,
    connection configuration: a connection string, the directory, the glob,
    the marker and the poll interval, and the debug switch). *)
Record Settings : Set := {
  database_url : string;
  logs_dir : string;
  file_glob : string;
  settings_processed_prefix : string;
  poll_seconds : Z;
  settings_debug : bool
}.

(** A line printed on the console. *)
Inductive Event : Set :=
  | DebugFile (path : Path) (rec : LLMLogRecord)
  | DebugChecks (log_id : Z) (total pass fail unknown : nat)
  | DebugRenamed
  | Failed (path : Path) (e : Exn)
  | Processed (count : nat).

Record World : Type := {
  fs : FS;
  db : Database;
  console : list Event
}.

Module Runner.

Definition on_fs {A} (m : Eff FS A) : Eff World A := fun w =>
  let (r, fs') := m (fs w) in
  (r, {| fs := fs'; db := db w; console := console w |}).

Definition on_db {A} (m : Eff Database A) : Eff World A := fun w =>
  let (r, db') := m (db w) in
  (r, {| fs := fs w; db := db'; console := console w |}).

Definition print (e : Event) : Eff World unit := fun w =>
  (Ok (), {| fs := fs w; db := db w; console := console w ++ [e] |}).

Definition print_if (debug : bool) (e : Event) : Eff World unit :=
  if debug then print e else eff_ret ().

Definition with_costs (rec : LLMLogRecord) (prices : Decimal * Decimal * Decimal)
  : LLMLogRecord :=
  let '(i, o, t) := prices in
  {| filepath := filepath rec; agent_name := agent_name rec;
     provider := provider rec; model := model rec;
     user_prompt := user_prompt rec; instructions := instructions rec;
     total_input_tokens := total_input_tokens rec;
     total_output_tokens := total_output_tokens rec;
     assistant_answer := assistant_answer rec; raw_json := raw_json rec;
     input_cost := Some i; output_cost := Some o; total_cost := Some t |}.

Definition count_passed (v : option bool) (checks : list CheckResult) : nat :=
  length (filter (fun c => passed c = v) checks).

Section WithPython.

Variable json_loads : string -> Result json.
Variable py_repr : json -> string.
Variable fnmatch : string -> string -> bool.
Variable decimal_str : Decimal -> string.
(** [calc_price] of the package [genai_prices] on the token counts, the
    provider and the model; [None] when the package cannot be imported. *)
Variable genai_prices :
  option (Z -> Z -> option string -> option string
          -> Result (Decimal * Decimal * Decimal)).

(** [_calc_prices], runner.py:16-38 *)
Definition _calc_prices (provider model : option string)
    (input_tokens output_tokens : option Z)
  : option (Decimal * Decimal * Decimal) :=
  match genai_prices with
  | None => None
  | Some calc_price =>
      let it := default 0 input_tokens in
      let ot := default 0 output_tokens in
      match calc_price it ot provider model with
      | Ok prices => Some prices
      | Raise _ => None
      end
  end.

(** The [try] block of [process_file], runner.py:42-72 *)
Definition process_steps (source : LocalDirectorySource) (path : Path)
    (debug : bool) : Eff World Z :=
  rec <~ (fun w => (Parser.parse_log_file json_loads py_repr (fs w) path, w));
  let prices := _calc_prices (provider rec) (model rec)
                  (total_input_tokens rec) (total_output_tokens rec) in
  let rec := match prices with
             | Some p => with_costs rec p
             | None => rec
             end in
  _ <~ print_if debug (DebugFile path rec);
  log_id <~ on_db (Db.insert_log decimal_str rec);
  checks <~ pure_step (Evaluator.evaluate json_loads log_id rec);
  _ <~ on_db (Db.insert_checks checks);
  _ <~ print_if debug
         (DebugChecks log_id (length checks) (count_passed (Some true) checks)
            (count_passed (Some false) checks) (count_passed None checks));
  _ <~ on_fs (Sources.mark_processed source path);
  _ <~ print_if debug DebugRenamed;
  eff_ret log_id.

(** [process_file], runner.py:41-76: any exception is printed and turned
    into [None]. *)
Definition process_file (source : LocalDirectorySource) (path : Path)
    (debug : bool) (w : World) : option Z * World :=
  match process_steps source path debug w with
  | (Ok log_id, w') => (Some log_id, w')
  | (Raise e, w') => (None, snd (print (Failed path e) w'))
  end.

(** The [for path in source.iter_files()] loop of [run_once],
    runner.py:90-92.  [entries] is the listing the generator took when it
    started; an entry is tested when the loop reaches it. *)
Fixpoint drain_loop (source : LocalDirectorySource) (debug : bool)
    (entries : list Path) (count : nat) (w : World) : nat * World :=
  match entries with
  | [] => (count, w)
  | entry :: rest =>
      if Sources.eligible fnmatch source (fs w) entry then
        match process_file source entry debug w with
        | (Some _, w') => drain_loop source debug rest (S count) w'
        | (None, w') => drain_loop source debug rest count w'
        end
      else drain_loop source debug rest count w
  end.

Definition source_of (settings : Settings) : LocalDirectorySource :=
  {| directory := logs_dir settings;
     pattern := file_glob settings;
     processed_prefix := settings_processed_prefix settings |}.

(** One drain: [run_once] from the creation of the source on,
    runner.py:86-93, on a store whose schema exists.  The result is the
    number of files processed. *)
Definition drain (settings : Settings) (debug : bool) : Eff World nat :=
  fun w =>
  let source := source_of settings in
  match Sources.listing source (fs w) with
  | Raise e => (Raise e, w)
  | Ok entries =>
      let (count, w') :=
        drain_loop source (debug || settings_debug settings) entries O w in
      (Ok count, snd (print (Processed count) w'))
  end.

End WithPython.

End Runner.

(** ** db.py: the read helpers

    A query is one more statement the backend accepts or refuses; it reads
    the rows the inserts have left.  As before the column [created_at] is
    left out, and a row holds the values bound at its insert, in the order
    of the columns of the [INSERT]. *)

(** One item of the list [get_checks] returns: the keys [check_name],
    [passed], [score] and [details]. *)
Record CheckView : Set := {
  view_check_name : SqlValue;
  view_passed : SqlValue;
  view_score : SqlValue;
  view_details : SqlValue
}.

(** One item of the list [list_logs] returns, and what [get_log] returns:
    the [id] and the selected columns, in the order of the [SELECT]. *)
Record LogView : Set := {
  view_id : Z;
  view_columns : list SqlValue
}.

Module DbRead.

(** The value of the [i]-th column of the [INSERT] in a row. *)
Definition column (i : nat) (r : Row) : SqlValue := nth i (row_values r) SqlNull.

(** [column = ?] for an integer and for a text parameter; a null never
    equals anything. *)
Definition int_is (z : Z) (v : SqlValue) : bool :=
  match v with SqlInt x => x =? z | _ => false end.

Definition text_is (s : string) (v : SqlValue) : bool :=
  match v with SqlText x => String.eqb x s | _ => false end.

(** The order of the ids, upwards and downwards. *)
Definition id_le (a b : Row) : Prop := row_id a <= row_id b.

Definition id_ge (a b : Row) : Prop := row_id b <= row_id a.

#[global] Instance id_le_dec : RelDecision id_le.
Proof. intros a b. unfold id_le. apply _. Defined.

#[global] Instance id_ge_dec : RelDecision id_ge.
Proof. intros a b. unfold id_ge. apply _. Defined.

(** [ORDER BY id ASC] and [ORDER BY id DESC] *)
Definition order_by_id_asc (rows : list Row) : list Row := merge_sort id_le rows.

Definition order_by_id_desc (rows : list Row) : list Row := merge_sort id_ge rows.

(** db.py:373-374: [bool(v)] when [v] is an instance of [int], which a
    [bool] is too. *)
Definition normalize_flag (v : SqlValue) : SqlValue :=
  match v with
  | SqlInt z => SqlBool (negb (z =? 0))
  | _ => v
  end.

Definition check_view (r : Row) : CheckView :=
  {| view_check_name := column 1 r;
     view_passed := normalize_flag (column 2 r);
     view_score := column 3 r;
     view_details := column 4 r |}.

(** The rows [SELECT ... FROM eval_checks WHERE log_id = ? ORDER BY id ASC]
    gives. *)
Definition select_checks (log_id : Z) (db : Database) : list Row :=
  order_by_id_asc (List.filter (fun r => int_is log_id (column 0 r)) (eval_checks db)).

(** [Database.get_checks], db.py:350-376 *)
Definition get_checks (log_id : Z) : Eff Database (list CheckView) :=
  _ <~ Db.reach;
  fun db => (Ok (map check_view (select_checks log_id db)), db).

Section WithAffinity.

(** What a [NUMERIC] column gives back for the value bound at the insert:
    the decimal itself in PostgreSQL, the number SQLite makes of the text. *)
Variable numeric_affinity : SqlValue -> SqlValue.

(** The columns [list_logs] selects, db.py:284. *)
Definition summary_view (r : Row) : LogView :=
  {| view_id := row_id r;
     view_columns :=
       [ column 0 r; column 1 r; column 2 r; column 3 r; column 4 r;
         column 6 r; column 7 r; numeric_affinity (column 12 r) ] |}.

(** The columns [get_log] selects, db.py:317. *)
Definition detail_view (r : Row) : LogView :=
  {| view_id := row_id r;
     view_columns :=
       [ column 0 r; column 1 r; column 2 r; column 3 r; column 4 r;
         column 5 r; column 6 r; column 7 r; column 8 r;
         numeric_affinity (column 10 r); numeric_affinity (column 11 r);
         numeric_affinity (column 12 r) ] |}.

(** The [WHERE] clause of [list_logs], db.py:272-280: a filter that is
    [None] or empty is no filter. *)
Definition where_logs (provider model : option string) (r : Row) : bool :=
  (match provider with
   | None | Some EmptyString => true
   | Some p => text_is p (column 2 r)
   end)
  && (match model with
      | None | Some EmptyString => true
      | Some m => text_is m (column 3 r)
      end).

(** The rows [SELECT ... FROM llm_logs WHERE ... ORDER BY id DESC
    LIMIT ? OFFSET ?] gives, for a limit and an offset that are not
    negative. *)
Definition select_logs (limit offset : nat) (provider model : option string)
    (db : Database) : list Row :=
  take limit (drop offset
    (order_by_id_desc (List.filter (where_logs provider model) (llm_logs db)))).

(** [Database.list_logs], db.py:271-313 *)
Definition list_logs (limit offset : nat) (provider model : option string)
  : Eff Database (list LogView) :=
  _ <~ Db.reach;
  fun db => (Ok (map summary_view (select_logs limit offset provider model db)), db).

(** [Database.get_log], db.py:315-348: [fetchone] gives the first row with
    the id, or [None]. *)
Definition get_log (log_id : Z) : Eff Database (option LogView) :=
  _ <~ Db.reach;
  fun db =>
    (Ok (option_map detail_view
           (List.find (fun r => row_id r =? log_id) (llm_logs db))), db).

End WithAffinity.

End DbRead.

(** ** schemas.py: [Feedback], and the table [feedback] of db.py *)

Record Feedback : Set := {
  feedback_log_id : Z;
  is_good : bool;
  comments : option string;
  reference_answer : option string
}.

(** The store with its third table: the two tables of the ingestion, the
    rows of [feedback] and the last id this table gave out. *)
Record Store : Set := {
  tables : Database;
  feedback : list Row;
  feedback_seq : Z
}.

(** One item of the list [get_feedback] returns: the keys [is_good],
    [comments] and [reference_answer]. *)
Record FeedbackView : Set := {
  view_is_good : SqlValue;
  view_comments : SqlValue;
  view_reference_answer : SqlValue
}.

Module DbFeedback.

(** A statement on the connection of the store. *)
Definition on_tables {A} (m : Eff Database A) : Eff Store A := fun s =>
  let (r, d) := m (tables s) in
  (r, {| tables := d; feedback := feedback s; feedback_seq := feedback_seq s |}).

Definition add_feedback (s : Store) (r : Row) : Store :=
  {| tables := tables s; feedback := feedback s ++ [r]; feedback_seq := row_id r |}.

(** The parameters of one row of [feedback], db.py:437-447 *)
Definition feedback_params (postgres : bool) (fb : Feedback) : list SqlValue :=
  [ SqlInt (feedback_log_id fb);
    if postgres then SqlBool (is_good fb)
    else SqlInt (if is_good fb then 1 else 0);
    Db.opt_text (comments fb);
    Db.opt_text (reference_answer fb) ].

(** [INSERT INTO feedback (...) VALUES (...)]: [log_id], the first
    parameter, is [NOT NULL] and references [llm_logs(id)]; the result is
    [lastrowid]. *)
Definition execute_insert_feedback (params : list SqlValue) : Eff Store Z :=
  _ <~ on_tables Db.reach;
  fun s =>
    match params with
    | SqlInt id :: _ =>
        if Db.has_log (tables s) id
        then let r := {| row_id := feedback_seq s + 1; row_values := params |} in
             (Ok (row_id r), add_feedback s r)
        else (Raise IntegrityError, s)
    | _ => (Raise IntegrityError, s)
    end.

(** [Database.insert_feedback], db.py:430-454; PostgreSQL asks for the new
    id in a second statement. *)
Definition insert_feedback (fb : Feedback) : Eff Store Z :=
  new_id <~ (fun s =>
               execute_insert_feedback
                 (feedback_params (is_postgres (tables s)) fb) s);
  fun s =>
    if is_postgres (tables s)
    then (_ <~ on_tables Db.reach; fun s' => (Ok (feedback_seq s'), s')) s
    else (Ok new_id, s).

(** [save_feedback], feedback.py:7-12 *)
Definition save_feedback (log_id : Z) (good : bool)
    (comments reference_answer : option string) : Eff Store Z :=
  insert_feedback {| feedback_log_id := log_id; is_good := good;
                     comments := comments;
                     reference_answer := reference_answer |}.

(** db.py:399-400: [bool(v)] when [is_good] is an instance of [int]. *)
Definition feedback_view (r : Row) : FeedbackView :=
  {| view_is_good := DbRead.normalize_flag (DbRead.column 1 r);
     view_comments := DbRead.column 2 r;
     view_reference_answer := DbRead.column 3 r |}.

(** The rows [SELECT ... FROM feedback WHERE log_id = ? ORDER BY id DESC]
    gives. *)
Definition select_feedback (log_id : Z) (s : Store) : list Row :=
  DbRead.order_by_id_desc
    (List.filter (fun r => DbRead.int_is log_id (DbRead.column 0 r)) (feedback s)).

(** [Database.get_feedback], db.py:378-402 *)
Definition get_feedback (log_id : Z) : Eff Store (list FeedbackView) :=
  _ <~ on_tables Db.reach;
  fun s => (Ok (map feedback_view (select_feedback log_id s)), s).

End DbFeedback.

(** ** db.py: the connection string *)

Module DbConnect.

(** The value of [_driver] after [connect], with the file SQLite opens. *)
Inductive Driver : Set :=
  | Sqlite (db_path : string)
  | Postgres.

(** [s.split(sep)[-1]] for a separator that is not empty: the scan goes
    from the left and steps over an occurrence it has found; [piece] is what
    follows the last occurrence found so far, the whole string at first. *)
Fixpoint last_piece_from (sep s : string) (skip : nat) (piece : string) : string :=
  match s with
  | EmptyString => piece
  | String _ s' =>
      match skip with
      | S k => last_piece_from sep s' k piece
      | O =>
          if Py.startswith sep s
          then last_piece_from sep s' (String.length sep - 1)
                 (Py.drop (String.length sep) s)
          else last_piece_from sep s' O piece
      end
  end.

Definition last_piece (sep s : string) : string := last_piece_from sep s O s.

(** [Database.__init__], db.py:21-25: the argument, else the variable
    [DATABASE_URL] of the environment, else the file [monitoring.db]. *)
Definition resolve_url (database_url env : option string) : string :=
  let chosen := match database_url with
                | Some (String _ _ as url) => Some url
                | _ => env
                end in
  match chosen with
  | Some (String _ _ as url) => url
  | _ => "sqlite:///monitoring.db"
  end.

(** The choice [connect] makes before it calls the driver, db.py:34-64. *)
Definition choose_driver (url : string) : Result Driver :=
  if Py.startswith "sqlite://" url
  then Ok (Sqlite (last_piece "sqlite:///" url))
  else if Py.startswith "postgres://" url || Py.startswith "postgresql://" url
  then Ok Postgres
  else Raise ValueError.

End DbConnect.

(** * The vocabulary of the properties

    Definitions the statements below are written with: what the code
    computes at one place, what the spec calls a thing, and the shape of a
    well-formed document. *)

Import Evaluator Parser Sources Db Runner.

(** The mean sentence length the code computes, evaluator.py:83. *)
Definition avg_sent_len (answer : string) : Q :=
  match sentences_of answer with
  | [] => 0
  | _ :: _ =>
      Z.of_nat (length (_tokenize answer))
      # Z.to_pos (Z.of_nat (Nat.max 1 (length (sentences_of answer))))
  end.

(** The score the code computes, evaluator.py:98. *)
Definition jaccard (prompt answer : string) : Q :=
  Z.of_nat (token_overlap prompt answer)
  # Z.to_pos (Z.of_nat (Nat.max 1 (token_union prompt answer))).

(** Nothing but whitespace. *)
Fixpoint all_space (s : string) : bool :=
  match s with
  | EmptyString => true
  | String c s' => Py.isspace c && all_space s'
  end.

(** The number of tokens of the answer. *)
Definition token_count (answer : string) : nat := length (_tokenize answer).

(** The number of sentences of the answer. *)
Definition sentence_count (answer : string) : nat := length (sentences_of answer).

(** Tokens divided by number of sentences. *)
Definition mean_sentence_length (answer : string) : Q :=
  (inject_Z (Z.of_nat (token_count answer))
   / inject_Z (Z.of_nat (sentence_count answer)))%Q.

(** The Jaccard similarity of two finite sets: the size of the intersection
    over the size of the union, and 0 for two empty sets. *)
Definition jaccard_similarity (A B : gset string) : Q :=
  match size (A ∪ B) with
  | O => 0
  | S _ => (inject_Z (Z.of_nat (size (A ∩ B)))
            / inject_Z (Z.of_nat (size (A ∪ B))))%Q
  end.

(** [s] is an object whose [heading] and [content] are the two strings of
    [hc]. *)
Definition section_of (s : json) (hc : string * string) : Prop :=
  exists sd, s = JDict sd
    /\ Json.dict_get "heading" sd = Some (JStr (fst hc))
    /\ Json.dict_get "content" sd = Some (JStr (snd hc)).

(** The title, then heading and content of every section, in order. *)
Definition title_and_sections (title : string) (hcs : list (string * string))
  : list string :=
  title :: flat_map (fun hc => [fst hc; snd hc]) hcs.

(** The items of a JSON object. *)
Abbreviation dict := (list (string * json)).

(** The document has no usable top-level [output]: none, not an object, or
    an object that gives no chunk. *)
Definition no_usable_output (d : dict) : Prop :=
  match Json.dict_get "output" d with
  | Some (JDict out) => output_chunks out = []
  | _ => True
  end.

(** [msg] is an object whose [parts] are the objects [ps]; a missing, null
    or empty [parts] is no part. *)
Definition message_with_parts (msg : json) (ps : list dict) : Prop :=
  exists md, msg = JDict md
    /\ (Json.dict_get "parts" md = Some (JList (map JDict ps))
        \/ ps = []
           /\ Json.truthy (default JNull (Json.dict_get "parts" md)) = false).

(** [messages] of the document are [msgs]; a missing, null or empty
    [messages] is no message. *)
Definition messages_are (d : dict) (msgs : list json) : Prop :=
  Json.dict_get "messages" d = Some (JList msgs)
  \/ msgs = []
     /\ Json.truthy (default JNull (Json.dict_get "messages" d)) = false.

(** The string-valued contents of the parts of one message, in order. *)
Definition string_contents (ps : list dict) : list string :=
  omap (fun p => Json.dict_get "content" p ≫= Json.as_str) ps.

(** What the code returns: the first string content of the last message
    that has one. *)
Definition first_content_of_last_message (messages : list (list dict))
  : option string :=
  head (omap (fun ps => head (string_contents ps)) (rev messages)).

(** What the spec says: the last string content of the last message that
    has one. *)
Definition last_content_of_last_message (messages : list (list dict))
  : option string :=
  head (omap (fun ps => last (string_contents ps)) (rev messages)).

(** [k] underscores before a name. *)
Fixpoint underscored (k : nat) (n : string) : string :=
  match k with
  | O => n
  | S k' => underscored k' (String "_" n)
  end.

(** The target after [k] turns of the loop of [mark_processed]. *)
Definition retry (k : nat) (target : Path) : Path :=
  {| parent := parent target; name := underscored k (name target) |}.

(** A name that is one path component. *)
Definition valid_component (n : string) : bool :=
  Py.nonempty n && negb (Fs.has_slash n) && negb (String.eqb n ".").

(** The names of the directory of [p]. *)
Definition names_beside (fs : FS) (p : Path) : list string :=
  match fs !! parent p with
  | Some (Dir entries) => map fst (map_to_list entries)
  | _ => []
  end.

(** The names of the list at least as long as [n]. *)
Definition not_shorter (n : nat) (names : list string) : list string :=
  List.filter (fun m => (n <=? String.length m)%nat) names.

(** The [k]-th name [mark_processed] tries: the marker before the name, and
    [k] underscores before the marker. *)
Definition candidate (src : LocalDirectorySource) (path : Path) (k : nat) : Path :=
  retry k {| parent := parent path; name := processed_prefix src +:+ name path |}.

(** The name the spec describes: the marker, [k] times, before the name. *)
Fixpoint marker_repeated (marker : string) (k : nat) (n : string) : string :=
  match k with
  | O => n
  | S k' => marker +:+ marker_repeated marker k' n
  end.

(** The rows [eval_checks] gets for the checks [cs], from the id after
    [seq] on. *)
Fixpoint check_rows (postgres : bool) (seq : Z) (cs : list CheckResult) : list Row :=
  match cs with
  | [] => []
  | c :: rest =>
      {| row_id := seq + 1; row_values := check_params postgres c |}
        :: check_rows postgres (seq + 1) rest
  end.

(** The record [process_file] stores for the parsed record [rec]: with the
    prices when there are prices, runner.py:45-47. *)
Definition priced
    (genai_prices : option (Z -> Z -> option string -> option string
                            -> Result (Decimal * Decimal * Decimal)))
    (rec : LLMLogRecord) : LLMLogRecord :=
  match _calc_prices genai_prices (provider rec) (model rec)
          (total_input_tokens rec) (total_output_tokens rec) with
  | Some p => with_costs rec p
  | None => rec
  end.

(** The console after a line that is printed in debug mode only. *)
Definition said (debug : bool) (e : Event) (out : list Event) : list Event :=
  if debug then out ++ [e] else out.

(** IEEE binary64, to run the two float comparisons of the evaluator as the
    interpreter does: the float of an integer, the correctly rounded
    quotient, and [<=]. *)
Definition binary64_of_Z (z : Z) : spec_float := binary_normalize 53 1024 z 0 false.

Definition binary64_div (x y : spec_float) : spec_float := SFdiv 53 1024 x y.

(** [words / sentences <= 35] in binary64 *)
Definition float_avg_le_35 (words sentences : nat) : bool :=
  SFleb (binary64_div (binary64_of_Z (Z.of_nat words))
                      (binary64_of_Z (Z.of_nat sentences)))
        (binary64_of_Z 35).

(** [overlap / union >= 0.08] in binary64; the literal [0.08] is the double
    nearest to 8/100. *)
Definition float_jaccard_ge_008 (overlap union : nat) : bool :=
  SFleb (binary64_div (binary64_of_Z 8) (binary64_of_Z 100))
        (binary64_div (binary64_of_Z (Z.of_nat overlap))
                      (binary64_of_Z (Z.of_nat union))).

(** * Sample documents, files and stores *)

(** Records and answers to run the checks on. *)
Definition record_with (prompt answer : option string) : LLMLogRecord :=
  {| filepath := "logs/run.json"; agent_name := None; provider := None;
     model := None; user_prompt := prompt; instructions := None;
     total_input_tokens := None; total_output_tokens := None;
     assistant_answer := answer; raw_json := None;
     input_cost := None; output_cost := None; total_cost := None |}.

(** [n] one-letter words. *)
Fixpoint words (n : nat) : string :=
  match n with
  | O => ""
  | S k => "w " +:+ words k
  end.

(** A decoder that rejects every text. *)
Definition no_decoder : string -> Result json := fun _ => Raise JSONDecodeError.

(** A trace with a search in the first message, a second message that is
    not an object, and a search in the third. *)
Definition broken_trace : json :=
  JDict [("messages", JList
    [ JDict [("parts", JList [JDict [("tool_name", JStr "search")];
                              JDict [("tool_name", JStr "get_page")]])];
      JInt 5;
      JDict [("parts", JList [JDict [("tool_name", JStr "search")]])] ])].

(** The prompt and the answer of the scenario in section 8 of the spec. *)
Definition capybara_prompt : string := "capybara habitat".
Definition capybara_answer : string := "capybaras live in habitat near rivers".

(** A document with a structured output. *)
Definition report_section (heading content : string) : json :=
  JDict [("heading", JStr heading); ("content", JStr content)].

Definition report_doc : list (string * json) :=
  [("model", JStr "gpt-4o-mini");
   ("output", JDict
      [("title", JStr "Capybara");
       ("sections", JList [report_section "Habitat" "Near rivers.";
                           report_section "Diet" "Grass."])])].

(** A message part that has a [content]. *)
Definition part_with_content (v : json) : dict := [("content", v)].

(** One message with two text parts. *)
Definition two_part_messages : list (list dict) :=
  [[part_with_content (JStr "draft"); part_with_content (JStr "final")]].

(** The document with that one message. *)
Definition two_part_doc : dict :=
  [("messages", JList [JDict [("parts", JList (map JDict
      [part_with_content (JStr "draft"); part_with_content (JStr "final")]))]])].

(** A trace of four messages: a prompt, a response with a number and two
    texts, a tool call, and a message without parts. *)
Definition trace_messages : list (list dict) :=
  [ [part_with_content (JStr "hello")];
    [part_with_content (JInt 5); part_with_content (JStr "first");
     part_with_content (JStr "second")];
    [[("tool_name", JStr "search")]];
    [] ].

(** The same four messages as JSON values, and the document. *)
Definition trace_msgs : list json :=
  [ JDict [("parts", JList [JDict (part_with_content (JStr "hello"))])];
    JDict [("parts", JList [JDict (part_with_content (JInt 5));
                            JDict (part_with_content (JStr "first"));
                            JDict (part_with_content (JStr "second"))])];
    JDict [("parts", JList [JDict [("tool_name", JStr "search")]])];
    JDict [("kind", JStr "response")] ].

Definition trace_doc : dict :=
  [("output", JStr "n/a"); ("messages", JList trace_msgs)].

(** A usage object whose [input_tokens] is the JSON value [true]. *)
Definition flagged_usage_doc : dict :=
  [("usage", JDict [("input_tokens", JBool true); ("output_tokens", JInt 200)])].

(** A source with the marker "done-", and one with the default marker. *)
Definition done_source : LocalDirectorySource :=
  {| directory := "logs"; pattern := "*.json"; processed_prefix := "done-" |}.

(** The file [logs/run.json]. *)
Definition run_path : Path := {| parent := "logs"; name := "run.json" |}.

(** A directory where an earlier run has left [done-run.json]. *)
Definition done_fs : FS :=
  {[ "logs" := Dir (<["run.json" := RegularFile "{}"]>
                     {[ "done-run.json" := RegularFile "old" ]}) ]}.

Definition underscore_source : LocalDirectorySource :=
  {| directory := "logs"; pattern := "*.json"; processed_prefix := "_" |}.

(** A directory where an earlier run has left [_run.json]. *)
Definition marked_fs : FS :=
  {[ "logs" := Dir (<["run.json" := RegularFile "{}"]>
                     {[ "_run.json" := RegularFile "old" ]}) ]}.

(** The default settings, an empty SQLite store. *)
Definition demo_settings : Settings :=
  {| database_url := "sqlite:///monitoring.db"; logs_dir := "logs";
     file_glob := "*.json"; settings_processed_prefix := "_";
     poll_seconds := 2; settings_debug := false |}.

Definition empty_db : Database :=
  {| is_postgres := false; llm_logs := []; eval_checks := [];
     llm_logs_seq := 0; eval_checks_seq := 0; faults := [] |}.

(** A world without the directory [logs]. *)
Definition bare_world : World :=
  {| fs := {[ "tmp" := Dir ∅ ]}; db := empty_db; console := [] |}.

(** A passing check for the log row [id]. *)
Definition check_for (id : Z) (n : CheckName) : CheckResult :=
  {| log_id := id; check_name := n; passed := Some true; score := None;
     details := None |}.

(** A store with the log row 1 and no check. *)
Definition one_log_db : Database :=
  {| is_postgres := false;
     llm_logs := [{| row_id := 1; row_values := [SqlText "logs/run.json"] |}];
     eval_checks := []; llm_logs_seq := 1; eval_checks_seq := 0; faults := [] |}.

(** A decoder that knows one document. *)
Definition report_loads : string -> Result json :=
  fun _ => Ok (JDict report_doc).

(** One pending file, and a store that accepts the first statement and
    refuses the second. *)
Definition flaky_world : World :=
  {| fs := {[ "logs" := Dir {[ "run.json" := RegularFile "{}" ]} ]};
     db := {| is_postgres := false; llm_logs := []; eval_checks := [];
              llm_logs_seq := 0; eval_checks_seq := 0;
              faults := [false; true] |};
     console := [] |}.

(** The row of [llm_logs] for the report document read from
    [logs/run.json], under the id [i]. *)
Definition report_row (i : Z) : Row :=
  {| row_id := i;
     row_values :=
       [ SqlText "logs/run.json"; SqlNull; SqlNull; SqlText "gpt-4o-mini";
         SqlNull; SqlNull; SqlNull; SqlNull;
         SqlText (Py.join Py.blank_line
                    ["Capybara"; "Habitat"; "Near rivers."; "Diet"; "Grass."]);
         SqlText "{}"; SqlNull; SqlNull; SqlNull ] |}.


(** * More vocabulary: the other checks, the parser's fallbacks, the listing *)

(** The tool-name field of a part is "search". *)
Definition is_search (p : dict) : bool :=
  match Json.dict_get "tool_name" p with
  | Some (JStr s) => String.eqb s "search"
  | _ => false
  end.

(** The number of search-tool parts in the messages of a trace. *)
Definition searches (messages : list (list dict)) : nat :=
  length (List.filter is_search (concat messages)).

(** The answer shows references: the word, in any case, or a link. *)
Definition has_references (answer : string) : bool :=
  Py.contains "references" (Py.lower answer)
  || Py.contains "http://" answer || Py.contains "https://" answer.

(** The instructions ask for between 3 and 6 searches. *)
Definition requires_search_bounds (instructions : string) : bool :=
  Py.contains "at most 6" (Py.lower instructions)
  && Py.contains "at least 3" (Py.lower instructions).

(** A lower-case letter, a digit or an underscore. *)
Definition is_lower_word (c : ascii) : bool :=
  let n := N_of_ascii c in
  ((97 <=? n) && (n <=? 122) || (48 <=? n) && (n <=? 57) || (n =? 95))%N.

Fixpoint all_chars (p : ascii -> bool) (s : string) : bool :=
  match s with
  | EmptyString => true
  | String c s' => p c && all_chars p s'
  end.

(** [str(v)] when [v] is truthy. *)
Definition truthy_str (py_repr : json -> string) (v : json) : option string :=
  if Json.truthy v then Some (py_str py_repr v) else None.

(** The value of a key of an object, null when it is missing. *)
Definition field (key : string) (d : dict) : json :=
  default JNull (Json.dict_get key d).

(** The same for a JSON value, null when it is not an object. *)
Definition field_of (key : string) (v : json) : json :=
  match v with JDict d => field key d | _ => JNull end.

(** The prompt a part tagged as user prompt gives. *)
Definition tagged_prompt (py_repr : json -> string) (p : dict) : option string :=
  match field "part_kind" p with
  | JStr "user-prompt" => truthy_str py_repr (field "content" p)
  | _ => None
  end.

(** The user prompt of a trace: the content of the first part tagged as
    user prompt that has one, else the first string content of any part. *)
Definition prompt_of (py_repr : json -> string) (messages : list (list dict))
  : option string :=
  match head (omap (tagged_prompt py_repr) (concat messages)) with
  | Some s => Some s
  | None => head (string_contents (concat messages))
  end.

(** The model of a trace: the top-level [model], else the [model_name] of
    the newest message that has one. *)
Definition model_of (py_repr : json -> string) (d : dict) (msgs : list json)
  : option string :=
  match truthy_str py_repr (field "model" d) with
  | Some s => Some s
  | None =>
      head (omap (fun msg => truthy_str py_repr (field_of "model_name" msg))
                 (rev msgs))
  end.

(** The instructions of a trace: those of the first message, else the
    strings of a [system_prompt] list joined by newlines, else a
    [system_prompt] string. *)
Definition instructions_of (py_repr : json -> string) (d : dict) (msgs : list json)
  : option string :=
  match match msgs with
        | first :: _ => truthy_str py_repr (field_of "instructions" first)
        | [] => None
        end with
  | Some s => Some s
  | None =>
      match field "system_prompt" d with
      | JList l => Some (Py.join Py.newline (omap Json.as_str l))
      | JStr s => Some s
      | _ => None
      end
  end.

(** The provider of a trace: [provider], else [provider_name]. *)
Definition provider_of (py_repr : json -> string) (d : dict) : option string :=
  let p := Json.or_else (field "provider" d) (field "provider_name" d) in
  if Json.is_null p then None else Some (py_str py_repr p).

(** The answer of a trace: the chunks of a usable [output], else the first
    string content of the newest message that has one. *)
Definition answer_of (d : dict) (messages : list (list dict)) : option string :=
  match Json.dict_get "output" d with
  | Some (JDict out) =>
      match output_chunks out with
      | [] => first_content_of_last_message messages
      | chunks => Some (Py.join Py.blank_line chunks)
      end
  | _ => first_content_of_last_message messages
  end.

(** [usage] is an object, or missing, null or otherwise falsy. *)
Definition usage_ok (d : dict) : Prop :=
  match field "usage" d with
  | JDict _ => True
  | v => Json.truthy v = false
  end.

(** The items of the usage object, none when there is no such object. *)
Definition usage_of (d : dict) : dict :=
  match field "usage" d with JDict u => u | _ => [] end.

Definition is_object (v : json) : bool :=
  match v with JDict _ => true | _ => false end.

(** A decoder that knows the trace of four messages, and one that knows a
    trace of three searches. *)
Definition trace_loads : string -> Result json := fun _ => Ok (JDict trace_doc).

Import DbRead.

(** Strictly upwards in the ids. *)
Definition id_lt (a b : Row) : Prop := row_id a < row_id b.

(** The ids of a table go strictly upwards in the order of insertion and
    none is beyond the last id the table gave out. *)
Definition ids_ok (rows : list Row) (seq : Z) : Prop :=
  StronglySorted id_lt rows /\ Forall (fun r => row_id r <= seq) rows.

(** Every row of [eval_checks] names a row of [llm_logs]. *)
Definition refs_ok (db : Database) : Prop :=
  Forall (fun r => exists id, column 0 r = SqlInt id /\ has_log db id = true)
         (eval_checks db).

(** A store as the inserts leave it. *)
Definition db_ok (db : Database) : Prop :=
  ids_ok (llm_logs db) (llm_logs_seq db)
  /\ ids_ok (eval_checks db) (eval_checks_seq db)
  /\ refs_ok db.

(** What [get_checks] shows of a check that was inserted. *)
Definition stored_view (c : CheckResult) : CheckView :=
  {| view_check_name := SqlText (CheckName_value (check_name c));
     view_passed := match passed c with Some b => SqlBool b | None => SqlNull end;
     view_score := match score c with Some q => SqlReal q | None => SqlNull end;
     view_details := match details c with
                     | Some d => SqlFormatted d
                     | None => SqlNull
                     end |}.

(** The backend accepts every statement to come. *)
Definition accepts (db : Database) : Prop :=
  Forall (fun refused => refused = false) (faults db).

(** The rows [new] were added to [llm_logs] between two stores. *)
Definition logs_grew (before after : Database) (new : list Row) : Prop :=
  llm_logs after = llm_logs before ++ new.

(** An entry the loop of [iter_files] passes over: it carries the marker,
    or its name does not match the pattern, or it is no regular file. *)
Definition passed_over (fnmatch : string -> string -> bool)
    (src : LocalDirectorySource) (fs : FS) (entry : Path) : Prop :=
  Py.startswith (processed_prefix src) (name entry) = true
  \/ fnmatch (name entry) (pattern src) = false
  \/ Fs.is_file fs entry = false.

(** A store with the log rows 1 and 2. *)
Definition two_log_db : Database :=
  {| is_postgres := false;
     llm_logs := [{| row_id := 1; row_values := [SqlText "logs/run.json"] |};
                  {| row_id := 2; row_values := [SqlText "logs/next.json"] |}];
     eval_checks := []; llm_logs_seq := 2; eval_checks_seq := 0; faults := [] |}.

(** One pending file, and an empty store that accepts every statement. *)
Definition pending_world : World :=
  {| fs := {[ "logs" := Dir {[ "run.json" := RegularFile "{}" ]} ]};
     db := empty_db; console := [] |}.

(** A directory where the only file carries the marker. *)
Definition settled_world : World :=
  {| fs := {[ "logs" := Dir {[ "_run.json" := RegularFile "{}" ]} ]};
     db := empty_db; console := [] |}.

(** What [get_feedback] shows of a feedback that was saved. *)
Definition stored_feedback (fb : Feedback) : FeedbackView :=
  {| view_is_good := SqlBool (is_good fb);
     view_comments := Db.opt_text (comments fb);
     view_reference_answer := Db.opt_text (reference_answer fb) |}.

(** The store with an empty table [feedback]. *)
Definition no_feedback (db : Database) : Store :=
  {| tables := db; feedback := []; feedback_seq := 0 |}.

(** A trace with three searches, and a record whose instructions bound the
    number of searches. *)
Definition three_searches : json :=
  JDict [("messages", JList
    [ JDict [("parts", JList [JDict [("tool_name", JStr "search")];
                              JDict [("tool_name", JStr "search")];
                              JDict [("tool_name", JStr "search")]])] ])].

Definition bounded_record : LLMLogRecord :=
  {| filepath := "logs/run.json"; agent_name := None; provider := None;
     model := None; user_prompt := None;
     instructions := Some "Search at least 3 and at most 6 times.";
     total_input_tokens := None; total_output_tokens := None;
     assistant_answer := None; raw_json := Some "{}";
     input_cost := None; output_cost := None; total_cost := None |}.

(** No occurrence of [sep] starts in [a], when [s] follows it. *)
Fixpoint none_starts_in (sep a s : string) : Prop :=
  match a with
  | EmptyString => True
  | String _ a' =>
      Py.startswith sep (a +:+ s) = false /\ none_starts_in sep a' s
  end.

Import DbFeedback DbConnect.

(** * Properties *)

(** ** String primitives on examples *)

Example lower_ex : Py.lower "Hello World_9 [Z]" = "hello world_9 [z]".
Proof. reflexivity. Qed.

Example strip_ex : Py.strip "  a b. " = "a b.".
Proof. reflexivity. Qed.

Example findall_words_ex :
  Py.findall_words "it's 2 late, ok_then" = ["it"; "s"; "2"; "late"; "ok_then"].
Proof. reflexivity. Qed.

Example split_sentences_ex :
  Py.split_sentences "One. Two!?  Three.four ... five."
  = ["One"; "Two"; "Three.four "; "five."].
Proof. reflexivity. Qed.

Example split_sentences_leading : Py.split_sentences ". a" = [""; "a"].
Proof. reflexivity. Qed.

Example search_bullet_ex :
  Py.search_bullet "Steps:
  1. first" = true /\ Py.search_bullet "a - b" = false
  /\ Py.search_bullet "- x" = true /\ Py.search_bullet "12.5 km" = false.
Proof. repeat split; reflexivity. Qed.

(** ** evaluator.py: the seven checks *)

(** The guard [max(1, n)] keeps the division from raising. *)
Lemma truediv_guarded (a : Z) (n : nat) :
  truediv a (Z.of_nat (Nat.max 1 n)) = Ok (a # Z.to_pos (Z.of_nat (Nat.max 1 n))).
Proof.
  unfold truediv.
  destruct (Z.eqb_spec (Z.of_nat (Nat.max 1 n)) 0) as [H|H]; [lia | reflexivity].
Qed.

(** [evaluate] always returns; the third and the fourth result are the
    following. *)
Lemma evaluate_returns json_loads id rec :
  let answer := Py.or_empty (assistant_answer rec) in
  let prompt := Py.or_empty (user_prompt rec) in
  exists c1 c2 c3 c4 c5 c6 c7,
    evaluate json_loads id rec = Ok [c1; c2; c3; c4; c5; c6; c7]
    /\ map check_name [c1; c2; c3; c4; c5; c6; c7]
       = [instructions_follow; instructions_avoid; answer_clear; answer_match;
          answer_citations; completeness; tool_call_search]
    /\ passed c3
       = (if Py.nonempty answer
          then Some ((40 <=? length (_tokenize answer))%nat
                     && Qle_bool (avg_sent_len answer) 35)
          else None)
    /\ passed c4
       = (if Py.nonempty answer && Py.nonempty prompt
          then Some (Qle_bool (8 # 100) (jaccard prompt answer))
          else None)
    /\ score c4 = Some (jaccard prompt answer).
Proof.
  intros answer prompt. unfold evaluate.
  fold answer. fold prompt.
  assert (Havg :
    match sentences_of answer with
    | [] => Ok 0%Q
    | _ :: _ => truediv (Z.of_nat (length (_tokenize answer)))
                  (Z.of_nat (Nat.max 1 (length (sentences_of answer))))
    end = Ok (avg_sent_len answer)).
  { unfold avg_sent_len. destruct (sentences_of answer) eqn:E; [reflexivity|].
    apply truediv_guarded. }
  rewrite Havg. cbn [mbind Result_bind].
  rewrite truediv_guarded. cbn [mbind Result_bind].
  do 7 eexists. split; [reflexivity|].
  repeat split.
Qed.

(** C1. For every record, whatever its optional fields hold and whatever
    [json.loads] does with [raw_json], [evaluate] raises nothing and returns
    seven results, named [instructions_follow], [instructions_avoid],
    [answer_clear], [answer_match], [answer_citations], [completeness] and
    [tool_call_search] in this order, each carrying the given [log_id].  The
    result depends on the two arguments (and on the decoder) only. *)
Theorem evaluate_seven_checks
    (json_loads : string -> Result json) (id : Z) (rec : LLMLogRecord) :
  exists checks,
    evaluate json_loads id rec = Ok checks
    /\ length checks = 7%nat
    /\ map check_name checks
       = [instructions_follow; instructions_avoid; answer_clear; answer_match;
          answer_citations; completeness; tool_call_search]
    /\ Forall (fun c => log_id c = id) checks.
Proof.
  unfold evaluate.
  destruct (sentences_of (Py.or_empty (assistant_answer rec))) eqn:E;
    cbn [mbind Result_bind]; rewrite ?truediv_guarded; cbn [mbind Result_bind];
    rewrite ?truediv_guarded; cbn [mbind Result_bind];
    (eexists; split; [reflexivity|]);
    (split; [reflexivity|]); (split; [reflexivity|]);
    repeat constructor.
Qed.

(** The walk over the trace keeps what it has counted when it fails: one
    search is counted before the message that is not an object, the search
    after it is not.  Text that does not decode counts for nothing, and so
    does a document that is a list. *)
Example count_search_calls_ex :
  count_search_calls (fun _ => Ok broken_trace) (Some "...") = 1%nat
  /\ count_search_calls no_decoder (Some "{") = O
  /\ count_search_calls (fun _ => Ok (JList [])) (Some "[]") = O
  /\ count_search_calls no_decoder None = O.
Proof. repeat split; reflexivity. Qed.

(** *** Text without a word *)

Lemma space_is_not_word (c : ascii) :
  Py.isspace c = true -> Py.is_word (Py.lower_char c) = false.
Proof.
  destruct c as [[] [] [] [] [] [] [] []]; vm_compute; congruence.
Qed.

Lemma lstrip_head (s : string) :
  Py.lstrip s = EmptyString /\ all_space s = true
  \/ exists c r, Py.lstrip s = String c r /\ Py.isspace c = false.
Proof.
  induction s as [|c s IH]; [left; split; reflexivity|].
  simpl. destruct (Py.isspace c) eqn:E.
  - destruct IH as [[H1 H2]|H]; [left; split; assumption | right; assumption].
  - right. exists c, s. split; [reflexivity | assumption].
Qed.

Lemma rstrip_keeps_head (c : ascii) (r : string) :
  Py.isspace c = false -> Py.rstrip (String c r) <> EmptyString.
Proof.
  intros H. simpl. rewrite H. destruct (Py.rstrip r); discriminate.
Qed.

Lemma strip_empty_all_space (s : string) :
  Py.nonempty (Py.strip s) = false -> all_space s = true.
Proof.
  unfold Py.strip. intros H.
  destruct (lstrip_head s) as [[_ H2]|(c & r & H1 & H2)]; [assumption|].
  rewrite H1 in H. pose proof (rstrip_keeps_head c r H2) as Hne.
  destruct (Py.rstrip (String c r)); [congruence | discriminate].
Qed.

Lemma all_space_no_token (s : string) :
  all_space s = true -> _tokenize s = [].
Proof.
  unfold _tokenize, Py.findall_words.
  induction s as [|c s IH]; [reflexivity|].
  simpl. intros H. apply andb_true_iff in H as [Hc Hs].
  rewrite (space_is_not_word c Hc). auto.
Qed.

Lemma split_sentences_from_length (s : string) (skip : nat) (cur : list ascii) :
  (1 <= length (Py.split_sentences_from s skip cur))%nat.
Proof.
  revert skip cur. induction s as [|c s IH]; intros skip cur; simpl; [lia|].
  destruct skip; [|apply IH].
  destruct (Py.sentence_break (String c s)); simpl; [lia | apply IH].
Qed.

(** An answer with a token has a sentence. *)
Lemma token_gives_sentence (answer : string) :
  (1 <= length (_tokenize answer))%nat -> (1 <= length (sentences_of answer))%nat.
Proof.
  intros H. unfold sentences_of.
  destruct (Py.nonempty (Py.strip answer)) eqn:E.
  - apply split_sentences_from_length.
  - rewrite (all_space_no_token _ (strip_empty_all_space _ E)) in H.
    simpl in H. lia.
Qed.

(** *** answer_clear *)

Lemma avg_sent_len_is_mean (answer : string) :
  (1 <= sentence_count answer)%nat ->
  (avg_sent_len answer == mean_sentence_length answer)%Q.
Proof.
  unfold avg_sent_len, mean_sentence_length, sentence_count, token_count.
  intros H. destruct (sentences_of answer) as [|x l] eqn:E; [simpl in H; lia|].
  set (n := length (x :: l)) in *.
  replace (Nat.max 1 n) with n by lia.
  rewrite <- (Z2Pos.id (Z.of_nat n)) at 2 by lia.
  apply Qmake_Qdiv.
Qed.

Lemma passed_clear_iff (answer : string) :
  (40 <=? token_count answer)%nat && Qle_bool (avg_sent_len answer) 35 = true
  <-> (40 <= token_count answer)%nat /\ (mean_sentence_length answer <= 35)%Q.
Proof.
  rewrite andb_true_iff, Nat.leb_le, Qle_bool_iff.
  split; intros [H1 H2]; (split; [assumption|]);
    assert (Hs : (1 <= sentence_count answer)%nat)
      by (apply token_gives_sentence; unfold token_count in H1; lia).
  - rewrite <- (avg_sent_len_is_mean _ Hs). assumption.
  - rewrite (avg_sent_len_is_mean _ Hs). assumption.
Qed.

(** C6. The third result is [answer_clear].  With no answer it is not
    applicable.  With a non-empty answer it passes exactly when the answer
    has at least 40 tokens and its mean sentence length, tokens divided by
    sentences, is at most 35: 39 tokens fail, and from 40 tokens on a mean of
    at most 35 passes and a mean above 35 fails. *)
Theorem answer_clear_threshold
    (json_loads : string -> Result json) (id : Z) (rec : LLMLogRecord) :
  let answer := Py.or_empty (assistant_answer rec) in
  exists checks c,
    evaluate json_loads id rec = Ok checks
    /\ checks !! 2%nat = Some c
    /\ check_name c = answer_clear
    /\ (answer = "" -> passed c = None)
    /\ (answer <> "" ->
        exists b, passed c = Some b
          /\ (b = true <-> (40 <= token_count answer)%nat
                            /\ (mean_sentence_length answer <= 35)%Q))
    /\ (answer <> "" -> token_count answer = 39%nat -> passed c = Some false)
    /\ (answer <> "" -> (40 <= token_count answer)%nat ->
        (mean_sentence_length answer <= 35)%Q -> passed c = Some true)
    /\ (answer <> "" -> (40 <= token_count answer)%nat ->
        (35 < mean_sentence_length answer)%Q -> passed c = Some false).
Proof.
  intros answer.
  destruct (evaluate_returns json_loads id rec)
    as (c1 & c2 & c3 & c4 & c5 & c6 & c7 & He & Hn & H3 & _).
  fold answer in H3. fold (token_count answer) in H3.
  exists [c1; c2; c3; c4; c5; c6; c7], c3.
  split; [exact He|]. split; [reflexivity|].
  split; [injection Hn; auto|].
  pose proof (passed_clear_iff answer) as Hiff.
  destruct ((40 <=? token_count answer)%nat
            && Qle_bool (avg_sent_len answer) 35) eqn:Eb.
  - assert (Hm : (40 <= token_count answer)%nat
                 /\ (mean_sentence_length answer <= 35)%Q)
      by (apply Hiff; reflexivity).
    repeat split.
    + intros ->. exact H3.
    + intros Hne. destruct answer; [congruence|]. exists true. tauto.
    + intros _ H39. lia.
    + intros Hne _ _. destruct answer; [congruence | exact H3].
    + intros _ _ Hlt. destruct Hm as [_ Hle].
      exfalso. exact (Qlt_not_le _ _ Hlt Hle).
  - assert (Hm : ~ ((40 <= token_count answer)%nat
                    /\ (mean_sentence_length answer <= 35)%Q))
      by (intros H; apply Hiff in H; congruence).
    repeat split.
    + intros ->. exact H3.
    + intros Hne. destruct answer; [congruence|]. exists false.
      split; [exact H3|]. split; [congruence | tauto].
    + intros Hne _. destruct answer; [congruence | exact H3].
    + intros _ H40 Hle. tauto.
    + intros Hne _ _. destruct answer; [congruence | exact H3].
Qed.

(** The theorem at work: 39 tokens in one sentence fail; 40 tokens in two
    sentences (mean 20) pass and 40 tokens in one sentence (mean 40) fail;
    70 tokens in two sentences (mean 35) pass and 72 tokens in two sentences
    (mean 36) fail; no answer is not applicable. *)
Lemma answer_clear_threshold_witness :
  let third answer :=
    match evaluate no_decoder 1 (record_with None answer) with
    | Ok checks => checks !! 2%nat ≫= passed
    | Raise _ => None
    end in
  third (Some (words 39)) = Some false
  /\ third (Some (words 20 +:+ ". " +:+ words 20)) = Some true
  /\ third (Some (words 40)) = Some false
  /\ third (Some (words 35 +:+ ". " +:+ words 35)) = Some true
  /\ third (Some (words 36 +:+ ". " +:+ words 36)) = Some false
  /\ third None = None.
Proof.
  assert (use : forall answer r,
    (forall c, let a := Py.or_empty answer in
       (a = "" -> passed c = None)
       /\ (a <> "" -> token_count a = 39%nat -> passed c = Some false)
       /\ (a <> "" -> (40 <= token_count a)%nat ->
           (mean_sentence_length a <= 35)%Q -> passed c = Some true)
       /\ (a <> "" -> (40 <= token_count a)%nat ->
           (35 < mean_sentence_length a)%Q -> passed c = Some false)
       -> passed c = r) ->
    match evaluate no_decoder 1 (record_with None answer) with
    | Ok checks => checks !! 2%nat ≫= passed
    | Raise _ => None
    end = r).
  { intros answer r H.
    destruct (answer_clear_threshold no_decoder 1 (record_with None answer))
      as (checks & c & He & Hl & _ & H0 & _ & H39 & Hp & Hf).
    rewrite He, Hl. simpl. apply H. simpl. tauto. }
  intros third.
  refine (conj _ (conj _ (conj _ (conj _ (conj _ _)))));
    apply use; intros c a (H0 & H39 & Hp & Hf).
  - apply H39; [discriminate | reflexivity].
  - apply Hp; [discriminate | vm_compute; lia |].
    apply Qle_bool_imp_le. vm_compute. reflexivity.
  - apply Hf; [discriminate | vm_compute; lia |]. vm_compute. reflexivity.
  - apply Hp; [discriminate | vm_compute; lia |].
    apply Qle_bool_imp_le. vm_compute. reflexivity.
  - apply Hf; [discriminate | vm_compute; lia |]. vm_compute. reflexivity.
  - apply H0. reflexivity.
Defined.

(** The same five answers with the quotient taken in binary64: the float
    comparison and the exact one agree. *)
Example answer_clear_binary64 :
  Forall (fun answer =>
            float_avg_le_35 (token_count answer) (sentence_count answer)
            = Qle_bool (avg_sent_len answer) 35)
    [words 39; words 20 +:+ ". " +:+ words 20; words 40;
     words 35 +:+ ". " +:+ words 35; words 36 +:+ ". " +:+ words 36].
Proof. repeat constructor. Qed.

(** With exactly 40 tokens the mean is 40 divided by a whole number of
    sentences, hence never 35 and never 36. *)
Remark forty_tokens_mean (answer : string) :
  token_count answer = 40%nat ->
  ~ (mean_sentence_length answer == 35)%Q
  /\ ~ (mean_sentence_length answer == 36)%Q.
Proof.
  intros H40.
  assert (Hs : (1 <= sentence_count answer)%nat)
    by (apply token_gives_sentence; unfold token_count in H40; lia).
  unfold mean_sentence_length. rewrite H40.
  rewrite <- (Z2Pos.id (Z.of_nat (sentence_count answer))) by lia.
  rewrite <- Qmake_Qdiv. unfold Qeq. simpl.
  split; lia.
Qed.

(** *** answer_match *)

Lemma jaccard_is_similarity (prompt answer : string) :
  (jaccard prompt answer
   == jaccard_similarity (token_set prompt) (token_set answer))%Q.
Proof.
  unfold jaccard, jaccard_similarity, token_overlap, token_union.
  set (A := token_set prompt). set (B := token_set answer).
  assert (Hle : (size (A ∩ B) <= size (A ∪ B))%nat)
    by (apply subseteq_size; transitivity A;
        [apply intersection_subseteq_l | apply union_subseteq_l]).
  destruct (size (A ∪ B)) as [|u] eqn:Eu.
  - replace (size (A ∩ B)) with O by lia. reflexivity.
  - replace (Nat.max 1 (S u)) with (S u) by lia.
    rewrite <- (Z2Pos.id (Z.of_nat (S u))) at 2 by lia.
    apply Qmake_Qdiv.
Qed.

(** C7, as the spec has it, at its own example: the prompt and the answer
    share the token [habitat] only ([capybara] and [capybaras] are two
    tokens), so the overlap is not 2 or more. *)
Lemma capybara_overlap_below_two :
  ~ (2 <= token_overlap capybara_prompt capybara_answer)%nat.
Proof. vm_compute. lia. Qed.

(** C7, amended.  The fourth result is [answer_match].  Its score is the
    Jaccard similarity of the token sets of prompt and answer.  It is not
    applicable when the prompt or the answer is empty, and otherwise passes
    exactly when the score is at least 0.08.  For the prompt
    "capybara habitat" and the answer "capybaras live in habitat near rivers"
    the overlap is 1, the score is 1/7 and the check passes. *)
Theorem answer_match_jaccard
    (json_loads : string -> Result json) (id : Z) (rec : LLMLogRecord) :
  let prompt := Py.or_empty (user_prompt rec) in
  let answer := Py.or_empty (assistant_answer rec) in
  let similarity := jaccard_similarity (token_set prompt) (token_set answer) in
  exists checks c,
    evaluate json_loads id rec = Ok checks
    /\ checks !! 3%nat = Some c
    /\ check_name c = answer_match
    /\ (exists q, score c = Some q /\ (q == similarity)%Q)
    /\ (prompt = "" \/ answer = "" -> passed c = None)
    /\ (prompt <> "" -> answer <> "" ->
        exists b, passed c = Some b
          /\ (b = true <-> (8 # 100 <= similarity)%Q))
    /\ (prompt = capybara_prompt -> answer = capybara_answer ->
        token_overlap prompt answer = 1%nat
        /\ (similarity == 1 # 7)%Q
        /\ passed c = Some true).
Proof.
  intros prompt answer similarity.
  destruct (evaluate_returns json_loads id rec)
    as (c1 & c2 & c3 & c4 & c5 & c6 & c7 & He & Hn & _ & H4 & Hs).
  fold answer in H4, Hs. fold prompt in H4, Hs.
  exists [c1; c2; c3; c4; c5; c6; c7], c4.
  split; [exact He|]. split; [reflexivity|].
  split; [injection Hn; auto|].
  pose proof (jaccard_is_similarity prompt answer) as Hj.
  fold similarity in Hj.
  split; [exists (jaccard prompt answer); split; assumption|].
  split; [|split].
  - intros [-> | ->]; rewrite H4; [|rewrite andb_false_l]; try reflexivity.
    destruct (Py.nonempty answer); reflexivity.
  - intros Hp Ha.
    destruct prompt as [|pc pr]; [congruence|].
    destruct answer as [|ac ar]; [congruence|].
    simpl in H4. eexists. split; [exact H4|].
    rewrite Qle_bool_iff, Hj. reflexivity.
  - intros Hp Ha.
    assert (Ho : token_overlap prompt answer = 1%nat)
      by (rewrite Hp, Ha; vm_compute; reflexivity).
    assert (Hq : (jaccard prompt answer == 1 # 7)%Q)
      by (rewrite Hp, Ha; vm_compute; reflexivity).
    split; [exact Ho|]. split; [rewrite <- Hj; exact Hq|].
    rewrite H4, Hp, Ha. vm_compute. reflexivity.
Qed.

(** The example in binary64: 1/7 against the literal 0.08. *)
Example answer_match_binary64 :
  float_jaccard_ge_008 (token_overlap capybara_prompt capybara_answer)
                       (token_union capybara_prompt capybara_answer)
  = Qle_bool (8 # 100) (jaccard capybara_prompt capybara_answer).
Proof. vm_compute. reflexivity. Qed.

(** The theorem at the example of the spec and at two empty fields. *)
Lemma answer_match_jaccard_witness :
  let fourth prompt answer :=
    match evaluate no_decoder 1 (record_with prompt answer) with
    | Ok checks => checks !! 3%nat ≫= passed
    | Raise _ => None
    end in
  fourth (Some capybara_prompt) (Some capybara_answer) = Some true
  /\ fourth None (Some capybara_answer) = None
  /\ fourth (Some capybara_prompt) (Some "") = None.
Proof.
  intros fourth.
  refine (conj _ (conj _ _)); unfold fourth.
  - destruct (answer_match_jaccard no_decoder 1
                (record_with (Some capybara_prompt) (Some capybara_answer)))
      as (checks & c & He & Hl & _ & _ & _ & _ & Hex).
    rewrite He, Hl. simpl. apply Hex; reflexivity.
  - destruct (answer_match_jaccard no_decoder 1
                (record_with None (Some capybara_answer)))
      as (checks & c & He & Hl & _ & _ & H0 & _).
    rewrite He, Hl. simpl. apply H0. left. reflexivity.
  - destruct (answer_match_jaccard no_decoder 1
                (record_with (Some capybara_prompt) (Some "")))
      as (checks & c & He & Hl & _ & _ & H0 & _).
    rewrite He, Hl. simpl. apply H0. right. reflexivity.
Defined.

(** ** parser.py: the answer and the token counts *)

(** *** The structured output *)

Lemma section_chunks_of (sections : list json) (hcs : list (string * string)) :
  Forall2 section_of sections hcs ->
  concat (map section_chunks sections) = flat_map (fun hc => [fst hc; snd hc]) hcs.
Proof.
  induction 1 as [|s hc sections hcs (sd & -> & Hh & Hc) _ IH]; [reflexivity|].
  simpl. rewrite Hh, Hc. simpl. rewrite IH. reflexivity.
Qed.



(** *** The fallback on the messages *)

Lemma parts_of_message (msg : json) (ps : list dict) :
  message_with_parts msg ps -> parts_of msg = Ok (map JDict ps).
Proof.
  intros (md & -> & [H | [-> H]]); unfold parts_of; simpl.
  - rewrite H. simpl. destruct ps; reflexivity.
  - unfold Json.or_else. rewrite H. reflexivity.
Qed.

Lemma first_string_part (ps : list dict) :
  first_return (fun p => c ← Json.get "content" p; Ok (Json.as_str c))
    (map JDict ps)
  = Ok (head (string_contents ps)).
Proof.
  induction ps as [|p ps IH]; [reflexivity|].
  unfold string_contents in *. simpl.
  destruct (Json.dict_get "content" p) as [v|]; simpl.
  - destruct (Json.as_str v); [reflexivity | exact IH].
  - exact IH.
Qed.

Lemma first_message_with_content (msgs : list json) (messages : list (list dict)) :
  Forall2 message_with_parts msgs messages ->
  first_return (fun msg =>
      parts ← parts_of msg;
      first_return (fun p => c ← Json.get "content" p; Ok (Json.as_str c)) parts)
    msgs
  = Ok (head (omap (fun ps => head (string_contents ps)) messages)).
Proof.
  induction 1 as [|msg ps msgs messages Hm _ IH]; [reflexivity|].
  simpl. rewrite (parts_of_message _ _ Hm). simpl.
  rewrite first_string_part. simpl.
  destruct (head (string_contents ps)); [reflexivity | exact IH].
Qed.

Lemma messages_of_document (d : dict) (msgs : list json) :
  messages_are d msgs -> messages_of (JDict d) = Ok (JList msgs).
Proof.
  intros [H | [-> H]]; unfold messages_of; simpl.
  - rewrite H. simpl. destruct msgs; reflexivity.
  - unfold Json.or_else. rewrite H. reflexivity.
Qed.

Lemma Forall2_rev_rev {A B} (R : A -> B -> Prop) (l : list A) (k : list B) :
  Forall2 R l k -> Forall2 R (rev l) (rev k).
Proof.
  induction 1 as [|x y l k Hxy _ IH]; simpl; [constructor|].
  apply Forall2_app; [exact IH | repeat constructor; exact Hxy].
Qed.

Lemma last_message_content_spec (d : dict) (msgs : list json)
    (messages : list (list dict)) :
  messages_are d msgs ->
  Forall2 message_with_parts msgs messages ->
  last_message_content (JDict d) = Ok (first_content_of_last_message messages).
Proof.
  intros Hm Hall. unfold last_message_content.
  rewrite (messages_of_document _ _ Hm). simpl.
  apply first_message_with_content. apply Forall2_rev_rev. exact Hall.
Qed.

Lemma no_usable_output_falls_back (d : dict) :
  no_usable_output d -> _extract_answer (JDict d) = last_message_content (JDict d).
Proof.
  unfold no_usable_output, _extract_answer. simpl.
  destruct (Json.dict_get "output" d) as [out|]; simpl; [|reflexivity].
  destruct out; try reflexivity.
  intros ->. reflexivity.
Qed.

Lemma no_content_no_answer (messages : list (list dict)) :
  Forall (fun ps => string_contents ps = []) messages ->
  first_content_of_last_message messages = None.
Proof.
  intros H. apply Forall_rev in H. unfold first_content_of_last_message.
  induction H as [|ps l Hps _ IH]; [reflexivity|].
  simpl. rewrite Hps. simpl. exact IH.
Qed.

(** C3, as the spec has it, on a document with one message of two text
    parts: the last string content of the message is "final", the code
    returns "draft". *)
Lemma extract_answer_not_last_part :
  no_usable_output two_part_doc
  /\ last_content_of_last_message two_part_messages = Some "final"
  /\ _extract_answer (JDict two_part_doc) = Ok (Some "draft")
  /\ _extract_answer (JDict two_part_doc)
     <> Ok (last_content_of_last_message two_part_messages).
Proof.
  split; [exact I|]. split; [reflexivity|]. split; [reflexivity|].
  vm_compute. discriminate.
Qed.

(** C3, amended.  When the document has no usable top-level [output], the
    answer is the first string-valued content part of the last message that
    has one; when no part of any message has a string content, the answer is
    null. *)
Theorem extract_answer_fallback
    (d : dict) (msgs : list json) (messages : list (list dict)) :
  no_usable_output d ->
  messages_are d msgs ->
  Forall2 message_with_parts msgs messages ->
  _extract_answer (JDict d) = Ok (first_content_of_last_message messages)
  /\ (Forall (fun ps => string_contents ps = []) messages ->
      _extract_answer (JDict d) = Ok None).
Proof.
  intros Hout Hm Hall.
  rewrite (no_usable_output_falls_back _ Hout).
  rewrite (last_message_content_spec _ _ _ Hm Hall).
  split; [reflexivity|].
  intros Hnone. rewrite (no_content_no_answer _ Hnone). reflexivity.
Qed.

Lemma extract_answer_fallback_witness :
  _extract_answer (JDict trace_doc) = Ok (Some "first")
  /\ _extract_answer (JDict [("output", JDict [])]) = Ok None.
Proof.
  split.
  - apply (extract_answer_fallback trace_doc trace_msgs trace_messages).
    + exact I.
    + left. reflexivity.
    + repeat constructor;
        (eexists; split; [reflexivity|]);
        first [left; reflexivity | right; split; reflexivity].
  - apply (extract_answer_fallback [("output", JDict [])] [] []).
    + reflexivity.
    + right. split; reflexivity.
    + constructor.
    + constructor.
Defined.

(** *** Token usage *)

Ltac step_bind H :=
  match type of H with
  | (mbind _ ?m) = Ok _ =>
      let E := fresh "E" in
      destruct m eqn:E; cbn [mbind Result_bind] in H; [|discriminate H]
  end.

(** The counts of the record are [_get_total_usage] of the decoded document,
    kept when they are instances of [int]. *)
Lemma parse_document_usage json_loads py_repr (path raw : string) (r : LLMLogRecord) :
  parse_document json_loads py_repr path raw = Ok r ->
  exists doc tin tout,
    json_loads raw = Ok doc
    /\ _get_total_usage doc = Ok (tin, tout)
    /\ total_input_tokens r = Json.as_int tin
    /\ total_output_tokens r = Json.as_int tout.
Proof.
  unfold parse_document. intros H.
  do 9 step_bind H.
  match goal with E : _get_total_usage _ = Ok ?u |- _ => destruct u as [tin tout] end.
  step_bind H. injection H as <-.
  eauto 10.
Qed.

(** Without a [usage] object, or with a null one, both counts are [None]. *)
Lemma missing_usage_is_null (d : dict) :
  default JNull (Json.dict_get "usage" d) = JNull ->
  _get_total_usage (JDict d) = Ok (JNull, JNull).
Proof.
  intros H. unfold _get_total_usage. simpl. rewrite H. reflexivity.
Qed.

(** A count is kept for an [int] and for a [bool], and for nothing else. *)
Lemma as_int_none (v : json) :
  Json.as_int v = None <-> (forall z, v <> JInt z) /\ (forall b, v <> JBool b).
Proof.
  destruct v; simpl; split; try (intros [H1 H2]); try intros H;
    try discriminate; try (split; intros; discriminate); try reflexivity.
  - exfalso. exact (H2 b eq_refl).
  - exfalso. exact (H1 z eq_refl).
Qed.

(** C8 at a usage value that is not a number: [isinstance(True, int)] holds
    in Python and [int(True)] is 1, so the record gets the count 1 where the
    spec promises a null count. *)
Theorem usage_true_counts_as_one :
  exists r,
    parse_document (fun _ => Ok (JDict flagged_usage_doc)) (fun _ => "")
      "logs/run.json" "{}" = Ok r
    /\ total_input_tokens r = Some 1
    /\ total_output_tokens r = Some 200.
Proof. eexists. split; [reflexivity|]. split; reflexivity. Qed.

(** The same document with the string "many" instead: a null count, and no
    error, and a null count for the field that is missing. *)
Example usage_text_is_null :
  exists r,
    parse_document
      (fun _ => Ok (JDict [("usage", JDict [("input_tokens", JStr "many")])]))
      (fun _ => "") "logs/run.json" "{}" = Ok r
    /\ total_input_tokens r = None
    /\ total_output_tokens r = None.
Proof. eexists. split; [reflexivity|]. split; reflexivity. Qed.

(** A [usage] that is a non-empty string is not an object: [usage.get]
    raises. *)
Example usage_not_an_object_raises :
  parse_document (fun _ => Ok (JDict [("usage", JStr "n/a")])) (fun _ => "")
    "logs/run.json" "{}" = Raise AttributeError.
Proof. reflexivity. Qed.

(** ** sources.py: listing and marking *)

(** *** The loop of [mark_processed] ends *)

Lemma underscored_length (k : nat) (n : string) :
  String.length (underscored k n) = (k + String.length n)%nat.
Proof.
  revert n. induction k as [|k IH]; intros n; simpl; [reflexivity|].
  rewrite IH. simpl. lia.
Qed.

Lemma retry_inj (j k : nat) (target : Path) :
  retry j target = retry k target -> j = k.
Proof.
  intros H. apply (f_equal (fun p => String.length (name p))) in H.
  simpl in H. rewrite !underscored_length in H. lia.
Qed.

Lemma with_name_underscore (target : Path) :
  Py.nonempty (name target) = true ->
  Fs.has_slash (name target) = false ->
  Fs.with_name target ("_" +:+ name target) = Ok (retry 1 target).
Proof.
  intros Hne H. unfold Fs.with_name.
  change ("_" +:+ name target) with (String "_" (name target)).
  destruct target as [dir n]. simpl in *. rewrite H, Hne.
  destruct n as [|c n]; reflexivity.
Qed.

Lemma exists_name_beside (fs : FS) (p : Path) :
  Fs.exists_ fs p = true -> In (name p) (names_beside fs p).
Proof.
  unfold Fs.exists_, Fs.lookup, names_beside.
  destruct (fs !! parent p) as [[entries|]|]; try discriminate.
  destruct (entries !! name p) as [e|] eqn:E; [|discriminate]. intros _.
  apply in_map_iff. exists (name p, e). split; [reflexivity|].
  apply list_elem_of_In. apply elem_of_map_to_list. exact E.
Qed.

Lemma not_shorter_cons (n : nat) (m : string) (names : list string) :
  not_shorter n (m :: names)
  = if (n <=? String.length m)%nat then m :: not_shorter n names
    else not_shorter n names.
Proof. reflexivity. Qed.

Lemma not_shorter_le (n : nat) (names : list string) :
  (length (not_shorter (S n) names) <= length (not_shorter n names))%nat.
Proof.
  induction names as [|m names IH]; [reflexivity|].
  rewrite !not_shorter_cons.
  destruct (Nat.leb_spec (S n) (String.length m)),
           (Nat.leb_spec n (String.length m)); cbn [length]; lia.
Qed.

Lemma not_shorter_lt (m : string) (names : list string) :
  In m names ->
  (length (not_shorter (S (String.length m)) names)
   < length (not_shorter (String.length m) names))%nat.
Proof.
  induction names as [|x names IH]; [intros []|].
  rewrite !not_shorter_cons. intros [-> | H].
  - rewrite Nat.leb_refl.
    destruct (Nat.leb_spec (S (String.length m)) (String.length m)); [lia|].
    cbn [length]. pose proof (not_shorter_le (String.length m) names). lia.
  - specialize (IH H).
    destruct (Nat.leb_spec (S (String.length m)) (String.length x)),
             (Nat.leb_spec (String.length m) (String.length x));
      cbn [length]; lia.
Qed.

(** With as many turns as there are names not shorter than the first
    target, the loop stops at the first free name. *)
Lemma free_target_finds (fuel : nat) (fs : FS) (target : Path) :
  Py.nonempty (name target) = true ->
  Fs.has_slash (name target) = false ->
  (length (not_shorter (String.length (name target)) (names_beside fs target))
   <= fuel)%nat ->
  exists k,
    free_target fuel fs target = Some (Ok (retry k target))
    /\ Fs.exists_ fs (retry k target) = false
    /\ forall j, (j < k)%nat -> Fs.exists_ fs (retry j target) = true.
Proof.
  revert target. induction fuel as [|fuel IH]; intros target Hne Hslash Hfuel.
  - exists O.
    assert (E : Fs.exists_ fs target = false).
    { destruct (Fs.exists_ fs target) eqn:E; [|reflexivity].
      apply exists_name_beside in E. apply not_shorter_lt in E. lia. }
    destruct target as [dir n]. unfold retry. cbn [free_target parent name underscored].
    rewrite E. split; [reflexivity|]. split; [reflexivity|].
    intros j Hj. lia.
  - cbn [free_target]. destruct (Fs.exists_ fs target) eqn:E.
    + rewrite (with_name_underscore _ Hne Hslash).
      destruct (IH (retry 1 target)) as (k & Hk & Hfree & Hbusy).
      * reflexivity.
      * exact Hslash.
      * pose proof (not_shorter_lt _ _ (exists_name_beside _ _ E)) as Hlt.
        change (names_beside fs (retry 1 target)) with (names_beside fs target).
        change (String.length (name (retry 1 target)))
          with (S (String.length (name target))).
        lia.
      * exists (S k). split; [exact Hk|]. split; [exact Hfree|].
        intros [|j] Hj.
        -- destruct target. exact E.
        -- apply (Hbusy j). lia.
    + exists O. destruct target as [dir n]. unfold retry.
      cbn [parent name underscored].
      split; [reflexivity|]. split; [exact E|].
      intros j Hj. lia.
Qed.

(** Whatever the target, the loop does not run out of fuel. *)
Lemma free_target_total (fuel : nat) (fs : FS) (target : Path) :
  (length (not_shorter (String.length (name target)) (names_beside fs target))
   <= fuel)%nat ->
  free_target fuel fs target <> None.
Proof.
  revert target. induction fuel as [|fuel IH]; intros target Hfuel;
    cbn [free_target]; destruct (Fs.exists_ fs target) eqn:E;
    try discriminate.
  - apply exists_name_beside in E. apply not_shorter_lt in E. lia.
  - destruct (Fs.with_name target ("_" +:+ name target)) as [t|e] eqn:Ew;
      [|discriminate].
    unfold Fs.with_name in Ew.
    destruct (_ && _) in Ew; [|discriminate]. injection Ew as <-.
    apply IH.
    pose proof (not_shorter_lt _ _ (exists_name_beside _ _ E)) as Hlt.
    change (names_beside fs {| parent := parent target;
                               name := "_" +:+ name target |})
      with (names_beside fs target).
    change (String.length (name {| parent := parent target;
                                   name := "_" +:+ name target |}))
      with (S (String.length (name target))).
    lia.
Qed.

Lemma not_shorter_siblings (n : nat) (fs : FS) (p : Path) :
  (length (not_shorter n (names_beside fs p)) <= siblings fs p)%nat.
Proof.
  unfold names_beside, siblings, not_shorter.
  destruct (fs !! parent p) as [[entries|]|]; simpl; try lia.
  etransitivity; [apply filter_length_le|].
  rewrite length_map, length_map_to_list. reflexivity.
Qed.

(** [mark_processed] gives its loop fuel enough. *)
Lemma mark_processed_has_fuel (fs : FS) (path target : Path) :
  parent target = parent path ->
  free_target (siblings fs path) fs target <> None.
Proof.
  intros Hp. apply free_target_total.
  etransitivity; [apply (not_shorter_siblings _ fs target)|].
  unfold siblings. rewrite Hp. reflexivity.
Qed.

(** *** What one call of [mark_processed] does *)

Lemma app_cons (c : ascii) (a b : string) :
  String c a +:+ b = String c (a +:+ b).
Proof. reflexivity. Qed.

Lemma app_nil (b : string) : "" +:+ b = b.
Proof. reflexivity. Qed.

Lemma has_slash_app (a b : string) :
  Fs.has_slash (a +:+ b) = Fs.has_slash a || Fs.has_slash b.
Proof.
  induction a as [|c a IH]; [reflexivity|].
  rewrite app_cons. simpl. rewrite IH. apply orb_assoc.
Qed.

Lemma with_name_marker (prefix : string) (path : Path) :
  valid_component (name path) = true ->
  Fs.has_slash prefix = false ->
  Fs.with_name path (prefix +:+ name path)
  = Ok {| parent := parent path; name := prefix +:+ name path |}.
Proof.
  unfold valid_component, Fs.with_name. intros Hv Hp.
  apply andb_true_iff in Hv as [Hv Hdot]. apply andb_true_iff in Hv as [Hne Hs].
  rewrite Hne, has_slash_app, Hp. rewrite negb_true_iff in Hs. rewrite Hs.
  destruct (name path) as [|c n] eqn:En; [discriminate|].
  destruct prefix as [|a [|b prefix]]; rewrite ?app_cons, ?app_nil.
  - simpl in *. rewrite Hdot. reflexivity.
  - simpl. destruct (Ascii.eqb a "."); reflexivity.
  - simpl. destruct (Ascii.eqb a "."); reflexivity.
Qed.

Lemma candidate_parent src path k : parent (candidate src path k) = parent path.
Proof. reflexivity. Qed.

Lemma candidate_inj src path j k :
  candidate src path j = candidate src path k -> j = k.
Proof. apply retry_inj. Qed.

Lemma lookup_exists (fs : FS) (p : Path) :
  Fs.exists_ fs p = false <-> Fs.lookup fs p = None.
Proof. unfold Fs.exists_. destruct (Fs.lookup fs p); split; congruence. Qed.

Lemma path_eq (p q : Path) : parent p = parent q -> name p = name q -> p = q.
Proof. destruct p, q. simpl. intros -> ->. reflexivity. Qed.

(** Renaming to a free name of the same directory moves the entry and
    leaves every other path alone. *)
Lemma rename_to_free (fs : FS) (path target : Path) (e : Entry) :
  Fs.lookup fs path = Some e ->
  parent target = parent path ->
  Fs.lookup fs target = None ->
  exists fs',
    Fs.rename path target fs = (Ok (), fs')
    /\ Fs.lookup fs' target = Some e
    /\ Fs.lookup fs' path = None
    /\ forall p, p <> path -> p <> target -> Fs.lookup fs' p = Fs.lookup fs p.
Proof.
  unfold Fs.lookup, Fs.rename. intros Hsrc Hpar Hdst. rewrite Hpar in *.
  destruct (fs !! parent path) as [[entries|]|] eqn:Ed; try discriminate.
  rewrite Hsrc, Hdst.
  assert (Hne : name target <> name path) by congruence.
  exists (<[parent path := Dir (<[name target := e]> (delete (name path) entries))]> fs).
  split; [destruct e; reflexivity|].
  rewrite lookup_insert_eq. split; [apply lookup_insert_eq|].
  split.
  - rewrite lookup_insert_ne by exact Hne. apply lookup_delete_eq.
  - intros p Hp Ht.
    destruct (decide (parent p = parent path)) as [Heq|Hdir].
    + rewrite Heq, lookup_insert_eq, Ed.
      rewrite lookup_insert_ne
        by (intros Hn; apply Ht, path_eq; congruence).
      apply lookup_delete_ne. intros Hn. apply Hp, path_eq; congruence.
    + rewrite lookup_insert_ne by congruence. reflexivity.
Qed.

(** One call on a file that exists, with a marker that holds no separator:
    the file moves to the first free candidate, and nothing else changes. *)
Lemma mark_processed_once (src : LocalDirectorySource) (path : Path) (fs : FS)
    (e : Entry) :
  Fs.lookup fs path = Some e ->
  valid_component (name path) = true ->
  Fs.has_slash (processed_prefix src) = false ->
  exists k fs',
    mark_processed src path fs = (Ok (candidate src path k), fs')
    /\ (forall j, (j < k)%nat -> Fs.exists_ fs (candidate src path j) = true)
    /\ Fs.lookup fs (candidate src path k) = None
    /\ Fs.lookup fs' (candidate src path k) = Some e
    /\ Fs.lookup fs' path = None
    /\ forall p, p <> path -> p <> candidate src path k ->
         Fs.lookup fs' p = Fs.lookup fs p.
Proof.
  intros Hsrc Hv Hp. unfold mark_processed.
  rewrite (with_name_marker _ _ Hv Hp).
  set (target := {| parent := parent path;
                    name := processed_prefix src +:+ name path |}).
  assert (Hv' := Hv). unfold valid_component in Hv'.
  apply andb_true_iff in Hv' as [Hv' _]. apply andb_true_iff in Hv' as [Hne Hs].
  rewrite negb_true_iff in Hs.
  destruct (free_target_finds (siblings fs path) fs target)
    as (k & Hk & Hfree & Hbusy).
  - simpl. destruct (name path); [discriminate|].
    destruct (processed_prefix src); reflexivity.
  - simpl. rewrite has_slash_app, Hp, Hs. reflexivity.
  - apply (not_shorter_siblings _ fs target).
  - rewrite Hk. apply lookup_exists in Hfree.
    destruct (rename_to_free fs path (retry k target) e Hsrc eq_refl Hfree)
      as (fs' & Hr & H1 & H2 & H3).
    rewrite Hr. exists k, fs'. unfold candidate. fold target.
    split; [reflexivity|]. split; [exact Hbusy|]. split; [exact Hfree|].
    split; [exact H1|]. split; [exact H2 | exact H3].
Qed.

(** *** The marker and the collisions *)




Example mark_processed_twice_runs :
  fst (mark_processed underscore_source run_path marked_fs)
  = Ok {| parent := "logs"; name := "__run.json" |}.
Proof. vm_compute. reflexivity. Qed.

(** Called again on the path it has just renamed, with no new file there,
    [mark_processed] raises [FileNotFoundError]. *)
Example mark_processed_again_on_missing_file :
  fst (mark_processed underscore_source run_path
         (snd (mark_processed underscore_source run_path marked_fs)))
  = Raise FileNotFoundError.
Proof. vm_compute. reflexivity. Qed.

(** A marker with a path separator makes [with_name] raise. *)
Example mark_processed_bad_marker :
  fst (mark_processed
         {| directory := "logs"; pattern := "*.json"; processed_prefix := "done/" |}
         run_path marked_fs)
  = Raise ValueError.
Proof. vm_compute. reflexivity. Qed.

(** ** runner.py and sources.py: a directory that is not there *)

Section Drain.

Variable json_loads : string -> Result json.
Variable py_repr : json -> string.
Variable fnmatch : string -> string -> bool.
Variable decimal_str : Decimal -> string.
Variable genai_prices :
  option (Z -> Z -> option string -> option string
          -> Result (Decimal * Decimal * Decimal)).

(** C9. When the watched directory does not exist, [iter_files] yields
    nothing and raises nothing; the drain over it returns normally with zero
    files processed, prints its count and leaves the files and the store as
    they were. *)
Theorem missing_directory_drains_nothing
    (settings : Settings) (debug : bool) (w : World) :
  fs w !! logs_dir settings = None ->
  Sources.iter_files fnmatch (source_of settings) (fs w) = Ok []
  /\ drain json_loads py_repr fnmatch decimal_str genai_prices settings debug w
     = (Ok O, {| fs := fs w; db := db w;
                 console := console w ++ [Processed O] |}).
Proof.
  intros Hmissing. unfold Sources.iter_files, drain, Sources.listing.
  cbn [source_of directory]. rewrite Hmissing. split; reflexivity.
Qed.

End Drain.

Lemma missing_directory_drains_nothing_witness :
  fs bare_world !! logs_dir demo_settings = None
  /\ fst (drain (fun _ => Raise JSONDecodeError) (fun _ => "")
            (fun _ _ => true) (fun _ => "") None demo_settings false bare_world)
     = Ok O.
Proof.
  assert (H : fs bare_world !! logs_dir demo_settings = None) by reflexivity.
  split; [exact H|].
  destruct (missing_directory_drains_nothing (fun _ => Raise JSONDecodeError)
              (fun _ => "") (fun _ _ => true) (fun _ => "") None
              demo_settings false bare_world H) as [_ Hd].
  rewrite Hd. reflexivity.
Defined.

(** ** db.py: what an insert leaves behind *)

Lemma reach_keeps (db : Database) :
  let db' := snd (reach db) in
  is_postgres db' = is_postgres db /\ llm_logs db' = llm_logs db
  /\ eval_checks db' = eval_checks db /\ llm_logs_seq db' = llm_logs_seq db
  /\ eval_checks_seq db' = eval_checks_seq db.
Proof.
  unfold reach. destruct (faults db) as [|[] rest]; simpl; repeat split.
Qed.

(** One insert into [eval_checks] either adds its row, or raises and leaves
    the tables as they are. *)
Lemma execute_insert_check_spec (postgres : bool) (c : CheckResult) (db : Database) :
  let r := execute_insert_check (check_params postgres c) db in
  is_postgres (snd r) = is_postgres db
  /\ llm_logs (snd r) = llm_logs db
  /\ llm_logs_seq (snd r) = llm_logs_seq db
  /\ (fst r = Ok ()
      /\ eval_checks (snd r)
         = eval_checks db ++ [{| row_id := eval_checks_seq db + 1;
                                 row_values := check_params postgres c |}]
      /\ eval_checks_seq (snd r) = eval_checks_seq db + 1
      \/ (exists e, fst r = Raise e)
         /\ eval_checks (snd r) = eval_checks db
         /\ eval_checks_seq (snd r) = eval_checks_seq db).
Proof.
  unfold execute_insert_check, eff_bind.
  pose proof (reach_keeps db) as (H1 & H2 & H3 & H4 & H5).
  destruct (reach db) as [[[]|e] db1]; simpl in *.
  - destruct (has_log db1 (log_id c)); simpl.
    + rewrite H1, H2, H3, H4, H5. split; [reflexivity|].
      split; [reflexivity|]. split; [reflexivity|]. left.
      repeat split.
    + split; [assumption|]. split; [assumption|]. split; [assumption|].
      right. split; [eexists; reflexivity|]. split; assumption.
  - split; [assumption|]. split; [assumption|]. split; [assumption|].
    right. split; [eexists; reflexivity|]. split; assumption.
Qed.

(** The loop persists the rows of a prefix of the checks: all of them when
    it returns, those before the failing one when it raises. *)
Lemma insert_check_rows_prefix (checks : list CheckResult) (db : Database) :
  let r := insert_check_rows checks db in
  exists n,
    eval_checks (snd r)
    = eval_checks db
      ++ check_rows (is_postgres db) (eval_checks_seq db) (take n checks)
    /\ llm_logs (snd r) = llm_logs db
    /\ llm_logs_seq (snd r) = llm_logs_seq db
    /\ is_postgres (snd r) = is_postgres db
    /\ (fst r = Ok () -> n = length checks)
    /\ (forall e, fst r = Raise e -> (n < length checks)%nat).
Proof.
  revert db. induction checks as [|c rest IH]; intros db.
  - exists O. simpl. rewrite app_nil_r.
    repeat split; [intros e; discriminate].
  - cbn [insert_check_rows]. unfold eff_bind.
    pose proof (execute_insert_check_spec (is_postgres db) c db)
      as (Hp & Hl & Hs & Hcase).
    destruct (execute_insert_check (check_params (is_postgres db) c) db)
      as [[[]|e] db1]; simpl in *.
    + destruct Hcase as [(_ & Hrows & Hseq) | ([e He] & _)]; [|discriminate].
      destruct (IH db1) as (n & Hn & Hl' & Hs' & Hp' & Hok & Herr).
      exists (S n). simpl.
      rewrite Hn, Hrows, Hp, Hseq, <- app_assoc. simpl.
      split; [reflexivity|]. split; [congruence|]. split; [congruence|].
      split; [congruence|]. split.
      * intros H. f_equal. auto.
      * intros e H. apply Herr in H. lia.
    + destruct Hcase as [(Hf & _) | (_ & Hrows & Hseq)]; [discriminate|].
      exists O. simpl. rewrite app_nil_r.
      split; [assumption|]. split; [assumption|]. split; [assumption|].
      split; [assumption|]. split; [discriminate|]. intros; lia.
Qed.

(** Whatever [insert_checks] does, it leaves [llm_logs] alone. *)
Lemma insert_checks_keeps_logs (checks : list CheckResult) (db : Database) :
  let db' := snd (insert_checks checks db) in
  llm_logs db' = llm_logs db /\ llm_logs_seq db' = llm_logs_seq db
  /\ is_postgres db' = is_postgres db.
Proof.
  destruct checks as [|c rest]; [repeat split|].
  unfold insert_checks.
  destruct (insert_check_rows_prefix (c :: rest) db)
    as (n & _ & Hl & Hs & Hp & _). auto.
Qed.

(** C5, as the spec has it, on two checks of which the second names a log
    row that does not exist: the second insert fails on the foreign key, the
    call raises, and the row of the first check is still there. *)
Lemma insert_checks_keeps_rows_before_failure :
  let r := insert_checks [check_for 1 answer_clear; check_for 2 answer_match]
             one_log_db in
  fst r = Raise IntegrityError
  /\ eval_checks (snd r)
     = [{| row_id := 1;
           row_values := check_params false (check_for 1 answer_clear) |}]
  /\ eval_checks (snd r) <> eval_checks one_log_db.
Proof.
  split; [reflexivity|]. split; [reflexivity|]. discriminate.
Qed.

(** C5, amended.  On an empty sequence [insert_checks] does nothing: it
    sends no statement and returns.  On a non-empty sequence it inserts the
    rows one by one in the given order, every insert being persisted on its
    own: when it returns, all the rows are there; when an insert fails, the
    call raises, the rows inserted before the failing one are there, and
    neither the failing row nor those after it are.  The table [llm_logs] is
    not touched. *)
Theorem insert_checks_row_by_row (checks : list CheckResult) (db : Database) :
  insert_checks [] db = (Ok (), db)
  /\ let r := insert_checks checks db in
     exists n,
       eval_checks (snd r)
       = eval_checks db
         ++ check_rows (is_postgres db) (eval_checks_seq db) (take n checks)
       /\ llm_logs (snd r) = llm_logs db
       /\ (fst r = Ok () -> n = length checks)
       /\ (forall e, fst r = Raise e -> (n < length checks)%nat).
Proof.
  split; [reflexivity|].
  destruct checks as [|c rest].
  - exists O. simpl. rewrite app_nil_r.
    repeat split; [intros e; discriminate].
  - unfold insert_checks.
    destruct (insert_check_rows_prefix (c :: rest) db)
      as (n & Hn & Hl & _ & _ & Hok & Herr).
    exists n. auto.
Qed.

(** ** runner.py: a failure after the log row is stored *)

Lemma insert_log_spec decimal_str (rec : LLMLogRecord) (db db1 : Database) (id : Z) :
  Db.insert_log decimal_str rec db = (Ok id, db1) ->
  id = llm_logs_seq db + 1
  /\ llm_logs db1
     = llm_logs db
       ++ [{| row_id := id;
              row_values := Db.log_params decimal_str (is_postgres db) rec |}]
  /\ llm_logs_seq db1 = id
  /\ eval_checks db1 = eval_checks db
  /\ is_postgres db1 = is_postgres db.
Proof.
  unfold Db.insert_log, Db.execute_insert_log, eff_bind.
  pose proof (reach_keeps db) as (H1 & H2 & H3 & H4 & H5).
  destruct (Db.reach db) as [[[]|e] db0]; simpl in *; [|discriminate].
  destruct (is_postgres db0) eqn:Epg.
  - set (db2 := Db.add_log db0 _).
    pose proof (reach_keeps db2) as (G1 & G2 & G3 & G4 & G5).
    destruct (Db.reach db2) as [[[]|e] db3]; simpl in *; [|discriminate].
    intros H. injection H as <- <-.
    rewrite G2, G4, G3, G1, H2, H4, H3.
    split; [reflexivity|]. split; [reflexivity|]. split; [reflexivity|].
    split; [reflexivity | congruence].
  - intros H. injection H as <- <-. simpl.
    rewrite H2, H4, H3.
    split; [reflexivity|]. split; [reflexivity|]. split; [reflexivity|].
    split; [reflexivity | congruence].
Qed.

Lemma mark_processed_raise_keeps (src : LocalDirectorySource) (path : Path)
    (fs : FS) (e : Exn) :
  fst (Sources.mark_processed src path fs) = Raise e ->
  snd (Sources.mark_processed src path fs) = fs.
Proof.
  unfold Sources.mark_processed.
  destruct (Fs.with_name path _) as [target|e0]; [|reflexivity].
  destruct (Sources.free_target _ fs target) as [[target'|e1]|]; try reflexivity.
  unfold Fs.rename.
  destruct (fs !! parent path) as [[entries|]|]; try reflexivity.
  destruct (entries !! name path) as [[c|]|]; [| |reflexivity];
    destruct (entries !! name target') as [[c'|]|]; simpl; try reflexivity;
    discriminate.
Qed.

Section ProcessFile.

Variable json_loads : string -> Result json.
Variable py_repr : json -> string.
Variable fnmatch : string -> string -> bool.
Variable decimal_str : Decimal -> string.
Variable genai_prices :
  option (Z -> Z -> option string -> option string
          -> Result (Decimal * Decimal * Decimal)).

Abbreviation process_file := (process_file json_loads py_repr decimal_str genai_prices).
Abbreviation process_steps := (process_steps json_loads py_repr decimal_str genai_prices).

(** The [try] block, step by step. *)
Lemma process_steps_flat (source : LocalDirectorySource) (path : Path)
    (debug : bool) (w : World) :
  process_steps source path debug w
  = match Parser.parse_log_file json_loads py_repr (fs w) path with
    | Raise e => (Raise e, w)
    | Ok rec0 =>
        let out0 := said debug (DebugFile path (priced genai_prices rec0)) (console w) in
        match Db.insert_log decimal_str (priced genai_prices rec0) (db w) with
        | (Raise e, db1) => (Raise e, {| fs := fs w; db := db1; console := out0 |})
        | (Ok id, db1) =>
            match Evaluator.evaluate json_loads id (priced genai_prices rec0) with
            | Raise e => (Raise e, {| fs := fs w; db := db1; console := out0 |})
            | Ok checks =>
                match Db.insert_checks checks db1 with
                | (Raise e, db2) =>
                    (Raise e, {| fs := fs w; db := db2; console := out0 |})
                | (Ok _, db2) =>
                    let out1 :=
                      said debug
                        (DebugChecks id (length checks)
                           (count_passed (Some true) checks)
                           (count_passed (Some false) checks)
                           (count_passed None checks)) out0 in
                    match Sources.mark_processed source path (fs w) with
                    | (Raise e, fs') =>
                        (Raise e, {| fs := fs'; db := db2; console := out1 |})
                    | (Ok _, fs') =>
                        (Ok id, {| fs := fs'; db := db2;
                                   console := said debug DebugRenamed out1 |})
                    end
                end
            end
        end
    end.
Proof.
  unfold Runner.process_steps, eff_bind, priced.
  destruct (Parser.parse_log_file json_loads py_repr (fs w) path) as [rec0|e];
    [|reflexivity].
  set (rec := match _calc_prices _ _ _ _ _ with Some _ => _ | None => _ end).
  unfold on_db, on_fs, pure_step, print_if, print, eff_ret, said.
  destruct w as [wfs wdb wout].
  destruct debug; cbn [fs db console];
    (destruct (Db.insert_log decimal_str rec wdb) as [[id|e] db1]; [|reflexivity]);
    cbn [fs db console];
    (destruct (Evaluator.evaluate json_loads id rec) as [checks|e]; [|reflexivity]);
    cbn [fs db console];
    (destruct (Db.insert_checks checks db1) as [[[]|e] db2]; [|reflexivity]);
    cbn [fs db console];
    (destruct (Sources.mark_processed source path wfs) as [[t|e] fs']; reflexivity).
Qed.

(** C10. When the file parses and [insert_log] returns, and then
    [insert_checks] or [mark_processed] raises, [process_file] returns
    [None] and raises nothing; the log row is in [llm_logs]; the files are
    as they were, so the file is listed again by the next drain; the failure
    is printed.  When the file is processed again and this succeeds, the
    store holds two log rows with the same values under two ids. *)
Theorem failure_after_insert_log
    (source : LocalDirectorySource) (path : Path) (debug : bool) (w : World)
    (rec0 : LLMLogRecord) (id : Z) (db1 : Database)
    (checks : list CheckResult) (e : Exn) :
  Parser.parse_log_file json_loads py_repr (fs w) path = Ok rec0 ->
  Db.insert_log decimal_str (priced genai_prices rec0) (db w) = (Ok id, db1) ->
  Evaluator.evaluate json_loads id (priced genai_prices rec0) = Ok checks ->
  (fst (Db.insert_checks checks db1) = Raise e
   \/ fst (Db.insert_checks checks db1) = Ok ()
      /\ fst (Sources.mark_processed source path (fs w)) = Raise e) ->
  let row i :=
    {| row_id := i;
       row_values :=
         Db.log_params decimal_str (is_postgres (db w)) (priced genai_prices rec0) |} in
  exists w',
    process_file source path debug w = (None, w')
    /\ In (row id) (llm_logs (db w'))
    /\ fs w' = fs w
    /\ Sources.iter_files fnmatch source (fs w')
       = Sources.iter_files fnmatch source (fs w)
    /\ last (console w') = Some (Failed path e)
    /\ forall id2 w'',
         process_file source path debug w' = (Some id2, w'') ->
         id2 <> id
         /\ In (row id) (llm_logs (db w''))
         /\ In (row id2) (llm_logs (db w'')).
Proof.
  intros Hparse Hlog Heval Hlater row.
  pose proof (insert_log_spec _ _ _ _ _ Hlog) as (Hid & Hrows & Hseq & _ & Hpg).
  pose proof (insert_checks_keeps_logs checks db1) as (Kl & Ks & Kp).
  assert (Hw : exists out,
    process_file source path debug w
    = (None, {| fs := fs w; db := snd (Db.insert_checks checks db1);
                console := out ++ [Failed path e] |})).
  { unfold Runner.process_file. rewrite process_steps_flat.
    rewrite Hparse. cbn zeta. rewrite Hlog, Heval.
    destruct (Db.insert_checks checks db1) as [[[]|e1] db2] eqn:Hic;
      simpl in Hlater |- *.
    - destruct Hlater as [H|[_ H]]; [discriminate|].
      pose proof (mark_processed_raise_keeps _ _ _ _ H) as Hfs.
      destruct (Sources.mark_processed source path (fs w)) as [[t|e1] fs'].
      + discriminate.
      + simpl in H, Hfs. injection H as ->. subst fs'.
        eexists. reflexivity.
    - destruct Hlater as [H|[H _]]; [|discriminate].
      injection H as ->. eexists. reflexivity. }
  destruct Hw as [out Hw]. eexists. split; [exact Hw|].
  cbn [fs db console].
  split; [rewrite Kl, Hrows; apply in_or_app; right; left; reflexivity|].
  split; [reflexivity|]. split; [reflexivity|].
  split; [apply last_snoc|].
  intros id2 w'' Hagain.
  unfold Runner.process_file in Hagain. rewrite process_steps_flat in Hagain.
  cbn [fs db console] in Hagain. rewrite Hparse in Hagain. cbn zeta in Hagain.
  destruct (Db.insert_log decimal_str (priced genai_prices rec0)
              (snd (Db.insert_checks checks db1))) as [[id2'|e2] db3] eqn:Hlog2;
    [|discriminate].
  pose proof (insert_log_spec _ _ _ _ _ Hlog2) as (Hid2 & Hrows2 & _ & _ & Hpg2).
  destruct (Evaluator.evaluate json_loads id2' (priced genai_prices rec0)) as [checks2|e2];
    [|discriminate].
  pose proof (insert_checks_keeps_logs checks2 db3) as (Ll & _ & _).
  destruct (Db.insert_checks checks2 db3) as [[[]|e2] db4]; [|discriminate].
  destruct (Sources.mark_processed source path (fs w)) as [[t|e2] fs'];
    [|discriminate].
  injection Hagain as <- <-. cbn [db]. simpl in Ll.
  rewrite Ll, Hrows2, Kl, Hrows, Kp, Hpg.
  split; [lia|]. fold (row id). fold (row id2').
  split; apply in_or_app.
  - left. apply in_or_app. right. left. reflexivity.
  - right. left. reflexivity.
Qed.

End ProcessFile.

Lemma failure_after_insert_log_witness :
  let process :=
    process_file report_loads (fun _ => "") (fun _ => "") None
      underscore_source run_path false in
  exists w' w'',
    process flaky_world = (None, w')
    /\ fs w' = fs flaky_world
    /\ last (console w') = Some (Failed run_path OperationalError)
    /\ process w' = (Some 2, w'')
    /\ In (report_row 1) (llm_logs (db w''))
    /\ In (report_row 2) (llm_logs (db w'')).
Proof.
  intros process.
  edestruct (failure_after_insert_log report_loads (fun _ => "")
               (fun _ _ => true) (fun _ => "") None
               underscore_source run_path false
               flaky_world)
    as (w' & H1 & _ & Hfs & _ & Hlast & Hdup).
  - reflexivity.
  - reflexivity.
  - reflexivity.
  - left. reflexivity.
  - assert (H1' := H1). vm_compute in H1'. injection H1' as H1'.
    destruct (process w') as [o w''] eqn:E2.
    assert (Ho : o = Some 2)
      by (rewrite <- H1' in E2; vm_compute in E2; congruence).
    subst o. exists w', w''.
    split; [exact H1|]. split; [exact Hfs|]. split; [exact Hlast|].
    split; [exact E2|].
    destruct (Hdup 2 w'' E2) as (_ & Hr1 & Hr2).
    split; [exact Hr1 | exact Hr2].
Defined.

(** * More properties *)

(** ** evaluator.py: the other checks *)

(** What [evaluate] returns, check by check. *)
Lemma evaluate_checks json_loads id rec :
  let answer := Py.or_empty (assistant_answer rec) in
  let prompt := Py.or_empty (user_prompt rec) in
  let instr := Py.or_empty (instructions rec) in
  let n := count_search_calls json_loads (raw_json rec) in
  exists c1 c2 c3 c4 c5 c6 c7,
    evaluate json_loads id rec = Ok [c1; c2; c3; c4; c5; c6; c7]
    /\ passed c1
       = (if Py.contains "references" (Py.lower instr)
          then Some (has_references answer) else None)
    /\ passed c2
       = (if requires_search_bounds instr
          then Some ((3 <=? n)%nat && (n <=? 6)%nat) else None)
    /\ passed c3
       = (if Py.nonempty answer
          then Some ((40 <=? token_count answer)%nat
                     && Qle_bool (avg_sent_len answer) 35)
          else None)
    /\ passed c4
       = (if Py.nonempty answer && Py.nonempty prompt
          then Some (Qle_bool (8 # 100) (jaccard prompt answer)) else None)
    /\ passed c5
       = (if Py.nonempty answer
          then Some (Py.contains "http://" answer || Py.contains "https://" answer
                     || Py.contains "references" (Py.lower answer))
          else None)
    /\ passed c6
       = (if Py.nonempty answer
          then Some ((120 <=? token_count answer)%nat || Py.search_bullet answer)
          else None)
    /\ passed c7 = Some (0 <? n)%nat
    /\ map score [c1; c2; c3; c4; c5; c6; c7]
       = [None; None; None; Some (jaccard prompt answer); None; None; None]
    /\ map check_name [c1; c2; c3; c4; c5; c6; c7]
       = [instructions_follow; instructions_avoid; answer_clear; answer_match;
          answer_citations; completeness; tool_call_search].
Proof.
  intros answer prompt instr n. unfold evaluate.
  fold answer. fold prompt. fold instr. fold n.
  assert (Havg :
    match sentences_of answer with
    | [] => Ok 0%Q
    | _ :: _ => truediv (Z.of_nat (length (_tokenize answer)))
                  (Z.of_nat (Nat.max 1 (length (sentences_of answer))))
    end = Ok (avg_sent_len answer)).
  { unfold avg_sent_len. destruct (sentences_of answer) eqn:E; [reflexivity|].
    apply truediv_guarded. }
  rewrite Havg. cbn [mbind Result_bind].
  rewrite truediv_guarded. cbn [mbind Result_bind].
  do 7 eexists. split; [reflexivity|].
  cbn [passed score check_name map].
  split; [reflexivity|]. split; [reflexivity|]. split; [reflexivity|].
  split; [reflexivity|]. split; [reflexivity|]. split; [reflexivity|].
  split; [reflexivity|]. split; reflexivity.
Qed.

(** *** Counting the searches of a well-formed trace *)

Lemma scan_part_object (p : dict) (n : nat) :
  scan_part (JDict p) n = Ok (if is_search p then S n else n).
Proof.
  unfold scan_part, is_search. simpl.
  destruct (Json.dict_get "tool_name" p) as [[| | | |s| |]|]; reflexivity.
Qed.

Lemma scan_parts_counts (ps : list dict) (n : nat) :
  scan_parts (map JDict ps) n = ((n + length (List.filter is_search ps))%nat, None).
Proof.
  revert n. induction ps as [|p ps IH]; intros n.
  - simpl. rewrite Nat.add_0_r. reflexivity.
  - cbn [map scan_parts List.filter]. rewrite scan_part_object, IH.
    destruct (is_search p); cbn [length]; f_equal; lia.
Qed.

Lemma scan_message_parts (msg : json) (ps : list dict) :
  message_with_parts msg ps ->
  (parts ← Json.get_default "parts" (JList []) msg;
   Json.iter (Json.or_else parts (JList []))) = Ok (map JDict ps).
Proof.
  intros (md & -> & [H | [-> H]]); simpl.
  - rewrite H. simpl. destruct ps; reflexivity.
  - destruct (Json.dict_get "parts" md) as [v|]; simpl in *; [|reflexivity].
    unfold Json.or_else. rewrite H. reflexivity.
Qed.

Lemma scan_messages_counts (msgs : list json) (messages : list (list dict)) (n : nat) :
  Forall2 message_with_parts msgs messages ->
  scan_messages msgs n = ((n + searches messages)%nat, None).
Proof.
  intros H. revert n. unfold searches.
  induction H as [|msg ps msgs messages Hm _ IH]; intros n.
  - simpl. rewrite Nat.add_0_r. reflexivity.
  - cbn [scan_messages]. rewrite (scan_message_parts _ _ Hm).
    rewrite scan_parts_counts, IH. cbn [concat].
    rewrite List.filter_app, length_app. f_equal. lia.
Qed.

Lemma falsy_iterates_nothing (v : json) :
  Json.truthy v = false ->
  match Json.iter v with Ok l => l = [] | Raise _ => True end.
Proof.
  destruct v as [| | | |s|l|d]; simpl; try exact (fun _ => I).
  - destruct s; [reflexivity | discriminate].
  - destruct l; [reflexivity | discriminate].
  - destruct d; [reflexivity | discriminate].
Qed.

Lemma count_search_calls_well_formed
    json_loads (raw : string) (d : dict) (msgs : list json)
    (messages : list (list dict)) :
  raw <> "" ->
  json_loads raw = Ok (JDict d) ->
  messages_are d msgs ->
  Forall2 message_with_parts msgs messages ->
  count_search_calls json_loads (Some raw) = searches messages.
Proof.
  intros Hraw Hdoc Hm Hall. unfold count_search_calls, loads_or_empty.
  destruct raw as [|c raw]; [congruence|]. rewrite Hdoc. simpl.
  destruct Hm as [Hm | [-> Hm]].
  - rewrite Hm. simpl. rewrite (scan_messages_counts _ _ _ Hall). reflexivity.
  - inversion Hall; subst.
    destruct (Json.dict_get "messages" d) as [v|]; simpl in *; [|reflexivity].
    pose proof (falsy_iterates_nothing v Hm) as Hv.
    destruct (Json.iter v) as [l|e]; [subst l|]; reflexivity.
Qed.

(** X1. On a trace that decodes to an object whose messages are objects
    with lists of part objects, the number of search calls the evaluator
    finds is the number of parts whose [tool_name] is "search", and
    [tool_call_search], the seventh check, passes exactly when there is
    one. *)
Theorem tool_call_search_counts_parts
    (json_loads : string -> Result json) (id : Z) (rec : LLMLogRecord)
    (raw : string) (d : dict) (msgs : list json) (messages : list (list dict)) :
  raw_json rec = Some raw ->
  raw <> "" ->
  json_loads raw = Ok (JDict d) ->
  messages_are d msgs ->
  Forall2 message_with_parts msgs messages ->
  count_search_calls json_loads (raw_json rec) = searches messages
  /\ exists checks c,
       evaluate json_loads id rec = Ok checks
       /\ checks !! 6%nat = Some c
       /\ check_name c = tool_call_search
       /\ (passed c = Some true <-> (1 <= searches messages)%nat)
       /\ (passed c = Some false <-> searches messages = O).
Proof.
  intros Hrec Hraw Hdoc Hm Hall.
  assert (Hn : count_search_calls json_loads (raw_json rec) = searches messages)
    by (rewrite Hrec; eapply count_search_calls_well_formed; eassumption).
  split; [exact Hn|].
  destruct (evaluate_checks json_loads id rec)
    as (c1 & c2 & c3 & c4 & c5 & c6 & c7 & He & _ & _ & _ & _ & _ & _ & H7 & _ & Hn7).
  exists [c1; c2; c3; c4; c5; c6; c7], c7.
  split; [exact He|]. split; [reflexivity|].
  split; [injection Hn7; auto|].
  rewrite H7, Hn.
  destruct (searches messages) as [|k]; simpl; split; split;
    intros H; try reflexivity; try discriminate; try lia.
Qed.

Lemma tool_call_search_counts_parts_witness :
  count_search_calls (fun _ => Ok (JDict trace_doc)) (Some "{}") = 1%nat.
Proof.
  apply (tool_call_search_counts_parts (fun _ => Ok (JDict trace_doc)) 1
           {| filepath := "logs/run.json"; agent_name := None; provider := None;
              model := None; user_prompt := None; instructions := None;
              total_input_tokens := None; total_output_tokens := None;
              assistant_answer := None; raw_json := Some "{}";
              input_cost := None; output_cost := None; total_cost := None |}
           "{}" trace_doc trace_msgs trace_messages).
  - reflexivity.
  - discriminate.
  - reflexivity.
  - left. reflexivity.
  - repeat constructor;
      (eexists; split; [reflexivity|]);
      first [left; reflexivity | right; split; reflexivity].
Defined.

(** *** The score *)

Lemma jaccard_bounds (prompt answer : string) :
  (0 <= jaccard prompt answer)%Q /\ (jaccard prompt answer <= 1)%Q.
Proof.
  unfold jaccard, token_overlap, token_union.
  set (A := token_set prompt). set (B := token_set answer).
  assert (Hle : (size (A ∩ B) <= size (A ∪ B))%nat)
    by (apply subseteq_size; transitivity A;
        [apply intersection_subseteq_l | apply union_subseteq_l]).
  unfold Qle. simpl. rewrite Z2Pos.id by lia. split; lia.
Qed.

(** X2. Of the seven results only [answer_match] carries a score, and that
    score lies between 0 and 1, whatever the record. *)
Theorem only_answer_match_is_scored
    (json_loads : string -> Result json) (id : Z) (rec : LLMLogRecord) :
  exists checks,
    evaluate json_loads id rec = Ok checks
    /\ Forall (fun c =>
                 match score c with
                 | Some q => check_name c = answer_match
                             /\ (0 <= q)%Q /\ (q <= 1)%Q
                 | None => check_name c <> answer_match
                 end) checks.
Proof.
  destruct (evaluate_checks json_loads id rec)
    as (c1 & c2 & c3 & c4 & c5 & c6 & c7 & He & _ & _ & _ & _ & _ & _ & _ & Hs & Hn).
  exists [c1; c2; c3; c4; c5; c6; c7]. split; [exact He|].
  injection Hs as S1 S2 S3 S4 S5 S6 S7.
  injection Hn as N1 N2 N3 N4 N5 N6 N7.
  pose proof (jaccard_bounds (Py.or_empty (user_prompt rec))
                (Py.or_empty (assistant_answer rec))) as [H0 H1].
  constructor; [rewrite S1, N1; discriminate|].
  constructor; [rewrite S2, N2; discriminate|].
  constructor; [rewrite S3, N3; discriminate|].
  constructor; [rewrite S4, N4; split; [reflexivity | split; assumption]|].
  constructor; [rewrite S5, N5; discriminate|].
  constructor; [rewrite S6, N6; discriminate|].
  constructor; [rewrite S7, N7; discriminate|].
  constructor.
Qed.

(** *** Tokens *)

Lemma lower_char_idempotent (c : ascii) :
  Py.lower_char (Py.lower_char c) = Py.lower_char c.
Proof. destruct c as [[] [] [] [] [] [] [] []]; reflexivity. Qed.

Lemma lower_idempotent (s : string) : Py.lower (Py.lower s) = Py.lower s.
Proof.
  induction s as [|c s IH]; [reflexivity|].
  simpl. rewrite lower_char_idempotent, IH. reflexivity.
Qed.

Lemma lowered_word_is_lower (c : ascii) :
  Py.is_word (Py.lower_char c) = true -> is_lower_word (Py.lower_char c) = true.
Proof. destruct c as [[] [] [] [] [] [] [] []]; vm_compute; congruence. Qed.

Lemma all_chars_of_list (p : ascii -> bool) (l : list ascii) :
  Forall (fun c => p c = true) l -> all_chars p (string_of_list_ascii l) = true.
Proof.
  induction 1 as [|c l Hc _ IH]; [reflexivity|]. simpl. rewrite Hc, IH. reflexivity.
Qed.

Lemma string_of_list_nonempty (l : list ascii) :
  l <> [] -> string_of_list_ascii (rev l) <> "".
Proof.
  intros Hl H. apply (f_equal list_ascii_of_string) in H.
  rewrite list_ascii_of_string_of_list_ascii in H. simpl in H.
  apply (f_equal (@rev ascii)) in H. rewrite rev_involutive in H. auto.
Qed.

Lemma findall_words_lowered (s : string) (cur : list ascii) :
  Forall (fun c => is_lower_word c = true) cur ->
  Forall (fun t => t <> "" /\ all_chars is_lower_word t = true)
    (Py.findall_words_from (Py.lower s) cur).
Proof.
  revert cur. induction s as [|c s IH]; intros cur Hcur; simpl.
  - destruct cur as [|x cur]; [constructor|].
    constructor; [|constructor]. split.
    + apply string_of_list_nonempty. discriminate.
    + apply all_chars_of_list. apply Forall_rev. exact Hcur.
  - destruct (Py.is_word (Py.lower_char c)) eqn:E.
    + apply IH. constructor; [apply lowered_word_is_lower; exact E | exact Hcur].
    + destruct cur as [|x cur]; [apply IH; constructor|].
      constructor; [|apply IH; constructor]. split.
      * apply string_of_list_nonempty. discriminate.
      * apply all_chars_of_list. apply Forall_rev. exact Hcur.
Qed.

(** X3. Every token [_tokenize] returns is a non-empty run of lower-case
    letters, digits and underscores, and the tokens of a text are those of
    its lower-cased form: tokenization, hence [answer_match], does not see
    the case of the letters. *)
Theorem tokenize_lower_case_words (text : string) :
  Forall (fun t => t <> "" /\ all_chars is_lower_word t = true) (_tokenize text)
  /\ _tokenize (Py.lower text) = _tokenize text
  /\ forall other, jaccard (Py.lower text) other = jaccard text other
                   /\ jaccard other (Py.lower text) = jaccard other text.
Proof.
  split; [apply findall_words_lowered; constructor|].
  assert (H : _tokenize (Py.lower text) = _tokenize text)
    by (unfold _tokenize; rewrite lower_idempotent; reflexivity).
  split; [exact H|].
  intros other. unfold jaccard, token_overlap, token_union, token_set.
  rewrite H. split; reflexivity.
Qed.

(** *** How the checks go together *)

(** X4. When [instructions_avoid] passes, [tool_call_search] passes; when
    [instructions_follow] is applicable and there is an answer, it gives the
    verdict of [answer_citations]. *)
Theorem checks_agree
    (json_loads : string -> Result json) (id : Z) (rec : LLMLogRecord) :
  exists c1 c2 c3 c4 c5 c6 c7,
    evaluate json_loads id rec = Ok [c1; c2; c3; c4; c5; c6; c7]
    /\ (passed c2 = Some true -> passed c7 = Some true)
    /\ (passed c1 <> None -> passed c5 <> None -> passed c1 = passed c5).
Proof.
  destruct (evaluate_checks json_loads id rec)
    as (c1 & c2 & c3 & c4 & c5 & c6 & c7 & He & H1 & H2 & _ & _ & H5 & _ & H7 & _).
  exists c1, c2, c3, c4, c5, c6, c7. split; [exact He|].
  rewrite H1, H2, H5, H7. split.
  - destruct (requires_search_bounds _); [|discriminate].
    destruct (count_search_calls json_loads (raw_json rec)) as [|[|[|k]]];
      simpl; intros H; try discriminate H; reflexivity.
  - destruct (Py.contains "references" (Py.lower (Py.or_empty (instructions rec))));
      [|congruence].
    destruct (Py.nonempty (Py.or_empty (assistant_answer rec))); [|congruence].
    intros _ _. unfold has_references. f_equal.
    destruct (Py.contains "references" _), (Py.contains "http://" _),
             (Py.contains "https://" _); reflexivity.
Qed.

Lemma checks_agree_witness :
  exists c1 c2 c3 c4 c5 c6 c7,
    evaluate (fun _ => Ok three_searches) 1 bounded_record
    = Ok [c1; c2; c3; c4; c5; c6; c7]
    /\ passed c2 = Some true /\ passed c7 = Some true.
Proof.
  destruct (checks_agree (fun _ => Ok three_searches) 1 bounded_record)
    as (c1 & c2 & c3 & c4 & c5 & c6 & c7 & He & Himp & _).
  exists c1, c2, c3, c4, c5, c6, c7. split; [exact He|].
  assert (H2 : passed c2 = Some true).
  { pose proof He as He'. vm_compute in He'.
    injection He' as _ E2 _ _ _ _ _. rewrite <- E2. reflexivity. }
  split; [exact H2 | exact (Himp H2)].
Defined.

(** X5. For a record without an answer (null or empty) the four checks on
    the answer, [answer_clear], [answer_match], [answer_citations] and
    [completeness], are not applicable, and [instructions_follow] does not
    pass: it fails when the instructions mention references and is not
    applicable otherwise. *)
Theorem no_answer_no_verdict
    (json_loads : string -> Result json) (id : Z) (rec : LLMLogRecord) :
  Py.or_empty (assistant_answer rec) = "" ->
  exists c1 c2 c3 c4 c5 c6 c7,
    evaluate json_loads id rec = Ok [c1; c2; c3; c4; c5; c6; c7]
    /\ passed c3 = None /\ passed c4 = None
    /\ passed c5 = None /\ passed c6 = None
    /\ passed c1
       = (if Py.contains "references" (Py.lower (Py.or_empty (instructions rec)))
          then Some false else None).
Proof.
  intros Hempty.
  destruct (evaluate_checks json_loads id rec)
    as (c1 & c2 & c3 & c4 & c5 & c6 & c7 & He & H1 & _ & H3 & H4 & H5 & H6 & _).
  exists c1, c2, c3, c4, c5, c6, c7. split; [exact He|].
  rewrite H1, H3, H4, H5, H6, Hempty. repeat split.
Qed.

Lemma no_answer_no_verdict_witness :
  exists checks,
    evaluate no_decoder 1 (record_with (Some "cite your references") (Some ""))
    = Ok checks
    /\ map passed checks = [None; None; None; None; None; None; Some false].
Proof.
  destruct (no_answer_no_verdict no_decoder 1
              (record_with (Some "cite your references") (Some "")) eq_refl)
    as (c1 & c2 & c3 & c4 & c5 & c6 & c7 & He & H3 & H4 & H5 & H6 & H1).
  eexists. split; [exact He|].
  cbn [map]. rewrite H3, H4, H5, H6, H1.
  assert (E : evaluate no_decoder 1
                (record_with (Some "cite your references") (Some ""))
              = Ok [c1; c2; c3; c4; c5; c6; c7]) by exact He.
  vm_compute in E. injection E as <- <- <- <- <- <- <-. reflexivity.
Defined.

(** ** parser.py: the fields of the record *)

Lemma first_return_pure {A B} (g : A -> option B) (l : list A) :
  first_return (fun x => Ok (g x)) l = Ok (head (omap g l)).
Proof.
  induction l as [|x l IH]; [reflexivity|].
  simpl. destruct (g x); [reflexivity | exact IH].
Qed.

Lemma head_omap_app {A B} (g : A -> option B) (l k : list A) :
  head (omap g (l ++ k))
  = match head (omap g l) with Some b => Some b | None => head (omap g k) end.
Proof.
  induction l as [|x l IH]; [reflexivity|].
  simpl. destruct (g x); [reflexivity | exact IH].
Qed.

(** Two nested loops over the parts of the messages that return at the first
    part [g] accepts. *)
Lemma first_return_parts {B} (body : json -> Result (option B))
    (g : dict -> option B) (msgs : list json) (messages : list (list dict)) :
  (forall p, body (JDict p) = Ok (g p)) ->
  Forall2 message_with_parts msgs messages ->
  first_return (fun msg => parts ← parts_of msg; first_return body parts) msgs
  = Ok (head (omap g (concat messages))).
Proof.
  intros Hbody. induction 1 as [|msg ps msgs messages Hm _ IH]; [reflexivity|].
  cbn [first_return concat]. rewrite (parts_of_message _ _ Hm).
  cbn [mbind Result_bind].
  assert (Hps : first_return body (map JDict ps) = Ok (head (omap g ps))).
  { clear -Hbody. induction ps as [|p ps IH]; [reflexivity|].
    simpl. rewrite Hbody. simpl. destruct (g p); [reflexivity | exact IH]. }
  rewrite Hps, head_omap_app. cbn [mbind Result_bind].
  destruct (head (omap g ps)); [reflexivity | exact IH].
Qed.

(** Case analysis along a [match] on a literal. *)
Ltac walk_match :=
  repeat match goal with
         | |- context [match ?x with _ => _ end] =>
             is_var x; destruct x; try reflexivity
         end.

Lemma tagged_prompt_body py_repr (p : dict) :
  (kind ← Json.get "part_kind" (JDict p);
   match kind with
   | JStr "user-prompt" =>
       content ← Json.get "content" (JDict p);
       Ok (if Json.truthy content then Some (py_str py_repr content) else None)
   | _ => Ok None
   end) = Ok (tagged_prompt py_repr p).
Proof.
  unfold tagged_prompt, truthy_str, field. cbn [Json.get mbind Result_bind].
  generalize (default JNull (Json.dict_get "part_kind" p)).
  generalize (default JNull (Json.dict_get "content" p)).
  intros c k. walk_match.
Qed.

Lemma get_first_user_prompt_spec py_repr (msgs : list json)
    (messages : list (list dict)) :
  Forall2 message_with_parts msgs messages ->
  _get_first_user_prompt py_repr (JList msgs) = Ok (prompt_of py_repr messages).
Proof.
  intros Hall. unfold _get_first_user_prompt, prompt_of.
  cbn [Json.iter mbind Result_bind].
  rewrite (first_return_parts _ (tagged_prompt py_repr) _ _
             (tagged_prompt_body py_repr) Hall).
  cbn [mbind Result_bind].
  destruct (head (omap (tagged_prompt py_repr) (concat messages)));
    [reflexivity|].
  apply (first_return_parts _
           (fun p => Json.dict_get "content" p ≫= Json.as_str) _ _); [|exact Hall].
  intros p. simpl. destruct (Json.dict_get "content" p); reflexivity.
Qed.

Lemma message_is_object (msg : json) (ps : list dict) :
  message_with_parts msg ps -> exists md, msg = JDict md.
Proof. intros (md & -> & _). eauto. Qed.

Lemma model_names_spec py_repr (msgs : list json) :
  Forall (fun msg => is_object msg = true) msgs ->
  first_return (fun msg =>
      name ← Json.get "model_name" msg;
      Ok (if Json.truthy name then Some (py_str py_repr name) else None)) msgs
  = Ok (head (omap (fun msg => truthy_str py_repr (field_of "model_name" msg)) msgs)).
Proof.
  induction 1 as [|msg msgs Hm _ IH]; [reflexivity|].
  destruct msg; try discriminate. cbn [first_return Json.get mbind Result_bind].
  cbn [omap list_omap field_of]. unfold truthy_str at 1, field.
  destruct (Json.truthy (default JNull (Json.dict_get "model_name" d)));
    [reflexivity | exact IH].
Qed.

Lemma get_model_spec py_repr (d : dict) (msgs : list json) :
  messages_are d msgs ->
  Forall (fun msg => is_object msg = true) msgs ->
  _get_model py_repr (JDict d) = Ok (model_of py_repr d msgs).
Proof.
  intros Hm Hobj. unfold _get_model, model_of, truthy_str, field.
  cbn [Json.get mbind Result_bind].
  destruct (Json.truthy (default JNull (Json.dict_get "model" d))); [reflexivity|].
  rewrite (messages_of_document _ _ Hm). cbn [mbind Result_bind Json.reversed Json.iter].
  apply model_names_spec. apply Forall_rev. exact Hobj.
Qed.

Lemma get_instructions_spec py_repr (d : dict) (msgs : list json) :
  messages_are d msgs ->
  Forall (fun msg => is_object msg = true) msgs ->
  _get_instructions py_repr (JDict d) = Ok (instructions_of py_repr d msgs).
Proof.
  intros Hm Hobj. unfold _get_instructions, instructions_of.
  rewrite (messages_of_document _ _ Hm). cbn [mbind Result_bind].
  destruct Hobj as [|first rest Hfirst _].
  - cbn [Json.truthy mbind Result_bind Json.get]. unfold field.
    destruct (default JNull (Json.dict_get "system_prompt" d)); reflexivity.
  - destruct first as [| | | | | |fd]; try discriminate.
    cbn [Json.truthy item0 mbind Result_bind Json.get field_of].
    unfold truthy_str, field.
    destruct (Json.truthy (default JNull (Json.dict_get "instructions" fd)));
      cbn [mbind Result_bind]; [reflexivity|].
    destruct (default JNull (Json.dict_get "system_prompt" d)); reflexivity.
Qed.

Lemma get_total_usage_spec (d : dict) :
  usage_ok d ->
  _get_total_usage (JDict d)
  = Ok (field "input_tokens" (usage_of d), field "output_tokens" (usage_of d)).
Proof.
  unfold usage_ok, usage_of, _get_total_usage, field.
  cbn [Json.get mbind Result_bind]. unfold Json.or_else.
  destruct (default JNull (Json.dict_get "usage" d)) as [| | | | | |u];
    try (intros ->; reflexivity).
  intros _. destruct u; reflexivity.
Qed.

Lemma extract_answer_spec (d : dict) (msgs : list json)
    (messages : list (list dict)) :
  messages_are d msgs ->
  Forall2 message_with_parts msgs messages ->
  _extract_answer (JDict d) = Ok (answer_of d messages).
Proof.
  intros Hm Hall. unfold _extract_answer, answer_of.
  pose proof (last_message_content_spec _ _ _ Hm Hall) as Hlast.
  cbn [Json.get mbind Result_bind].
  destruct (Json.dict_get "output" d) as [out|]; simpl; [|exact Hlast].
  destruct out as [| | | | | |o]; try exact Hlast.
  destruct (output_chunks o); [exact Hlast | reflexivity].
Qed.

Lemma parts_are_objects (msgs : list json) (messages : list (list dict)) :
  Forall2 message_with_parts msgs messages ->
  Forall (fun msg => is_object msg = true) msgs.
Proof.
  induction 1 as [|msg ps msgs messages (md & -> & _) _ IH]; constructor;
    [reflexivity | exact IH].
Qed.

(** X6. A document that decodes to an object whose messages are objects
    with lists of part objects, and whose [usage] is an object or absent,
    always parses: [parse_document] raises nothing, keeps the path and the
    raw text as they are, sets no cost, and fills every other field by its
    rule. *)
Theorem parse_document_well_formed
    (json_loads : string -> Result json) (py_repr : json -> string)
    (path raw : string) (d : dict) (msgs : list json)
    (messages : list (list dict)) :
  json_loads raw = Ok (JDict d) ->
  messages_are d msgs ->
  Forall2 message_with_parts msgs messages ->
  usage_ok d ->
  parse_document json_loads py_repr path raw
  = Ok {| filepath := path;
          agent_name := if Json.is_null (field "agent_name" d) then None
                        else Some (py_str py_repr (field "agent_name" d));
          provider := provider_of py_repr d;
          model := model_of py_repr d msgs;
          user_prompt := prompt_of py_repr messages;
          instructions := instructions_of py_repr d msgs;
          total_input_tokens := Json.as_int (field "input_tokens" (usage_of d));
          total_output_tokens := Json.as_int (field "output_tokens" (usage_of d));
          assistant_answer := answer_of d messages;
          raw_json := Some raw;
          input_cost := None; output_cost := None; total_cost := None |}.
Proof.
  intros Hdoc Hm Hall Hu. unfold parse_document.
  pose proof (parts_are_objects _ _ Hall) as Hobj.
  rewrite Hdoc. cbn [mbind Result_bind].
  rewrite (messages_of_document _ _ Hm). cbn [mbind Result_bind].
  rewrite (get_first_user_prompt_spec py_repr _ _ Hall). cbn [mbind Result_bind].
  rewrite (get_instructions_spec py_repr _ _ Hm Hobj). cbn [mbind Result_bind].
  rewrite (get_model_spec py_repr _ _ Hm Hobj). cbn [mbind Result_bind].
  rewrite (get_total_usage_spec _ Hu), (extract_answer_spec _ _ _ Hm Hall).
  cbn [Json.get mbind Result_bind]. fold (field "provider" d).
  fold (field "provider_name" d). fold (field "agent_name" d).
  unfold provider_of, Json.or_else.
  destruct (Json.truthy (field "provider" d)); reflexivity.
Qed.

Lemma parse_document_well_formed_witness :
  exists r,
    parse_document trace_loads (fun _ => "") "logs/run.json" "{}" = Ok r
    /\ user_prompt r = Some "hello"
    /\ assistant_answer r = Some "first"
    /\ raw_json r = Some "{}".
Proof.
  eexists. split.
  - apply (parse_document_well_formed trace_loads (fun _ => "") "logs/run.json"
             "{}" trace_doc trace_msgs trace_messages).
    + reflexivity.
    + left. reflexivity.
    + repeat constructor;
        (eexists; split; [reflexivity|]);
        first [left; reflexivity | right; split; reflexivity].
    + reflexivity.
  - split; [reflexivity|]. split; reflexivity.
Defined.

(** X7. On well-formed messages the user prompt is null when no part is
    tagged as user prompt with a content and no part has a string content;
    and the content of the first tagged part that has one is the prompt,
    whatever string contents the parts before it hold. *)
Theorem user_prompt_prefers_tagged_part
    (py_repr : json -> string) (msgs : list json) (messages : list (list dict)) :
  Forall2 message_with_parts msgs messages ->
  (Forall (fun p => tagged_prompt py_repr p = None
                    /\ Json.dict_get "content" p ≫= Json.as_str = None)
          (concat messages) ->
   _get_first_user_prompt py_repr (JList msgs) = Ok None)
  /\ forall before p after s,
       concat messages = before ++ p :: after ->
       Forall (fun q => tagged_prompt py_repr q = None) before ->
       tagged_prompt py_repr p = Some s ->
       _get_first_user_prompt py_repr (JList msgs) = Ok (Some s).
Proof.
  intros Hall. rewrite (get_first_user_prompt_spec py_repr _ _ Hall).
  unfold prompt_of, string_contents. split.
  - intros Hnone. induction Hnone as [|p l [Hp Hc] _ IH]; [reflexivity|].
    cbn [omap list_omap]. rewrite Hp, Hc. exact IH.
  - intros before p after s -> Hbefore Hp. rewrite head_omap_app.
    assert (Hb : head (omap (tagged_prompt py_repr) before) = None).
    { clear -Hbefore. induction Hbefore as [|q l Hq _ IH]; [reflexivity|].
      cbn [omap list_omap]. rewrite Hq. exact IH. }
    rewrite Hb. cbn [omap list_omap]. rewrite Hp. reflexivity.
Qed.

Lemma user_prompt_prefers_tagged_part_witness :
  _get_first_user_prompt (fun _ => "")
    (JList [JDict [("parts", JList
       [JDict [("content", JStr "system text")];
        JDict [("part_kind", JStr "user-prompt"); ("content", JStr "the question")]])]])
  = Ok (Some "the question")
  /\ _get_first_user_prompt (fun _ => "")
       (JList [JDict [("parts", JList [JDict [("tool_name", JStr "search")]])]])
     = Ok None.
Proof.
  split.
  - eapply (proj2 (user_prompt_prefers_tagged_part (fun _ => "") _
                     [[ [("content", JStr "system text")];
                        [("part_kind", JStr "user-prompt");
                         ("content", JStr "the question")] ]] _)
              [[("content", JStr "system text")]] _ [] "the question").
    + reflexivity.
    + repeat constructor.
    + reflexivity.
  - eapply (proj1 (user_prompt_prefers_tagged_part (fun _ => "") _
                     [[ [("tool_name", JStr "search")] ]] _)).
    repeat constructor.
  Unshelve.
  + repeat constructor. eexists. split; [reflexivity|]. left. reflexivity.
  + repeat constructor. eexists. split; [reflexivity|]. left. reflexivity.
Defined.

(** X8. A truthy top-level [model] is the model of the record whatever the
    messages are, even malformed ones; without it, on messages that are
    objects, the model is the [model_name] of the newest message that has
    one, and null when none has. *)
Theorem model_prefers_top_level
    (py_repr : json -> string) (d : dict) :
  (Json.truthy (field "model" d) = true ->
   _get_model py_repr (JDict d) = Ok (Some (py_str py_repr (field "model" d))))
  /\ forall msgs,
       Json.truthy (field "model" d) = false ->
       messages_are d msgs ->
       Forall (fun msg => is_object msg = true) msgs ->
       _get_model py_repr (JDict d)
       = Ok (head (omap (fun msg => truthy_str py_repr (field_of "model_name" msg))
                        (rev msgs))).
Proof.
  split.
  - intros Ht. unfold _get_model, field in *. cbn [Json.get mbind Result_bind].
    rewrite Ht. reflexivity.
  - intros msgs Hf Hm Hobj. rewrite (get_model_spec py_repr _ _ Hm Hobj).
    unfold model_of, truthy_str. rewrite Hf. reflexivity.
Qed.

Lemma model_prefers_top_level_witness :
  _get_model (fun _ => "") (JDict [("model", JStr "gpt-4o"); ("messages", JInt 5)])
  = Ok (Some "gpt-4o")
  /\ _get_model (fun _ => "")
       (JDict [("messages", JList [JDict [("model_name", JStr "old")];
                                   JDict [("model_name", JStr "new")];
                                   JDict [("kind", JStr "request")]])])
     = Ok (Some "new").
Proof.
  split.
  - apply (proj1 (model_prefers_top_level (fun _ => "")
                    [("model", JStr "gpt-4o"); ("messages", JInt 5)])).
    reflexivity.
  - apply (proj2 (model_prefers_top_level (fun _ => "")
                    [("messages", JList [JDict [("model_name", JStr "old")];
                                         JDict [("model_name", JStr "new")];
                                         JDict [("kind", JStr "request")]])])
             [JDict [("model_name", JStr "old")];
              JDict [("model_name", JStr "new")];
              JDict [("kind", JStr "request")]]).
    + reflexivity.
    + left. reflexivity.
    + repeat constructor.
Defined.



(** X10. [parse_log_file] raises [FileNotFoundError] for a path that does
    not exist and [IsADirectoryError] for a directory; it passes on the
    exception of the decoder; and it raises [AttributeError] when the text
    decodes to anything but an object. *)
Theorem parse_log_file_errors
    (json_loads : string -> Result json) (py_repr : json -> string)
    (fs : FS) (p : Path) :
  (Fs.lookup fs p = None ->
   parse_log_file json_loads py_repr fs p = Raise FileNotFoundError)
  /\ (Fs.lookup fs p = Some Directory ->
      parse_log_file json_loads py_repr fs p = Raise IsADirectoryError)
  /\ forall raw,
       Fs.lookup fs p = Some (RegularFile raw) ->
       (forall e, json_loads raw = Raise e ->
                  parse_log_file json_loads py_repr fs p = Raise e)
       /\ (forall doc, json_loads raw = Ok doc -> is_object doc = false ->
                       parse_log_file json_loads py_repr fs p = Raise AttributeError).
Proof.
  unfold parse_log_file, Fs.read_text.
  split; [intros ->; reflexivity|]. split; [intros ->; reflexivity|].
  intros raw ->. cbn [mbind Result_bind]. unfold parse_document. split.
  - intros e ->. reflexivity.
  - intros doc -> Hobj. destruct doc; try discriminate; reflexivity.
Qed.

Lemma parse_log_file_errors_witness :
  parse_log_file no_decoder (fun _ => "") marked_fs
    {| parent := "logs"; name := "missing.json" |} = Raise FileNotFoundError
  /\ parse_log_file no_decoder (fun _ => "") marked_fs run_path
     = Raise JSONDecodeError
  /\ parse_log_file (fun _ => Ok (JList [])) (fun _ => "") marked_fs run_path
     = Raise AttributeError.
Proof.
  split; [|split].
  - apply (proj1 (parse_log_file_errors no_decoder (fun _ => "") marked_fs
                    {| parent := "logs"; name := "missing.json" |})).
    reflexivity.
  - apply (proj1 (proj2 (proj2 (parse_log_file_errors no_decoder (fun _ => "")
                    marked_fs run_path)) "{}" eq_refl) JSONDecodeError).
    reflexivity.
  - apply (proj2 (proj2 (proj2 (parse_log_file_errors (fun _ => Ok (JList []))
                    (fun _ => "") marked_fs run_path)) "{}" eq_refl) (JList [])).
    + reflexivity.
    + reflexivity.
Defined.

(** ** sources.py: what is listed *)

Lemma sorted_names_spec (entries : gmap string Entry) :
  (forall n, n ∈ sorted_names entries <-> is_Some (entries !! n))
  /\ NoDup (sorted_names entries)
  /\ StronglySorted String.le (sorted_names entries).
Proof.
  unfold sorted_names. split; [|split].
  - intros n. rewrite merge_sort_Permutation, list_elem_of_fmap. split.
    + intros ([k e] & -> & H). apply elem_of_map_to_list in H. eauto.
    + intros [e H]. exists (n, e). split; [reflexivity|].
      apply elem_of_map_to_list. exact H.
  - rewrite merge_sort_Permutation. apply NoDup_fst_map_to_list.
  - apply StronglySorted_merge_sort; apply _.
Qed.

Lemma filter_map_sorted {A} (R : relation string) (f : string -> A)
    (g : A -> string) (P : A -> Prop) `{!forall x, Decision (P x)}
    (l : list string) :
  (forall n, g (f n) = n) ->
  StronglySorted R l ->
  StronglySorted R (map g (filter P (map f l))).
Proof.
  intros Hgf. induction 1 as [|n l Hl IH Hn]; [constructor|].
  cbn [map]. rewrite filter_cons. destruct (decide (P (f n))); [|exact IH].
  cbn [map]. rewrite Hgf. constructor; [exact IH|].
  apply Forall_forall. intros m Hm.
  apply (list_elem_of_fmap g) in Hm as (x & -> & Hx).
  apply list_elem_of_filter in Hx as [_ Hx].
  apply (list_elem_of_fmap f) in Hx as (k & -> & Hk).
  rewrite Hgf. rewrite Forall_forall in Hn. apply Hn. exact Hk.
Qed.

(** X11. For a directory that exists, [iter_files] lists exactly the
    regular files of the directory whose name does not start with the marker
    and matches the pattern, each once, in the lexicographic order of their
    names. *)
Theorem iter_files_lists_pending
    (fnmatch : string -> string -> bool) (src : LocalDirectorySource)
    (fs : FS) (entries : gmap string Entry) :
  fs !! directory src = Some (Dir entries) ->
  exists files,
    iter_files fnmatch src fs = Ok files
    /\ (forall p, p ∈ files <->
          parent p = directory src
          /\ (exists content, entries !! name p = Some (RegularFile content))
          /\ Py.startswith (processed_prefix src) (name p) = false
          /\ fnmatch (name p) (pattern src) = true)
    /\ NoDup files
    /\ StronglySorted String.le (map name files).
Proof.
  intros Hdir. unfold iter_files, listing. rewrite Hdir.
  cbn [mbind Result_bind]. eexists. split; [reflexivity|].
  destruct (sorted_names_spec entries) as (Hin & Hnd & Hsorted).
  split; [|split].
  - intros p. rewrite list_elem_of_filter, list_elem_of_fmap.
    unfold eligible, Fs.is_file, Fs.lookup. split.
    + intros [He (n & -> & Hn)]. cbn [parent name] in *. rewrite Hdir in He.
      apply andb_true_iff in He as [He Hf]. apply andb_true_iff in He as [He Hp].
      split; [reflexivity|]. split.
      * destruct (entries !! n) as [[c|]|]; try discriminate. eauto.
      * split; [apply negb_true_iff; exact Hp | exact Hf].
    + intros (Hpar & [c Hc] & Hp & Hf). split.
      * rewrite Hpar, Hdir, Hc, Hp, Hf. reflexivity.
      * exists (name p). split; [destruct p; simpl in *; congruence|].
        apply Hin. eauto.
  - apply NoDup_filter. apply NoDup_fmap_2; [|exact Hnd].
    intros a b H. injection H. auto.
  - apply (filter_map_sorted String.le
             (fun n => {| parent := directory src; name := n |}) name);
      [reflexivity | exact Hsorted].
Qed.

Lemma iter_files_lists_pending_witness :
  exists files,
    iter_files (fun _ _ => true) underscore_source marked_fs = Ok files
    /\ (run_path ∈ files)
    /\ ({| parent := "logs"; name := "_run.json" |} ∉ files).
Proof.
  destruct (iter_files_lists_pending (fun _ _ => true) underscore_source marked_fs
              (<["run.json" := RegularFile "{}"]>
                 {[ "_run.json" := RegularFile "old" ]}) eq_refl)
    as (files & E & Hin & _).
  exists files. split; [exact E|]. split.
  - apply Hin. split; [reflexivity|]. split; [eexists; reflexivity|].
    split; reflexivity.
  - intros H. apply Hin in H as (_ & _ & H & _). discriminate H.
Defined.

(** ** sources.py: a marked file and the next listing *)

Lemma startswith_app (p s : string) : Py.startswith p (p +:+ s) = true.
Proof.
  induction p as [|c p IH]; [reflexivity|].
  rewrite app_cons. simpl. rewrite Ascii.eqb_refl. exact IH.
Qed.

Lemma underscored_keeps_head (k : nat) (n r : string) :
  n = String "_" r -> exists r', underscored k n = String "_" r'.
Proof.
  revert n r. induction k as [|k IH]; intros n r ->; [eauto|].
  simpl. eapply IH. reflexivity.
Qed.

Lemma underscored_head (k : nat) (n : string) :
  exists r, underscored (S k) n = String "_" r.
Proof. simpl. eapply underscored_keeps_head. reflexivity. Qed.

(** X12. After [mark_processed] has renamed a file, the old path is not
    listed any more.  The new path is not listed either when the marker is
    the default "_", and for any marker when the first name tried was free.
    But when there was a collision and the marker starts with another
    character than "_", the new name does not start with the marker, so the
    renamed file counts as pending again if it matches the pattern. *)
Theorem marked_file_and_next_listing
    (fnmatch : string -> string -> bool) (src : LocalDirectorySource)
    (path target : Path) (fs fs' : FS) (e : Entry) :
  Fs.lookup fs path = Some e ->
  valid_component (name path) = true ->
  Fs.has_slash (processed_prefix src) = false ->
  mark_processed src path fs = (Ok target, fs') ->
  eligible fnmatch src fs' path = false
  /\ (processed_prefix src = "_" -> eligible fnmatch src fs' target = false)
  /\ (Fs.exists_ fs (candidate src path 0) = false ->
      target = candidate src path 0 /\ eligible fnmatch src fs' target = false)
  /\ (Fs.exists_ fs (candidate src path 0) = true ->
      forall c r, processed_prefix src = String c r -> c <> "_"%char ->
      Py.startswith (processed_prefix src) (name target) = false
      /\ eligible fnmatch src fs' target
         = Fs.is_file fs' target && fnmatch (name target) (pattern src)).
Proof.
  intros Hsrc Hv Hp Hmark.
  destruct (mark_processed_once src path fs e Hsrc Hv Hp)
    as (k & fs0 & Hm & Hbusy & Hfree & Hnew & Hold & Hframe).
  rewrite Hm in Hmark. injection Hmark as <- <-.
  split; [|split; [|split]].
  - unfold eligible, Fs.is_file. rewrite Hold. reflexivity.
  - intros Hdef. unfold eligible.
    assert (Hs : Py.startswith (processed_prefix src)
                   (name (candidate src path k)) = true).
    { unfold candidate, retry. cbn [name]. rewrite Hdef.
      destruct k as [|k]; [reflexivity|].
      destruct (underscored_head k ("_" +:+ name path)) as [r ->].
      reflexivity. }
    rewrite Hs. cbn [negb]. rewrite andb_false_r. reflexivity.
  - intros Hfree0.
    assert (Hk : k = O).
    { destruct k as [|k]; [reflexivity|].
      rewrite (Hbusy O) in Hfree0 by lia. discriminate. }
    subst k. split; [reflexivity|]. unfold eligible, candidate, retry.
    cbn [name underscored]. rewrite startswith_app. cbn [negb].
    rewrite andb_false_r. reflexivity.
  - intros Hbusy0 c r Hpre Hc.
    assert (Hk : exists j, k = S j).
    { destruct k as [|j]; [|eauto].
      apply lookup_exists in Hfree. congruence. }
    destruct Hk as [j ->].
    assert (Hs : Py.startswith (processed_prefix src)
                   (name (candidate src path (S j))) = false).
    { unfold candidate, retry. cbn [name].
      destruct (underscored_head j (processed_prefix src +:+ name path)) as [x ->].
      rewrite Hpre. simpl. destruct (Ascii.eqb_spec c "_"); [contradiction|].
      reflexivity. }
    split; [exact Hs|]. unfold eligible. rewrite Hs. cbn [negb].
    rewrite andb_true_r. reflexivity.
Qed.

Lemma marked_file_and_next_listing_witness :
  exists target fs',
    mark_processed done_source run_path done_fs = (Ok target, fs')
    /\ eligible (fun _ _ => true) done_source fs' run_path = false
    /\ eligible (fun _ _ => true) done_source fs' target = true.
Proof.
  destruct (mark_processed done_source run_path done_fs) as [[target|e] fs'] eqn:E;
    [|vm_compute in E; discriminate E].
  exists target, fs'. split; [reflexivity|].
  destruct (marked_file_and_next_listing (fun _ _ => true) done_source run_path
              target done_fs fs' (RegularFile "{}") eq_refl eq_refl eq_refl E)
    as (Hold & _ & _ & Hcollide).
  split; [exact Hold|].
  destruct (Hcollide eq_refl "d"%char "one-" eq_refl ltac:(discriminate)) as [_ ->].
  vm_compute in E. injection E as <- <-. reflexivity.
Defined.

(** ** db.py: the invariant of the store *)

Lemma sorted_snoc (rows : list Row) (r : Row) :
  StronglySorted id_lt rows ->
  Forall (fun x => row_id x < row_id r) rows ->
  StronglySorted id_lt (rows ++ [r]).
Proof.
  intros Hs Hall. apply StronglySorted_app_2; [|exact Hs|repeat constructor].
  intros x1 x2 H1 H2. apply list_elem_of_singleton in H2 as ->.
  rewrite Forall_forall in Hall. apply Hall. exact H1.
Qed.

Lemma ids_ok_snoc (rows : list Row) (seq : Z) (values : list SqlValue) :
  ids_ok rows seq ->
  ids_ok (rows ++ [{| row_id := seq + 1; row_values := values |}]) (seq + 1).
Proof.
  intros [Hs Hb]. split.
  - apply sorted_snoc; [exact Hs|].
    eapply Forall_impl; [exact Hb|]. intros x Hx. simpl in *. lia.
  - apply Forall_app. split.
    + eapply Forall_impl; [exact Hb|]. intros x Hx. simpl in *. lia.
    + repeat constructor. simpl. lia.
Qed.

Lemma has_log_beyond (db : Database) (id : Z) :
  Forall (fun r => row_id r <= llm_logs_seq db) (llm_logs db) ->
  llm_logs_seq db < id -> has_log db id = false.
Proof.
  unfold has_log. intros Hb Hid.
  induction Hb as [|r l Hr _ IH]; [reflexivity|].
  simpl. rewrite IH. destruct (Z.eqb_spec (row_id r) id); [lia | reflexivity].
Qed.

Lemma has_log_snoc (rows : list Row) (r : Row) (id : Z) :
  existsb (fun x => row_id x =? id) (rows ++ [r])
  = existsb (fun x => row_id x =? id) rows || (row_id r =? id).
Proof. rewrite existsb_app. simpl. rewrite orb_false_r. reflexivity. Qed.

Lemma refs_ok_same (db db' : Database) :
  eval_checks db' = eval_checks db ->
  (forall id, has_log db id = true -> has_log db' id = true) ->
  refs_ok db -> refs_ok db'.
Proof.
  unfold refs_ok. intros -> Hlog H.
  eapply Forall_impl; [exact H|]. intros r (id & Hc & Hl). eauto.
Qed.

Lemma db_ok_fields (db db' : Database) :
  llm_logs db' = llm_logs db -> llm_logs_seq db' = llm_logs_seq db ->
  eval_checks db' = eval_checks db -> eval_checks_seq db' = eval_checks_seq db ->
  db_ok db -> db_ok db'.
Proof.
  unfold db_ok, refs_ok, has_log. intros -> -> -> ->. tauto.
Qed.

Lemma reach_ok (db : Database) : db_ok db -> db_ok (snd (reach db)).
Proof.
  pose proof (reach_keeps db) as (_ & H2 & H3 & H4 & H5).
  apply db_ok_fields; assumption.
Qed.

Lemma add_log_ok (db : Database) (values : list SqlValue) :
  db_ok db ->
  db_ok (add_log db {| row_id := llm_logs_seq db + 1; row_values := values |}).
Proof.
  intros (Hl & Hc & Hr). split; [|split].
  - apply ids_ok_snoc. exact Hl.
  - exact Hc.
  - apply (refs_ok_same db); [reflexivity| |exact Hr].
    intros id. unfold has_log. cbn [llm_logs add_log].
    rewrite has_log_snoc. intros ->. reflexivity.
Qed.

Lemma add_check_ok (db : Database) (id : Z) (values : list SqlValue) :
  db_ok db -> has_log db id = true ->
  db_ok (add_check db {| row_id := eval_checks_seq db + 1;
                         row_values := SqlInt id :: values |}).
Proof.
  intros (Hl & Hc & Hr) Hid. split; [|split].
  - exact Hl.
  - apply ids_ok_snoc. exact Hc.
  - unfold refs_ok. cbn [eval_checks add_check]. apply Forall_app. split.
    + exact Hr.
    + repeat constructor. exists id. split; [reflexivity | exact Hid].
Qed.

Lemma execute_insert_log_ok (values : list SqlValue) (db : Database) :
  db_ok db -> db_ok (snd (execute_insert_log values db)).
Proof.
  intros Hok. unfold execute_insert_log, eff_bind.
  pose proof (reach_ok db Hok) as H1.
  destruct (reach db) as [[[]|e] db0]; simpl in *; [|exact H1].
  apply add_log_ok. exact H1.
Qed.

Lemma insert_log_ok decimal_str (rec : LLMLogRecord) (db : Database) :
  db_ok db -> db_ok (snd (insert_log decimal_str rec db)).
Proof.
  intros Hok. unfold insert_log, eff_bind.
  pose proof (execute_insert_log_ok
                (log_params decimal_str (is_postgres db) rec) db Hok) as H1.
  destruct (execute_insert_log _ db) as [[id|e] db1]; simpl in *; [|exact H1].
  destruct (is_postgres db1); [|exact H1].
  pose proof (reach_ok db1 H1) as H2.
  destruct (reach db1) as [[[]|e] db2]; simpl in *; exact H2.
Qed.

Lemma execute_insert_check_ok (postgres : bool) (c : CheckResult) (db : Database) :
  db_ok db -> db_ok (snd (execute_insert_check (check_params postgres c) db)).
Proof.
  intros Hok. unfold execute_insert_check, eff_bind.
  pose proof (reach_ok db Hok) as H1.
  destruct (reach db) as [[[]|e] db0]; simpl in *; [|exact H1].
  destruct (has_log db0 (log_id c)) eqn:E; simpl; [|exact H1].
  apply add_check_ok; assumption.
Qed.

Lemma insert_check_rows_ok (checks : list CheckResult) (db : Database) :
  db_ok db -> db_ok (snd (insert_check_rows checks db)).
Proof.
  revert db. induction checks as [|c rest IH]; intros db Hok; [exact Hok|].
  cbn [insert_check_rows]. unfold eff_bind.
  pose proof (execute_insert_check_ok (is_postgres db) c db Hok) as H1.
  destruct (execute_insert_check _ db) as [[[]|e] db1]; simpl in *; [|exact H1].
  apply IH. exact H1.
Qed.

Lemma insert_checks_ok (checks : list CheckResult) (db : Database) :
  db_ok db -> db_ok (snd (insert_checks checks db)).
Proof.
  destruct checks; [exact (fun H => H) | apply insert_check_rows_ok].
Qed.

(** X13. The inserts keep the store well-formed, whether they return or
    raise: in both tables the ids go strictly upwards in insertion order and
    stay within the last id given out, and every check row names a log row
    that exists.  The id [insert_log] returns was not in use before and
    names a row afterwards. *)
Theorem inserts_keep_store_well_formed
    (decimal_str : Decimal -> string) (rec : LLMLogRecord)
    (checks : list CheckResult) (db : Database) :
  db_ok db ->
  db_ok (snd (insert_log decimal_str rec db))
  /\ db_ok (snd (insert_checks checks db))
  /\ forall id db',
       insert_log decimal_str rec db = (Ok id, db') ->
       has_log db id = false /\ has_log db' id = true.
Proof.
  intros Hok. split; [apply insert_log_ok; exact Hok|].
  split; [apply insert_checks_ok; exact Hok|].
  intros id db' Hlog.
  pose proof (insert_log_spec _ _ _ _ _ Hlog) as (Hid & Hrows & _).
  destruct Hok as ([_ Hb] & _). split.
  - apply has_log_beyond; [exact Hb | lia].
  - unfold has_log. rewrite Hrows, has_log_snoc. cbn [row_id].
    rewrite Z.eqb_refl. apply orb_true_r.
Qed.

Lemma inserts_keep_store_well_formed_witness :
  db_ok empty_db
  /\ db_ok (snd (insert_log (fun _ => "") (record_with None None) empty_db))
  /\ db_ok (snd (insert_checks [check_for 1 answer_clear; check_for 2 answer_match]
                   one_log_db)).
Proof.
  assert (H0 : db_ok empty_db) by (repeat constructor).
  assert (H1 : db_ok one_log_db).
  { split; [|split]; [split| split|]; repeat constructor. simpl. lia. }
  split; [exact H0|]. split.
  - apply (inserts_keep_store_well_formed (fun _ => "") (record_with None None)
             [] empty_db H0).
  - apply (inserts_keep_store_well_formed (fun _ => "") (record_with None None)
             [check_for 1 answer_clear; check_for 2 answer_match] one_log_db H1).
Defined.

(** ** db.py: what was inserted is what is read *)

#[local] Instance id_le_trans : Transitive id_le.
Proof. intros a b c. unfold id_le. lia. Qed.

#[local] Instance id_le_total : Total id_le.
Proof. intros a b. unfold id_le. lia. Qed.

#[local] Instance id_ge_trans : Transitive id_ge.
Proof. intros a b c. unfold id_ge. lia. Qed.

#[local] Instance id_ge_total : Total id_ge.
Proof. intros a b. unfold id_ge. lia. Qed.

Lemma sorted_same_id (rows : list Row) (a b : Row) :
  StronglySorted id_lt rows -> a ∈ rows -> b ∈ rows -> row_id a = row_id b -> a = b.
Proof.
  induction 1 as [|r l Hl IH Hr]; intros Ha Hb Hid.
  - inversion Ha.
  - rewrite Forall_forall in Hr.
    apply elem_of_cons in Ha as [->|Ha]; apply elem_of_cons in Hb as [->|Hb].
    + reflexivity.
    + apply Hr in Hb. unfold id_lt in Hb. lia.
    + apply Hr in Ha. unfold id_lt in Ha. lia.
    + apply IH; assumption.
Qed.

Lemma sorted_weaken (rows : list Row) :
  StronglySorted id_lt rows -> StronglySorted id_le rows.
Proof.
  induction 1 as [|r l Hl IH Hr]; constructor; [exact IH|].
  eapply Forall_impl; [exact Hr|]. intros x. unfold id_lt, id_le. lia.
Qed.

(** Rows that are in the order of their ids are left as they are by
    [ORDER BY id ASC], and reversed by [ORDER BY id DESC]. *)
Lemma order_by_id_asc_sorted (rows : list Row) :
  StronglySorted id_lt rows -> order_by_id_asc rows = rows.
Proof.
  intros Hs. unfold order_by_id_asc.
  apply (StronglySorted_unique_strong id_le).
  - intros a b Ha Hb Hab Hba. rewrite merge_sort_Permutation in Ha.
    apply (sorted_same_id rows); try assumption. unfold id_le in *. lia.
  - apply StronglySorted_merge_sort; apply _.
  - apply sorted_weaken. exact Hs.
  - apply merge_sort_Permutation.
Qed.

Lemma sorted_rev (rows : list Row) :
  StronglySorted id_lt rows -> StronglySorted id_ge (rev rows).
Proof.
  induction 1 as [|r l Hl IH Hr]; [constructor|].
  simpl. apply StronglySorted_app_2; [|exact IH|repeat constructor].
  intros a b Ha Hb. apply list_elem_of_singleton in Hb as ->.
  apply list_elem_of_In, in_rev, list_elem_of_In in Ha.
  rewrite Forall_forall in Hr. apply Hr in Ha. unfold id_lt, id_ge in *. lia.
Qed.

Lemma order_by_id_desc_sorted (rows : list Row) :
  StronglySorted id_lt rows -> order_by_id_desc rows = rev rows.
Proof.
  intros Hs. unfold order_by_id_desc.
  apply (StronglySorted_unique_strong id_ge).
  - intros a b Ha Hb Hab Hba. rewrite merge_sort_Permutation in Ha.
    apply list_elem_of_In, in_rev, list_elem_of_In in Hb.
    apply (sorted_same_id rows); try assumption. unfold id_ge in *. lia.
  - apply StronglySorted_merge_sort; apply _.
  - apply sorted_rev. exact Hs.
  - rewrite merge_sort_Permutation. apply Permutation_rev.
Qed.

Lemma sorted_filter (f : Row -> bool) (rows : list Row) :
  StronglySorted id_lt rows -> StronglySorted id_lt (List.filter f rows).
Proof.
  induction 1 as [|r l Hl IH Hr]; [constructor|].
  simpl. destruct (f r); [|exact IH].
  constructor; [exact IH|].
  apply Forall_forall. intros x Hx.
  apply list_elem_of_In, List.filter_In in Hx as [Hx _].
  rewrite Forall_forall in Hr. apply Hr. apply list_elem_of_In. exact Hx.
Qed.

Lemma check_rows_selected (postgres : bool) (seq id : Z) (checks : list CheckResult) :
  Forall (fun c => log_id c = id) checks ->
  List.filter (fun r => int_is id (column 0 r)) (check_rows postgres seq checks)
  = check_rows postgres seq checks.
Proof.
  intros H. revert seq. induction H as [|c l Hc _ IH]; intros seq; [reflexivity|].
  cbn [check_rows List.filter]. unfold column at 1. cbn [row_values check_params nth int_is].
  rewrite Hc, Z.eqb_refl, IH. reflexivity.
Qed.

Lemma check_rows_view (postgres : bool) (seq : Z) (checks : list CheckResult) :
  map check_view (check_rows postgres seq checks) = map stored_view checks.
Proof.
  revert seq. induction checks as [|c l IH]; intros seq; [reflexivity|].
  cbn [check_rows map]. rewrite IH. f_equal.
  unfold check_view, stored_view, column. cbn [row_values check_params nth].
  f_equal. destruct (passed c) as [[]|], postgres; reflexivity.
Qed.

(** X14. What [insert_checks] has stored for a log row, [get_checks] gives
    back: after the checks that were there, the new ones in the order they
    were given, with the name of the check, the score and the details as
    they were, and the verdict as a boolean or null on both backends,
    although SQLite stores it as 0 or 1. *)
Theorem checks_round_trip
    (db db1 db2 : Database) (id : Z) (checks : list CheckResult) :
  db_ok db ->
  Forall (fun c => log_id c = id) checks ->
  insert_checks checks db = (Ok (), db1) ->
  reach db1 = (Ok (), db2) ->
  get_checks id db1
  = (Ok (map check_view (select_checks id db) ++ map stored_view checks), db2).
Proof.
  intros Hok Hid Hins Hreach.
  assert (Hrows : eval_checks db1
                  = eval_checks db
                    ++ check_rows (is_postgres db) (eval_checks_seq db) checks).
  { destruct checks as [|c rest].
    - injection Hins as <-. simpl. rewrite app_nil_r. reflexivity.
    - unfold insert_checks in Hins.
      destruct (insert_check_rows_prefix (c :: rest) db)
        as (n & Hn & _ & _ & _ & Hlen & _).
      rewrite Hins in Hn, Hlen. cbn [fst snd] in Hn, Hlen.
      rewrite (Hlen eq_refl), firstn_all in Hn. exact Hn. }
  pose proof (insert_checks_ok checks db Hok) as Hok1.
  rewrite Hins in Hok1. cbn [snd] in Hok1.
  pose proof (reach_keeps db1) as (_ & _ & Hsame & _).
  rewrite Hreach in Hsame. cbn [snd] in Hsame.
  unfold get_checks, eff_bind. rewrite Hreach. f_equal. f_equal.
  unfold select_checks. rewrite Hsame.
  destruct Hok as (_ & [Hs _] & _). destruct Hok1 as (_ & [Hs1 _] & _).
  rewrite !order_by_id_asc_sorted by (apply sorted_filter; assumption).
  rewrite Hrows, List.filter_app, map_app.
  rewrite (check_rows_selected _ _ _ _ Hid), check_rows_view. reflexivity.
Qed.

Lemma checks_round_trip_witness :
  exists db1,
    insert_checks [check_for 1 answer_clear;
                   {| log_id := 1; check_name := answer_match; passed := None;
                      score := Some (1 # 7); details := None |}] one_log_db
    = (Ok (), db1)
    /\ map view_passed (match fst (get_checks 1 db1) with
                        | Ok views => views
                        | Raise _ => []
                        end)
       = [SqlBool true; SqlNull]
    /\ map (column 2) (eval_checks db1) = [SqlInt 1; SqlNull].
Proof.
  destruct (insert_checks [check_for 1 answer_clear;
                   {| log_id := 1; check_name := answer_match; passed := None;
                      score := Some (1 # 7); details := None |}] one_log_db)
    as [r db1] eqn:E.
  assert (Hr : r = Ok ()) by (vm_compute in E; congruence). subst r.
  exists db1. split; [reflexivity|].
  assert (Hreach : reach db1 = (Ok (), db1))
    by (vm_compute in E; injection E as <-; reflexivity).
  assert (Hok : db_ok one_log_db).
  { split; [|split]; [split| split|]; repeat constructor. simpl. lia. }
  assert (Hid : Forall (fun c => log_id c = 1)
                  [check_for 1 answer_clear;
                   {| log_id := 1; check_name := answer_match; passed := None;
                      score := Some (1 # 7); details := None |}])
    by (repeat constructor).
  rewrite (checks_round_trip one_log_db db1 db1 1 _ Hok Hid E Hreach).
  split; [reflexivity|].
  vm_compute in E. injection E as <-. reflexivity.
Defined.

(** ** Reading the log rows back *)

Lemma find_fresh (rows : list Row) (r : Row) (id : Z) :
  existsb (fun x => row_id x =? id) rows = false ->
  List.find (fun x => row_id x =? id) (rows ++ [r])
  = if row_id r =? id then Some r else None.
Proof.
  induction rows as [|x l IH]; [reflexivity|].
  simpl. destruct (row_id x =? id); [discriminate|]. exact IH.
Qed.

Lemma take_drop_page {A} (limit offset : nat) (l : list A) :
  take limit (drop offset l) = drop offset (take (offset + limit) l).
Proof.
  revert l. induction offset as [|o IH]; intros l; [reflexivity|].
  destruct l as [|x l]; simpl.
  - rewrite take_nil. reflexivity.
  - apply IH.
Qed.

Lemma sorted_map_desc (f : Row -> LogView) (rows : list Row) :
  (forall r, view_id (f r) = row_id r) ->
  StronglySorted id_lt rows ->
  StronglySorted (fun a b => view_id b < view_id a) (map f (rev rows)).
Proof.
  intros Hf. induction 1 as [|r l Hl IH Hr]; [constructor|].
  simpl. rewrite map_app. apply StronglySorted_app_2; [|exact IH|repeat constructor].
  intros a b Ha Hb. apply list_elem_of_singleton in Hb as ->.
  apply list_elem_of_fmap in Ha as (x & -> & Hx).
  apply list_elem_of_In, in_rev, list_elem_of_In in Hx.
  rewrite Forall_forall in Hr. apply Hr in Hx. rewrite !Hf. exact Hx.
Qed.

Lemma sorted_sublist {A} (R : A -> A -> Prop) (k l : list A) :
  sublist k l -> StronglySorted R l -> StronglySorted R k.
Proof.
  intros Hk Hl. revert k Hk. induction Hl as [|x l Hl IH Hx]; intros k Hk.
  - apply sublist_nil_r in Hk as ->. constructor.
  - apply sublist_cons_r in Hk as [Hk|(k' & -> & Hk)]; [auto|].
    constructor; [auto|].
    rewrite Forall_forall in Hx |- *. intros y Hy. apply Hx.
    eapply elem_of_sublist; eassumption.
Qed.

Section ReadLogs.

Variable decimal_str : Decimal -> string.
Variable numeric_affinity : SqlValue -> SqlValue.

Abbreviation insert_log := (insert_log decimal_str).
Abbreviation get_log := (get_log numeric_affinity).
Abbreviation list_logs := (list_logs numeric_affinity).
Abbreviation detail_view := (detail_view numeric_affinity).
Abbreviation summary_view := (summary_view numeric_affinity).



End ReadLogs.

Lemma one_log_db_ok : db_ok one_log_db.
Proof. split; [|split]; [split| split|]; repeat constructor. simpl. lia. Qed.

Lemma two_log_db_ok : db_ok two_log_db.
Proof.
  split; [|split]; [split| split|]; repeat constructor; unfold id_lt; simpl; lia.
Qed.



(** ** runner.py: a file that is processed *)

Lemma evaluate_log_ids json_loads (id : Z) (rec : LLMLogRecord) :
  exists checks,
    evaluate json_loads id rec = Ok checks
    /\ length checks = 7%nat
    /\ Forall (fun c => log_id c = id) checks.
Proof.
  destruct (evaluate_returns json_loads id rec)
    as (c1 & c2 & c3 & c4 & c5 & c6 & c7 & He & _).
  exists [c1; c2; c3; c4; c5; c6; c7]. split; [exact He|]. split; [reflexivity|].
  revert He. unfold evaluate.
  destruct (sentences_of (Py.or_empty (assistant_answer rec)));
    cbn [mbind Result_bind]; rewrite ?truediv_guarded; cbn [mbind Result_bind];
    rewrite ?truediv_guarded; cbn [mbind Result_bind];
    intros He; injection He as <- <- <- <- <- <- <-; repeat constructor.
Qed.

Lemma reach_accepts (db : Database) :
  accepts db -> fst (reach db) = Ok () /\ accepts (snd (reach db)).
Proof.
  unfold accepts, reach. intros H.
  destruct (faults db) as [|[] rest] eqn:E; simpl.
  - split; [reflexivity|]. rewrite E. exact H.
  - inversion H; discriminate.
  - split; [reflexivity|]. inversion H; assumption.
Qed.

Lemma insert_log_accepts decimal_str (rec : LLMLogRecord) (db : Database) :
  accepts db ->
  (exists id, fst (Db.insert_log decimal_str rec db) = Ok id)
  /\ accepts (snd (Db.insert_log decimal_str rec db)).
Proof.
  intros Ha. unfold Db.insert_log, execute_insert_log, eff_bind.
  destruct (reach_accepts db Ha) as [H1 H2].
  destruct (reach db) as [[[]|e] db0]; [|discriminate]. cbn [fst snd] in *.
  cbn [is_postgres add_log]. destruct (is_postgres db0).
  - set (db1 := add_log db0 _).
    assert (Ha1 : accepts db1) by exact H2.
    destruct (reach_accepts db1 Ha1) as [H3 H4].
    destruct (reach db1) as [[[]|e] db2]; [|discriminate]. cbn [fst snd] in *.
    split; [eexists; reflexivity | exact H4].
  - split; [eexists; reflexivity | exact H2].
Qed.

Lemma insert_check_rows_accepts (checks : list CheckResult) (db : Database) :
  accepts db ->
  Forall (fun c => has_log db (log_id c) = true) checks ->
  fst (insert_check_rows checks db) = Ok ()
  /\ accepts (snd (insert_check_rows checks db)).
Proof.
  revert db. induction checks as [|c rest IH]; intros db Ha Hlog.
  - split; [reflexivity | exact Ha].
  - cbn [insert_check_rows]. unfold eff_bind, execute_insert_check, eff_bind.
    inversion Hlog as [|? ? Hc Hrest]; subst.
    destruct (reach_accepts db Ha) as [H1 H2].
    pose proof (reach_keeps db) as (_ & Hl & _).
    destruct (reach db) as [[[]|e] db0]; [|discriminate]. cbn [fst snd] in *.
    cbn [check_params].
    assert (Hsame : forall id, has_log db0 id = has_log db id)
      by (intros id; unfold has_log; rewrite Hl; reflexivity).
    rewrite Hsame, Hc. apply IH; [exact H2|].
    eapply Forall_impl; [exact Hrest|]. intros x Hx.
    unfold has_log in *. cbn [llm_logs add_check]. rewrite Hl. exact Hx.
Qed.

Lemma insert_log_keeps_check_seq decimal_str (rec : LLMLogRecord) (db : Database) :
  eval_checks_seq (snd (Db.insert_log decimal_str rec db)) = eval_checks_seq db.
Proof.
  unfold Db.insert_log, execute_insert_log, eff_bind.
  pose proof (reach_keeps db) as (_ & _ & _ & _ & H1).
  destruct (reach db) as [[[]|e] db0]; cbn [fst snd] in *; [|exact H1].
  cbn [is_postgres add_log]. destruct (is_postgres db0); [|exact H1].
  set (db1 := add_log db0 _).
  pose proof (reach_keeps db1) as (_ & _ & _ & _ & H2).
  destruct (reach db1) as [[[]|e] db2]; cbn [fst snd] in *;
    rewrite H2; exact H1.
Qed.

Lemma insert_checks_accepts (checks : list CheckResult) (db : Database) :
  accepts db ->
  Forall (fun c => has_log db (log_id c) = true) checks ->
  fst (insert_checks checks db) = Ok () /\ accepts (snd (insert_checks checks db)).
Proof.
  destruct checks as [|c rest]; [intros Ha _; split; [reflexivity | exact Ha]|].
  apply insert_check_rows_accepts.
Qed.

Lemma insert_checks_rows (checks : list CheckResult) (db db1 : Database) :
  insert_checks checks db = (Ok (), db1) ->
  eval_checks db1
  = eval_checks db ++ check_rows (is_postgres db) (eval_checks_seq db) checks.
Proof.
  intros Hins. destruct checks as [|c rest].
  - injection Hins as <-. simpl. rewrite app_nil_r. reflexivity.
  - unfold insert_checks in Hins.
    destruct (insert_check_rows_prefix (c :: rest) db)
      as (n & Hn & _ & _ & _ & Hlen & _).
    rewrite Hins in Hn, Hlen. cbn [fst snd] in Hn, Hlen.
    rewrite (Hlen eq_refl), firstn_all in Hn. exact Hn.
Qed.

Lemma parse_log_file_reads json_loads py_repr (fs : FS) (p : Path)
    (rec : LLMLogRecord) :
  parse_log_file json_loads py_repr fs p = Ok rec ->
  exists raw, Fs.lookup fs p = Some (RegularFile raw).
Proof.
  unfold parse_log_file, Fs.read_text.
  destruct (Fs.lookup fs p) as [[raw|]|]; try discriminate. eauto.
Qed.

Section ProcessFileMore.

Variable json_loads : string -> Result json.
Variable py_repr : json -> string.
Variable fnmatch : string -> string -> bool.
Variable decimal_str : Decimal -> string.
Variable genai_prices :
  option (Z -> Z -> option string -> option string
          -> Result (Decimal * Decimal * Decimal)).

Abbreviation process_file := (process_file json_loads py_repr decimal_str genai_prices).
Abbreviation process_steps := (process_steps json_loads py_repr decimal_str genai_prices).
Abbreviation drain := (drain json_loads py_repr fnmatch decimal_str genai_prices).
Abbreviation drain_loop :=
  (drain_loop json_loads py_repr fnmatch decimal_str genai_prices).


(** X18. A file that cannot be read or parsed costs nothing: [process_file]
    returns [None], no statement reaches the store, no file is touched, and
    the one line printed names the file and the exception, with or without
    the debug switch. *)
Theorem unparsed_file_changes_nothing
    (source : LocalDirectorySource) (path : Path) (debug : bool) (w : World)
    (e : Exn) :
  Parser.parse_log_file json_loads py_repr (fs w) path = Raise e ->
  process_file source path debug w
  = (None, {| fs := fs w; db := db w; console := console w ++ [Failed path e] |}).
Proof.
  intros Hparse. unfold Runner.process_file.
  rewrite process_steps_flat, Hparse. reflexivity.
Qed.

End ProcessFileMore.


Lemma unparsed_file_changes_nothing_witness :
  Runner.process_file no_decoder (fun _ => "") (fun _ => "") None
    underscore_source run_path true pending_world
  = (None, {| fs := fs pending_world; db := empty_db;
              console := [Failed run_path JSONDecodeError] |}).
Proof.
  apply (unparsed_file_changes_nothing no_decoder (fun _ => "") (fun _ => "") None
           underscore_source run_path true pending_world JSONDecodeError).
  reflexivity.
Defined.

(** ** runner.py: a drain *)

Lemma insert_log_rows decimal_str (rec : LLMLogRecord) (db : Database) :
  let r := Db.insert_log decimal_str rec db in
  exists new,
    logs_grew db (snd r) new /\ (length new <= 1)%nat
    /\ (forall id, fst r = Ok id -> length new = 1%nat).
Proof.
  unfold logs_grew, Db.insert_log, execute_insert_log, eff_bind.
  pose proof (reach_keeps db) as (_ & H1 & _).
  destruct (reach db) as [[[]|e] db0]; cbn [fst snd] in *.
  - cbn [is_postgres add_log]. set (row := {| row_id := _; row_values := _ |}).
    exists [row]. destruct (is_postgres db0).
    + pose proof (reach_keeps (add_log db0 row)) as (_ & H2 & _).
      destruct (reach (add_log db0 row)) as [[[]|e] db2]; cbn [fst snd] in *;
        rewrite H2; cbn [llm_logs add_log]; rewrite H1;
        (split; [reflexivity|]); (split; [simpl; lia|]); reflexivity.
    + cbn [fst snd llm_logs add_log]. rewrite H1.
      split; [reflexivity|]. split; [simpl; lia|]. reflexivity.
  - exists []. rewrite app_nil_r. split; [exact H1|]. split; [simpl; lia|].
    intros id H. discriminate H.
Qed.

Section DrainMore.

Variable json_loads : string -> Result json.
Variable py_repr : json -> string.
Variable fnmatch : string -> string -> bool.
Variable decimal_str : Decimal -> string.
Variable genai_prices :
  option (Z -> Z -> option string -> option string
          -> Result (Decimal * Decimal * Decimal)).

Abbreviation process_file := (process_file json_loads py_repr decimal_str genai_prices).
Abbreviation drain := (drain json_loads py_repr fnmatch decimal_str genai_prices).
Abbreviation drain_loop :=
  (drain_loop json_loads py_repr fnmatch decimal_str genai_prices).

(** Whatever happens to a file, the store stays well formed and gets at most
    one log row, and exactly one when an id is returned. *)
Lemma process_file_rows (source : LocalDirectorySource) (path : Path)
    (debug : bool) (w : World) :
  db_ok (db w) ->
  let r := process_file source path debug w in
  db_ok (db (snd r))
  /\ exists new,
       logs_grew (db w) (db (snd r)) new /\ (length new <= 1)%nat
       /\ (fst r <> None -> length new = 1%nat).
Proof.
  intros Hok. unfold Runner.process_file.
  rewrite (process_steps_flat json_loads py_repr decimal_str genai_prices).
  assert (Hnone : db_ok (db w)
                  /\ exists new, logs_grew (db w) (db w) new /\ (length new <= 1)%nat
                       /\ ((None : option Z) <> None -> length new = 1%nat)).
  { split; [exact Hok|]. exists []. unfold logs_grew. rewrite app_nil_r.
    split; [reflexivity|]. split; [simpl; lia|]. intros H. contradiction. }
  destruct (Parser.parse_log_file json_loads py_repr (fs w) path) as [rec0|e];
    [|exact Hnone].
  cbn zeta. set (rec := priced genai_prices rec0).
  pose proof (insert_log_ok decimal_str rec (db w) Hok) as Hok1.
  destruct (insert_log_rows decimal_str rec (db w)) as (new & Hnew & Hle & Hone).
  destruct (Db.insert_log decimal_str rec (db w)) as [[id|e] db1];
    cbn [fst snd db] in *.
  - pose proof (Hone id eq_refl) as Hlen.
    destruct (Evaluator.evaluate json_loads id rec) as [checks|e].
    + pose proof (insert_checks_ok checks db1 Hok1) as Hok2.
      pose proof (insert_checks_keeps_logs checks db1) as (Kl & _ & _).
      assert (Hgrew : forall db2, llm_logs db2 = llm_logs db1 ->
                logs_grew (db w) db2 new)
        by (intros db2 E; unfold logs_grew in *; congruence).
      destruct (Db.insert_checks checks db1) as [[[]|e] db2];
        cbn [fst snd db] in *.
      * destruct (Sources.mark_processed source path (fs w)) as [[t|e] fs'];
          cbn [fst snd db]; (split; [exact Hok2|]); exists new; auto.
      * split; [exact Hok2|]. exists new. auto.
    + split; [exact Hok1|]. exists new. auto.
  - split; [exact Hok1|]. exists new. split; [exact Hnew|]. split; [exact Hle|].
    intros H. contradiction.
Qed.

Lemma drain_loop_rows (source : LocalDirectorySource) (debug : bool)
    (entries : list Path) (count : nat) (w : World) :
  db_ok (db w) ->
  let r := drain_loop source debug entries count w in
  db_ok (db (snd r))
  /\ exists new,
       logs_grew (db w) (db (snd r)) new
       /\ (count <= fst r)%nat
       /\ (fst r - count <= length new)%nat
       /\ (length new <= length entries)%nat.
Proof.
  revert count w. induction entries as [|entry rest IH]; intros count w Hok.
  - simpl. split; [exact Hok|]. exists []. unfold logs_grew.
    rewrite app_nil_r. split; [reflexivity|]. simpl. lia.
  - cbn [Runner.drain_loop].
    destruct (Sources.eligible fnmatch source (fs w) entry).
    + destruct (process_file_rows source entry debug w Hok)
        as (Hok1 & new1 & Hnew1 & Hle1 & Hone1).
      destruct (process_file source entry debug w) as [[id|] w1];
        cbn [fst snd] in *.
      * destruct (IH (S count) w1 Hok1) as (Hok2 & new2 & Hnew2 & Hc & Hd & Hl).
        split; [exact Hok2|]. exists (new1 ++ new2). unfold logs_grew in *.
        rewrite Hnew2, Hnew1, app_assoc. split; [reflexivity|].
        rewrite length_app, (Hone1 ltac:(discriminate)). cbn [length]. lia.
      * destruct (IH count w1 Hok1) as (Hok2 & new2 & Hnew2 & Hc & Hd & Hl).
        split; [exact Hok2|]. exists (new1 ++ new2). unfold logs_grew in *.
        rewrite Hnew2, Hnew1, app_assoc. split; [reflexivity|].
        rewrite length_app. cbn [length]. lia.
    + destruct (IH count w Hok) as (Hok2 & new2 & Hnew2 & Hc & Hd & Hl).
      split; [exact Hok2|]. exists new2. split; [exact Hnew2|].
      cbn [length]. lia.
Qed.

(** X19. A drain of a well-formed store leaves it well formed and only adds
    to [llm_logs]; the number it returns, which is the last line it prints,
    is at most the number of log rows it has added, and this is at most the
    number of entries of the directory. *)
Theorem drain_counts_new_rows
    (settings : Settings) (debug : bool) (w w' : World) (count : nat) :
  db_ok (db w) ->
  drain settings debug w = (Ok count, w') ->
  db_ok (db w')
  /\ last (console w') = Some (Processed count)
  /\ exists new entries,
       logs_grew (db w) (db w') new
       /\ Sources.listing (source_of settings) (fs w) = Ok entries
       /\ (count <= length new)%nat
       /\ (length new <= length entries)%nat.
Proof.
  intros Hok. unfold Runner.drain.
  destruct (Sources.listing (source_of settings) (fs w)) as [entries|e];
    [|discriminate].
  destruct (drain_loop_rows (source_of settings)
              (debug || settings_debug settings) entries O w Hok)
    as (Hok1 & new & Hnew & _ & Hd & Hl).
  destruct (drain_loop (source_of settings) (debug || settings_debug settings)
              entries O w) as [n w1].
  cbn [fst snd] in *. intros H. injection H as <- <-.
  cbn [db console Runner.print snd]. split; [exact Hok1|].
  split; [apply last_snoc|]. exists new, entries.
  split; [exact Hnew|]. split; [reflexivity|]. lia.
Qed.

(** X20. When every entry of the directory is passed over by [iter_files],
    a drain processes nothing: it returns 0, no statement reaches the store,
    no file is touched, and it prints the count. *)
Theorem drain_of_settled_directory
    (settings : Settings) (debug : bool) (w : World) (entries : list Path) :
  Sources.listing (source_of settings) (fs w) = Ok entries ->
  Forall (passed_over fnmatch (source_of settings) (fs w)) entries ->
  drain settings debug w
  = (Ok O, {| fs := fs w; db := db w; console := console w ++ [Processed O] |}).
Proof.
  intros Hlist Hall. unfold Runner.drain. rewrite Hlist.
  assert (Hloop : forall dbg count,
            drain_loop (source_of settings) dbg entries count w = (count, w)).
  { intros dbg count. clear Hlist.
    induction Hall as [|entry rest Hentry _ IH]; [reflexivity|].
    cbn [Runner.drain_loop].
    assert (He : Sources.eligible fnmatch (source_of settings) (fs w) entry = false).
    { unfold Sources.eligible.
      destruct Hentry as [H|[H|H]]; rewrite H; simpl.
      - rewrite andb_false_r. reflexivity.
      - apply andb_false_r.
      - reflexivity. }
    rewrite He. exact IH. }
  rewrite Hloop. reflexivity.
Qed.

End DrainMore.

Lemma drain_counts_new_rows_witness :
  exists w',
    Runner.drain report_loads (fun _ => "") (fun _ _ => true) (fun _ => "") None
      demo_settings false pending_world = (Ok 1%nat, w')
    /\ db_ok (db w')
    /\ last (console w') = Some (Processed 1)
    /\ length (llm_logs (db w')) = 1%nat.
Proof.
  destruct (Runner.drain report_loads (fun _ => "") (fun _ _ => true)
              (fun _ => "") None demo_settings false pending_world)
    as [r w'] eqn:E.
  assert (Hr : r = Ok 1%nat) by (vm_compute in E; congruence). subst r.
  destruct (drain_counts_new_rows report_loads (fun _ => "") (fun _ _ => true)
              (fun _ => "") None demo_settings false pending_world w' 1)
    as (Hok & Hlast & new & entries & Hnew & Hlist & Hc & Hl).
  - split; [|split]; [split| split|]; constructor.
  - exact E.
  - exists w'. split; [reflexivity|]. split; [exact Hok|]. split; [exact Hlast|].
    vm_compute in Hlist. injection Hlist as <-.
    unfold logs_grew in Hnew. rewrite Hnew. cbn [length] in *. simpl. lia.
Defined.

Lemma drain_of_settled_directory_witness :
  Runner.drain no_decoder (fun _ => "") (fun _ _ => true) (fun _ => "") None
    demo_settings true settled_world
  = (Ok O, {| fs := fs settled_world; db := empty_db; console := [Processed O] |}).
Proof.
  apply (drain_of_settled_directory no_decoder (fun _ => "") (fun _ _ => true)
           (fun _ => "") None demo_settings true settled_world
           [{| parent := "logs"; name := "_run.json" |}]).
  - reflexivity.
  - constructor; [|constructor]. left. reflexivity.
Defined.

(** ** feedback.py and the table [feedback] *)

Lemma on_tables_reach (s : Store) :
  let r := on_tables reach s in
  feedback (snd r) = feedback s /\ feedback_seq (snd r) = feedback_seq s
  /\ llm_logs (tables (snd r)) = llm_logs (tables s)
  /\ is_postgres (tables (snd r)) = is_postgres (tables s)
  /\ (accepts (tables s) -> fst r = Ok () /\ accepts (tables (snd r))).
Proof.
  unfold on_tables.
  pose proof (reach_keeps (tables s)) as (Hp & Hl & _).
  pose proof (reach_accepts (tables s)) as Ha.
  destruct (reach (tables s)) as [r d]. cbn [fst snd] in *.
  repeat split; try assumption; apply Ha; assumption.
Qed.

(** What [insert_feedback] has done when it returns. *)
Lemma insert_feedback_spec (fb : Feedback) (s s1 : Store) (id : Z) :
  insert_feedback fb s = (Ok id, s1) ->
  id = feedback_seq s + 1
  /\ feedback s1
     = feedback s
       ++ [{| row_id := id;
              row_values := feedback_params (is_postgres (tables s)) fb |}]
  /\ feedback_seq s1 = id
  /\ has_log (tables s) (feedback_log_id fb) = true
  /\ llm_logs (tables s1) = llm_logs (tables s).
Proof.
  unfold insert_feedback, execute_insert_feedback, eff_bind.
  pose proof (on_tables_reach s) as (Hf & Hs & Hl & Hp & _).
  destruct (on_tables reach s) as [[[]|e] s0]; [|discriminate].
  cbn [fst snd] in *. cbn [feedback_params].
  assert (Hlog : has_log (tables s0) (feedback_log_id fb)
                 = has_log (tables s) (feedback_log_id fb))
    by (unfold has_log; rewrite Hl; reflexivity).
  rewrite Hlog.
  destruct (has_log (tables s) (feedback_log_id fb)); [|discriminate].
  cbn [tables add_feedback row_id]. destruct (is_postgres (tables s0)).
  - set (s' := add_feedback s0 _).
    pose proof (on_tables_reach s') as (Hf' & Hs' & Hl' & _).
    destruct (on_tables reach s') as [[[]|e] s2]; [|discriminate].
    cbn [fst snd] in *. intros H. injection H as <- <-.
    rewrite Hf', Hs', Hl'. subst s'. cbn [feedback feedback_seq tables add_feedback row_id].
    rewrite Hf, Hs, Hl, <- Hp. repeat split.
  - intros H. injection H as <- <-.
    cbn [feedback feedback_seq tables add_feedback row_id].
    rewrite Hf, Hs, Hl, <- Hp. repeat split.
Qed.

(** In a store that accepts every statement the foreign key alone decides. *)
Lemma insert_feedback_accepts (fb : Feedback) (s : Store) :
  accepts (tables s) ->
  let r := insert_feedback fb s in
  if has_log (tables s) (feedback_log_id fb)
  then exists id, fst r = Ok id
  else fst r = Raise IntegrityError /\ feedback (snd r) = feedback s
       /\ feedback_seq (snd r) = feedback_seq s.
Proof.
  intros Ha. unfold insert_feedback, execute_insert_feedback, eff_bind.
  pose proof (on_tables_reach s) as (Hf & Hs & Hl & Hp & Hacc).
  destruct (Hacc Ha) as [Hok Ha0].
  destruct (on_tables reach s) as [[[]|e] s0]; [|discriminate].
  cbn [fst snd] in *. cbn [feedback_params].
  assert (Hlog : has_log (tables s0) (feedback_log_id fb)
                 = has_log (tables s) (feedback_log_id fb))
    by (unfold has_log; rewrite Hl; reflexivity).
  rewrite Hlog.
  destruct (has_log (tables s) (feedback_log_id fb)).
  - cbn [tables add_feedback]. destruct (is_postgres (tables s0)).
    + set (s' := add_feedback s0 _).
      pose proof (on_tables_reach s') as (_ & _ & _ & _ & Hacc').
      destruct (Hacc' Ha0) as [Hok' _].
      destruct (on_tables reach s') as [[[]|e] s2]; [|discriminate].
      eexists. reflexivity.
    + eexists. reflexivity.
  - cbn [fst snd]. split; [reflexivity|]. split; assumption.
Qed.

Lemma feedback_row_view (postgres : bool) (id : Z) (fb : Feedback) :
  feedback_view {| row_id := id; row_values := feedback_params postgres fb |}
  = stored_feedback fb.
Proof.
  unfold feedback_view, stored_feedback, column.
  cbn [row_values feedback_params nth]. f_equal.
  destruct postgres, (is_good fb); reflexivity.
Qed.

(** X21. What [save_feedback] has stored for a log row, [get_feedback]
    gives back first, before the feedback that was there: the verdict as a
    boolean on both backends, although SQLite stores it as 0 or 1, the
    comment and the reference answer as they were or null.  The id returned
    is the next id of the table, and the log row exists. *)
Theorem feedback_round_trip
    (s s1 s2 : Store) (log_id : Z) (good : bool)
    (comments reference_answer : option string) (id : Z) :
  ids_ok (feedback s) (feedback_seq s) ->
  save_feedback log_id good comments reference_answer s = (Ok id, s1) ->
  on_tables reach s1 = (Ok (), s2) ->
  get_feedback log_id s1
  = (Ok (stored_feedback {| feedback_log_id := log_id; is_good := good;
                            comments := comments;
                            reference_answer := reference_answer |}
         :: map feedback_view (select_feedback log_id s)), s2)
  /\ id = feedback_seq s + 1
  /\ has_log (tables s) log_id = true
  /\ ids_ok (feedback s1) (feedback_seq s1).
Proof.
  intros Hok Hsave Hreach. unfold save_feedback in Hsave.
  pose proof (insert_feedback_spec _ _ _ _ Hsave) as (Hid & Hrows & Hseq & Hlog & _).
  cbn [feedback_log_id] in Hlog.
  assert (Hok1 : ids_ok (feedback s1) (feedback_seq s1)).
  { rewrite Hrows, Hseq, Hid. apply ids_ok_snoc. exact Hok. }
  split; [|split; [exact Hid|split; [exact Hlog | exact Hok1]]].
  pose proof (on_tables_reach s1) as (Hf & _).
  rewrite Hreach in Hf. cbn [snd] in Hf.
  unfold get_feedback, eff_bind. rewrite Hreach. f_equal. f_equal.
  unfold select_feedback. rewrite Hf.
  destruct Hok as [Hs _]. destruct Hok1 as [Hs1 _].
  rewrite !order_by_id_desc_sorted by (apply sorted_filter; assumption).
  rewrite Hrows, List.filter_app, rev_app_distr.
  cbn [List.filter]. unfold column at 1. cbn [row_values feedback_params nth int_is feedback_log_id].
  rewrite Z.eqb_refl. cbn [rev app map]. rewrite feedback_row_view. reflexivity.
Qed.


Lemma feedback_round_trip_witness :
  exists s1,
    save_feedback 1 true (Some "clear") None (no_feedback one_log_db) = (Ok 1, s1)
    /\ get_feedback 1 s1
       = (Ok [{| view_is_good := SqlBool true; view_comments := SqlText "clear";
                 view_reference_answer := SqlNull |}], s1)
    /\ map (column 1) (feedback s1) = [SqlInt 1].
Proof.
  destruct (save_feedback 1 true (Some "clear") None (no_feedback one_log_db))
    as [r s1] eqn:E.
  assert (Hr : r = Ok 1) by (vm_compute in E; congruence). subst r.
  assert (Hreach : on_tables reach s1 = (Ok (), s1))
    by (vm_compute in E; injection E as <-; reflexivity).
  assert (Hok : ids_ok (feedback (no_feedback one_log_db))
                  (feedback_seq (no_feedback one_log_db)))
    by (split; constructor).
  destruct (feedback_round_trip _ s1 s1 1 true (Some "clear") None 1 Hok E Hreach)
    as (Hget & _).
  exists s1. split; [reflexivity|]. split; [exact Hget|].
  vm_compute in E. injection E as <-. reflexivity.
Defined.


(** ** db.py: the connection string *)

Lemma last_piece_without (sep s piece : string) :
  Py.contains sep s = false -> last_piece_from sep s O piece = piece.
Proof.
  induction s as [|c s IH]; [reflexivity|].
  intros H. cbn [Py.contains] in H. apply orb_false_iff in H as [H1 H2].
  cbn [last_piece_from]. rewrite H1. apply IH. exact H2.
Qed.

Lemma last_piece_after (sep a s piece : string) :
  none_starts_in sep a s ->
  last_piece_from sep (a +:+ s) O piece = last_piece_from sep s O piece.
Proof.
  induction a as [|c a IH]; [reflexivity|].
  intros [H1 H2]. rewrite app_cons in *. cbn [last_piece_from].
  rewrite H1. apply IH. exact H2.
Qed.

(** X23. The file SQLite opens is what follows [sqlite:///] in the
    connection string, when this holds no [sqlite:///] of its own; a string
    with two slashes only, [sqlite://] and a name, is taken for SQLite too
    and the whole string is the file. *)
Theorem sqlite_file_of_url (p : string) :
  Py.contains "sqlite:///" p = false ->
  choose_driver ("sqlite:///" +:+ p) = Ok (Sqlite p)
  /\ (Py.startswith "/" p = false ->
      choose_driver ("sqlite://" +:+ p) = Ok (Sqlite ("sqlite://" +:+ p))).
Proof.
  intros Hp. split.
  - rewrite !app_cons, app_nil. unfold choose_driver, last_piece.
    cbn [Py.startswith Ascii.eqb Bool.eqb].
    cbn [last_piece_from Py.startswith Ascii.eqb Bool.eqb String.length Nat.sub Py.drop].
    rewrite last_piece_without by exact Hp. reflexivity.
  - intros Hslash. unfold choose_driver, last_piece.
    assert (H1 : Py.startswith "sqlite://" ("sqlite://" +:+ p) = true)
      by reflexivity.
    rewrite H1, last_piece_after.
    + rewrite last_piece_without by exact Hp. reflexivity.
    + split; [exact Hslash|]. repeat (split; [reflexivity|]). exact I.
Qed.

Lemma sqlite_file_of_url_witness :
  choose_driver (resolve_url None (Some "")) = Ok (Sqlite "monitoring.db")
  /\ choose_driver (resolve_url (Some "sqlite://data.db") None)
     = Ok (Sqlite "sqlite://data.db").
Proof.
  split.
  - exact (proj1 (sqlite_file_of_url "monitoring.db" eq_refl)).
  - exact (proj2 (sqlite_file_of_url "data.db" eq_refl) eq_refl).
Defined.

(** ** runner.py: the prices *)

Lemma parsed_has_no_costs json_loads py_repr (fs : FS) (p : Path)
    (rec : LLMLogRecord) :
  parse_log_file json_loads py_repr fs p = Ok rec ->
  input_cost rec = None /\ output_cost rec = None /\ total_cost rec = None.
Proof.
  unfold parse_log_file. intros H. step_bind H.
  unfold parse_document in H. do 10 step_bind H. injection H as <-.
  repeat split.
Qed.

Section Prices.

Variable json_loads : string -> Result json.
Variable py_repr : json -> string.
Variable decimal_str : Decimal -> string.
Variable genai_prices :
  option (Z -> Z -> option string -> option string
          -> Result (Decimal * Decimal * Decimal)).


End Prices.

